(** * Northlight: diagnosis and scoring engine

    A shallow embedding of the benchmark utilities, the diagnosis card,
    the scenario builder (frontend benchmark script), the churn waterfall
    (frontend/book/risk_waterfall.js) and the configuration built for it
    from an account (frontend/book/script.js), with the properties the
    specification states about them.

    Numbers.  A JavaScript number is modelled as the rational it stands
    for.  Comparisons, [Math.max], [Math.min], [Math.abs] and [Math.round]
    are exact on doubles and are the exact operations here.  The result of
    [+], [-], [*] and [/] is the exact result rounded to a double; the
    rounding is the parameter [fl] of the model, and a literal that is not
    a double itself, such as 1.8, is [fl 1.8].  It is written out in the
    benchmark utilities, the diagnosis card, the handlers and the derived
    values of the scenario builder, the waterfall and the configuration
    built from an account.  The scale helpers, the geometry of the
    benchmark bar and the initial bounds of the scenario builder are in
    exact arithmetic.  A property holds for every rounding when its
    statement takes the rounding as a parameter, for every rounding with
    the laws [Binary64] when it assumes them, and for exact arithmetic
    ([no_rounding]) otherwise.  The rounding of the code is [binary64],
    rounding to the nearest double with ties to even; it has the laws of
    [Binary64], and the last section evaluates the model with it on
    samples.  NaN, the infinities and overflow are outside the model,
    apart from the result of [parseFloat] and the lift ratio of a name
    inherited from [Object.prototype], which have result types of their
    own.

    Missing values.  A field that is [null], [undefined] or absent is
    [None] wherever the code does not tell the three apart; the value of
    a metric sample, which the diagnosis card also compares with [<] and
    [>], keeps them apart. *)

From Stdlib Require Import QArith Qpower Qminmax Qround Qabs Lqa ZArith Lia.
From Stdlib Require Import String Ascii List Sorted Bool.
Import ListNotations.

Open Scope Q_scope.

(** ** Rounding *)

(** The rounding of an exact result to a double. *)
Class Rounding : Type := fl : Q -> Q.

(** Exact arithmetic: nothing is rounded. *)
Definition no_rounding : Rounding := fun x : Q => x.

(** Bounds on the relative error of a rounding to the nearest double,
    2^-53, and on its absolute error where the result is subnormal,
    2^-1075. *)
Definition rel_error : Q := 1 # 1000000000000000.
Definition abs_error : Q := 1 # 1000000000000000000000000000000.

(** The laws of rounding to the nearest double that the properties below
    rely on, overflow aside: it keeps the order, it is off by no more
    than the two error bounds, and it leaves alone the integers up to
    2^53. *)
Record Binary64 (R : Rounding) : Prop := mkBinary64 {
  fl_monotone : forall x y : Q, x <= y -> fl x <= fl y;
  fl_error :
    forall x : Q, Qabs (fl x - x) <= rel_error * Qabs x + abs_error;
  fl_integer :
    forall z : Z,
      (Z.abs z <= 9007199254740992)%Z -> fl (inject_Z z) == inject_Z z
}.

(** The nearest integer, ties to the even one. *)
Definition round_half_even (y : Q) : Z :=
  let f := Qfloor y in
  match Qcompare (y - inject_Z f) (1 # 2) with
  | Lt => f
  | Gt => (f + 1)%Z
  | Eq => if Z.even f then f else (f + 1)%Z
  end.

(** The binary exponent of a number other than 0: the integer part of
    its logarithm to base 2. *)
Definition binary_exponent (x : Q) : Z :=
  let k := (Z.log2 (Z.abs (Qnum x)) - Z.log2 (Zpos (Qden x)))%Z in
  if Qle_bool (Qpower 2 k) (Qabs x) then k else (k - 1)%Z.

(** Rounding to the nearest double, ties to even: 53 bits from the
    leading one, and no bit below 2^-1074.  Overflow is not modelled. *)
Definition binary64 : Rounding := fun x : Q =>
  if Qeq_bool x 0 then 0
  else
    let e := Z.max (-1074) (binary_exponent x - 52) in
    inject_Z (round_half_even (x / Qpower 2 e)) * Qpower 2 e.

(** The relative distance from a threshold beyond which rounding with
    the laws of [Binary64] cannot move a value across it. *)
Definition tolerance : Q := 1 # 100000000000000.

(** ** JavaScript operators used by the code *)

(** [a < b] on numbers. *)
Definition Qltb (a b : Q) : bool := negb (Qle_bool b a).

(** [a ?? b]: the left operand unless it is null or undefined. *)
Definition nullish {A : Type} (a : option A) (b : A) : A :=
  match a with Some x => x | None => b end.

(** [a ?? b] where [b] may itself be missing. *)
Definition nullish_opt {A : Type} (a b : option A) : option A :=
  match a with Some x => Some x | None => b end.

(** [o?.f]: optional chaining. *)
Definition chain {A B : Type} (o : option A) (f : A -> option B) : option B :=
  match o with Some a => f a | None => None end.

(** [a || b] on a number that may be missing: [b] when [a] is null,
    undefined or zero. *)
Definition or_num (a : option Q) (b : Q) : Q :=
  match a with
  | Some x => if Qeq_bool x 0 then b else x
  | None => b
  end.

(** [a || b] on a string that may be missing: [b] when [a] is null,
    undefined or empty. *)
Definition or_string (a : option string) (b : string) : string :=
  match a with
  | Some s => if (s =? "")%string then b else s
  | None => b
  end.

(** Truthiness of a number that may be missing. *)
Definition truthy (a : option Q) : bool :=
  match a with
  | Some x => negb (Qeq_bool x 0)
  | None => false
  end.

(** [Math.round]: the nearest integer, halves towards plus infinity. *)
Definition Math_round (x : Q) : Z := Qfloor (x + (1 # 2)).

Notation "a ?? b" := (nullish a b) (at level 45, right associativity).
Notation "o ?. f" := (chain o f) (at level 25, left associativity).

(** A number of the payload where [null] and [undefined] are told
    apart. *)
Inductive JsNumber : Type :=
| js_undefined
| js_null
| js_number (q : Q).

(** The number itself, where [null] and [undefined] both count as
    missing ([x == null], [x ?? y], [x || y]). *)
Definition number (x : JsNumber) : option Q :=
  match x with
  | js_number q => Some q
  | _ => None
  end.

(** The number [x] is compared as by [<] and [>]: [null] is compared as
    0, and [undefined] as NaN, for which every comparison is false. *)
Definition compared (x : JsNumber) : option Q :=
  match x with
  | js_number q => Some q
  | js_null => Some 0
  | js_undefined => None
  end.

(** [a > b] and [a < b] for a number [b]. *)
Definition js_gtb (a : JsNumber) (b : Q) : bool :=
  match compared a with Some x => Qltb b x | None => false end.

Definition js_ltb (a : JsNumber) (b : Q) : bool :=
  match compared a with Some x => Qltb x b | None => false end.

(** ** Object literals *)

(** What [table[key]] finds in an object literal besides nothing: an
    entry of the literal, or the member of [Object.prototype] of that
    name, which is a function or an object, hence truthy and NaN as a
    number. *)
Inductive Member (A : Type) : Type :=
| entry (a : A)
| prototype_member (key : string).

Arguments entry {A} a.
Arguments prototype_member {A} key.

(** The names every object inherits from [Object.prototype]. *)
Definition objectPrototype : list string :=
  ["constructor"; "hasOwnProperty"; "isPrototypeOf"; "propertyIsEnumerable";
   "toLocaleString"; "toString"; "valueOf"; "__proto__";
   "__defineGetter__"; "__defineSetter__"; "__lookupGetter__";
   "__lookupSetter__"]%string.

(** The entry of an object literal, written as a list of entries. *)
Fixpoint own {A : Type} (table : list (string * A)) (key : string)
    : option A :=
  match table with
  | [] => None
  | (k, v) :: rest => if (k =? key)%string then Some v else own rest key
  end.

(** [table[key]]; [None] is [undefined]. *)
Definition lookup {A : Type} (table : list (string * A)) (key : string)
    : option (Member A) :=
  match own table key with
  | Some v => Some (entry v)
  | None =>
      if existsb (String.eqb key) objectPrototype
      then Some (prototype_member key)
      else None
  end.

(** ** Benchmark utilities *)

(** A range as it arrives from the API: either bound may be missing. *)
Record RawRange : Type := mkRawRange {
  raw_low : option Q;
  raw_high : option Q
}.

(** A range whose two bounds are numbers, as [ensureTargetRange] returns. *)
Record TargetRange : Type := mkTargetRange {
  low : Q;
  high : Q
}.

Definition toRaw (tr : TargetRange) : RawRange :=
  {| raw_low := Some (low tr); raw_high := Some (high tr) |}.

(** A metric sample; [json_value] is its field [value]. *)
Record MetricData : Type := mkMetricData {
  json_value : JsNumber;
  median : option Q;
  p25 : option Q;
  p75 : option Q;
  target_range : option RawRange;
  delta_from_target : option Q;
  peer_multiple : option Q
}.

(** [m.value] where [null] and [undefined] are not told apart. *)
Definition value (m : MetricData) : option Q := number (json_value m).

(** [m?.value] where they are. *)
Definition chain_value (m : option MetricData) : JsNumber :=
  match m with Some x => json_value x | None => js_undefined end.

Inductive Verdict : Type :=
| unknown
| on_target
| exceeds_target
| outside_target.

Definition lower_is_better : string := "lower-is-better".
Definition higher_is_better : string := "higher-is-better".

(** [ensureTargetRange(metricData, unit, metricName)]. *)
Definition ensureTargetRange {R : Rounding} (metricData : option MetricData)
    (unit metricName : string) : TargetRange :=
  match metricData ?. target_range ?. raw_low,
        metricData ?. target_range ?. raw_high with
  | Some l, Some h => {| low := l; high := h |}
  | _, _ =>
      let m :=
        nullish_opt (metricData ?. median) (metricData ?. value)
        ?? (if (unit =? "%")%string then fl 0.05
            else if (metricName =? "CPC")%string then 3 else 50) in
      match metricData ?. p25, metricData ?. p75 with
      | Some p25, Some p75 => {| low := Qmax 0 p25; high := Qmax p75 p25 |}
      | _, _ =>
          let span := Qmax (fl 0.00001) (fl (m * fl 0.15)) in
          {| low := Qmax 0 (fl (m - span)); high := fl (m + span) |}
      end
  end.

(** [deriveVerdict(value, targetRange, direction)]. *)
Definition deriveVerdict (value : option Q) (targetRange : option RawRange)
    (direction : string) : Verdict :=
  match value, targetRange ?. raw_low, targetRange ?. raw_high with
  | Some v, Some low, Some high =>
      if Qle_bool low v && Qle_bool v high then on_target
      else if (direction =? "lower-is-better")%string then
        (if Qltb v low then exceeds_target else outside_target)
      else
        (if Qltb high v then exceeds_target else outside_target)
  | _, _, _ => unknown
  end.

(** [deltaPctFromRange(value, targetRange)]. *)
Definition deltaPctFromRange {R : Rounding} (value : Q)
    (targetRange : TargetRange) : Q :=
  let low := low targetRange in
  let high := high targetRange in
  if Qltb value low
  then fl (fl (fl (low - value) / Qmax low (fl 1e-9)) * 100)
  else if Qltb high value
  then fl (fl (fl (value - high) / Qmax high (fl 1e-9)) * 100)
  else 0.

Inductive BenchStatus : Type := UNKNOWN | GOOD | AVG | WEAK.

Definition BenchStatus_eqb (a b : BenchStatus) : bool :=
  match a, b with
  | UNKNOWN, UNKNOWN | GOOD, GOOD | AVG, AVG | WEAK, WEAK => true
  | _, _ => false
  end.

(** [statusFromBench(metric, metricName, unit, direction)]. *)
Definition statusFromBench {R : Rounding} (metric : option MetricData)
    (metricName unit direction : string) : BenchStatus :=
  match metric ?. value with
  | None => UNKNOWN
  | Some v =>
      let tr := ensureTargetRange metric unit metricName in
      match deriveVerdict (Some v) (Some (toRaw tr)) direction with
      | on_target | exceeds_target => GOOD
      | _ =>
          let delta := deltaPctFromRange v tr in
          if Qle_bool delta 15 then AVG else WEAK
      end
  end.

(** ** Diagnosis card *)

(** The payload [d] of [renderDiagnosis]: [input], [goal_analysis] and
    [benchmarks] are dereferenced without a guard, [targets] and [overall]
    through optional chaining. *)
Record Input : Type := mkInput {
  budget : option Q;
  clicks : option Q;
  leads : option Q;
  goal_cpl : option Q
}.

Record GoalAnalysis : Type := mkGoalAnalysis {
  goal_scenario : option string;
  recommended_cpl : option Q;
  realistic_range : option RawRange
}.

Record Benchmarks : Type := mkBenchmarks {
  cpl : option MetricData;
  cpc : option MetricData;
  cr : option MetricData
}.

Record Targets : Type := mkTargets {
  target_cr : option Q;
  target_cpc : option Q
}.

Record Overall : Type := mkOverall {
  goal_status : option string
}.

Record Diagnosis : Type := mkDiagnosis {
  input : Input;
  goal_analysis : GoalAnalysis;
  benchmarks : Benchmarks;
  targets : option Targets;
  overall : option Overall
}.

(** The card that is rendered, named after the outcome it stands for. *)
Inductive Outcome : Type :=
| no_traffic                  (* No Traffic *)
| verify_tracking             (* Verify Tracking *)
| budget_too_low              (* Budget Too Low *)
| ready_to_scale              (* Ready to Scale *)
| realign_goal_expectations   (* Realign Goal Expectations *)
| fix_conversion_rate         (* Fix Conversion Rate *)
| reduce_traffic_cost         (* Reduce Traffic Cost *)
| fix_cpc_first               (* Start with CPC, then CR *)
| fix_cr_first                (* Start with CR, then CPC *)
| monitor_performance.        (* Monitor Performance *)

Definition title (o : Outcome) : string :=
  match o with
  | no_traffic => "No Traffic"
  | verify_tracking => "Verify Tracking"
  | budget_too_low => "Budget Too Low"
  | ready_to_scale => "Ready to Scale"
  | realign_goal_expectations => "Realign Goal Expectations"
  | fix_conversion_rate => "Fix Conversion Rate"
  | reduce_traffic_cost => "Reduce Traffic Cost"
  | fix_cpc_first => "Start with CPC, then CR"
  | fix_cr_first => "Start with CR, then CPC"
  | monitor_performance => "Monitor Performance"
  end.

(** The pill put in front of a card ([provisionalInfo]); the empty string
    is [no_banner]. *)
Inductive Banner : Type :=
| no_banner
| provisional_low_volume            (* Provisional - low data volume *)
| budget_constrained (budget : Q).  (* Budget constrained ($...) *)

(** What [createDiagnosisCard] is given: the status class, the title, the
    number handed to the formatter of the message (the needed CR or CPC,
    or the recommended CPL), whether the aggressive-goal kicker is
    present, and the banner. *)
Record DiagnosisCard : Type := mkCard {
  card_status : string;
  outcome : Outcome;
  shown : option Q;
  kicker : bool;
  provisionalInfo : Banner
}.

Definition createDiagnosisCard (status : string) (o : Outcome)
    (shown : option Q) (kicker : bool) (provisionalInfo : Banner)
    : DiagnosisCard :=
  mkCard status o shown kicker provisionalInfo.

Definition opt_string_eqb (a : option string) (b : string) : bool :=
  match a with Some s => (s =? b)%string | None => false end.

(** The immediately-invoked [crSuspicious] of [renderDiagnosis]. *)
Definition crSuspicious {R : Rounding} (bm : Benchmarks) : bool :=
  match cr bm ?. value with
  | None => false
  | Some v =>
      let tr := ensureTargetRange (cr bm) "%" "CR" in
      Qltb (Qmax (fl (high tr * fl 1.8)) (fl 0.15)) v
  end.

(** [softBudgetBanner] and [provisionalTag] of [renderDiagnosis]. *)
Definition provisionalTag (input : Input) : Banner :=
  let softBudgetBanner :=
    match budget input with
    | Some b => if Qltb b 1000 then budget_constrained b else no_banner
    | None => no_banner
    end in
  let provisional :=
    Qltb (or_num (leads input) 0) 15 || Qltb (or_num (clicks input) 0) 300 in
  if provisional then provisional_low_volume else softBudgetBanner.

(** [renderDiagnosis(d)]: the card written to the diagnosis element. *)
Definition renderDiagnosis {R : Rounding} (d : Diagnosis) : DiagnosisCard :=
  let input := input d in
  let ga := goal_analysis d in
  let bm := benchmarks d in
  let status := overall d ?. goal_status in
  if Qeq_bool (or_num (clicks input) 0) 0 then
    createDiagnosisCard "bad" no_traffic None false no_banner
  else if (match leads input with Some l => Qeq_bool l 0 | None => false end
           && Qle_bool 100 (or_num (clicks input) 0))
          || crSuspicious bm then
    createDiagnosisCard "bad" verify_tracking None false no_banner
  else if match budget input with Some b => Qltb b 500 | None => false end then
    createDiagnosisCard "bad" budget_too_low None false no_banner
  else
    let provisionalTag := provisionalTag input in
    let cplStatus := statusFromBench (cpl bm) "CPL" "$" "lower-is-better" in
    let cpcStatus := statusFromBench (cpc bm) "CPC" "$" "lower-is-better" in
    let crStatus := statusFromBench (cr bm) "CR" "%" "higher-is-better" in
    let goalScenario := goal_scenario ga in
    let performanceIsGood :=
      negb (BenchStatus_eqb cplStatus WEAK)
      && negb (BenchStatus_eqb cpcStatus WEAK)
      && negb (BenchStatus_eqb crStatus WEAK) in
    if performanceIsGood then
      if opt_string_eqb status "achieved" || opt_string_eqb status "on_track"
      then createDiagnosisCard "good" ready_to_scale None false provisionalTag
      else createDiagnosisCard "ok" realign_goal_expectations
             (recommended_cpl ga) false provisionalTag
    else if opt_string_eqb status "behind" then
      let needCr :=
        nullish_opt (targets d ?. target_cr)
          (if truthy (cpc bm ?. value) && truthy (goal_cpl input)
           then match cpc bm ?. value, goal_cpl input with
                | Some v, Some g => Some (fl (v / g))
                | _, _ => None
                end
           else None) in
      let needCpc :=
        nullish_opt (targets d ?. target_cpc)
          (match goal_cpl input, cr bm ?. value with
           | Some g, Some v => Some (fl (g * v))
           | _, _ => None
           end) in
      let kicker := opt_string_eqb goalScenario "goal_too_aggressive" in
      let trCPC := ensureTargetRange (cpc bm) "$" "CPC" in
      let trCR := ensureTargetRange (cr bm) "%" "CR" in
      let cpcExtreme :=
        js_gtb (chain_value (cpc bm)) (fl (high trCPC * 1.5)) in
      let crDeep := js_ltb (chain_value (cr bm)) (fl (low trCR * 0.5)) in
      if BenchStatus_eqb crStatus WEAK && negb (BenchStatus_eqb cpcStatus WEAK)
      then createDiagnosisCard "bad" fix_conversion_rate
             (option_map (Qmax 0) needCr) kicker provisionalTag
      else if BenchStatus_eqb cpcStatus WEAK
              && negb (BenchStatus_eqb crStatus WEAK)
      then createDiagnosisCard "bad" reduce_traffic_cost
             (option_map (Qmax 0) needCpc) kicker provisionalTag
      else if cpcExtreme && negb crDeep
      then createDiagnosisCard "bad" fix_cpc_first None kicker provisionalTag
      else createDiagnosisCard "bad" fix_cr_first None kicker provisionalTag
    else
      createDiagnosisCard "" monitor_performance None false provisionalTag.

(** The three cards that end [renderDiagnosis] before any metric is
    looked at. *)
Definition terminal (o : Outcome) : bool :=
  match o with
  | no_traffic | verify_tracking | budget_too_low => true
  | _ => false
  end.

(** The payload [d] with [input.budget] replaced. *)
Definition with_budget (d : Diagnosis) (b : option Q) : Diagnosis :=
  {| input := {| budget := b;
                 clicks := clicks (input d);
                 leads := leads (input d);
                 goal_cpl := goal_cpl (input d) |};
     goal_analysis := goal_analysis d;
     benchmarks := benchmarks d;
     targets := targets d;
     overall := overall d |}.

(** ** Scenario builder *)

Module ScenarioBuilder.

(** The fields of the payload that the builder reads. *)
Definition input_budget : Input -> option Q := budget.
Definition bm_cpc : Benchmarks -> option MetricData := cpc.
Definition bm_cr : Benchmarks -> option MetricData := cr.

(** The closure variable [state]. *)
Record State : Type := mkState {
  budget : Q;
  cpc : Q;
  cr : Q
}.

(** The closure constant [bounds]. *)
Record Bounds : Type := mkBounds {
  budgetMin : Q;
  budgetMax : Q;
  cpcMin : Q;
  cpcMax : Q;
  crMin : Q;
  crMax : Q
}.

(** The payload of [renderScenarioBuilder]: [d.benchmarks] and [d.input]
    may both be missing. *)
Record Payload : Type := mkPayload {
  input : option Input;
  benchmarks : option Benchmarks
}.

Definition has_value_or_median (m : option MetricData) : bool :=
  match m with
  | Some x =>
      match value x, median x with
      | None, None => false
      | _, _ => true
      end
  | None => false
  end.

(** The initial [state] ([current] is a copy of it). *)
Definition initialState (d : Payload) : State :=
  let cpc_bm := benchmarks d ?. bm_cpc in
  let cr_bm := benchmarks d ?. bm_cr in
  {| budget := (input d ?. input_budget) ?? 5000;
     cpc := nullish_opt (cpc_bm ?. value) (cpc_bm ?. median) ?? 3.00;
     cr := nullish_opt (cr_bm ?. value) (cr_bm ?. median) ?? 0.04 |}.

(** [bounds], with the two repairs applied when a minimum reaches its
    maximum. *)
Definition initialBounds (d : Payload) : Bounds :=
  let state := initialState d in
  let p25cpc := benchmarks d ?. bm_cpc ?. p25 in
  let p75cpc := benchmarks d ?. bm_cpc ?. p75 in
  let p25cr := benchmarks d ?. bm_cr ?. p25 in
  let p75cr := benchmarks d ?. bm_cr ?. p75 in
  let cpcMin0 := Qmax 0.2 ((p25cpc ?? cpc state) * 0.5) in
  let cpcMax0 := or_num (Some ((p75cpc ?? cpc state) * 1.8)) 20 in
  let crMin0 := Qmax 0.001 ((p25cr ?? cr state) * 0.3) in
  let crMax0 := Qmin 1.0 ((p75cr ?? cr state) * 2.0) in
  let cpcRepair := Qle_bool cpcMax0 cpcMin0 in
  let crRepair := Qle_bool crMax0 crMin0 in
  {| budgetMin := 0;
     budgetMax := Qmax (((input d ?. input_budget) ?? 5000) * 2) 10000;
     cpcMin := if cpcRepair then Qmax 0.2 (cpc state * 0.5) else cpcMin0;
     cpcMax := if cpcRepair then cpc state * 2.0 else cpcMax0;
     crMin := if crRepair then Qmax 0.001 (cr state * 0.5) else crMin0;
     crMax := if crRepair then Qmin 1.0 (cr state * 2.0) else crMax0 |}.

(** [renderScenarioBuilder(d)] up to the first [render()]: the builder
    is hidden ([None]) unless both CPC and CR have a value or a median. *)
Definition renderScenarioBuilder (d : Payload) : option (State * Bounds) :=
  let hasCPC := has_value_or_median (benchmarks d ?. bm_cpc) in
  let hasCR := has_value_or_median (benchmarks d ?. bm_cr) in
  if negb hasCPC || negb hasCR then None
  else Some (initialState d, initialBounds d).

Definition clamp (v min max : Q) : Q := Qmin (Qmax v min) max.

(** The object [compute()] returns. *)
Record Derived : Type := mkDerived {
  clicks : Q;
  leads : Q;
  cpl : option Q
}.

Definition compute {R : Rounding} (state : State) : Derived :=
  {| clicks :=
       if Qltb 0 (budget state) && Qltb 0 (cpc state)
       then fl (budget state / cpc state) else 0;
     leads :=
       if Qltb 0 (cr state) && Qltb 0 (cpc state)
       then fl (fl (budget state * cr state) / cpc state) else 0;
     cpl :=
       if Qltb 0 (cr state) then Some (fl (cpc state / cr state))
       else None |}.

(** The keys of [keyMap]. *)
Inductive Key : Type := key_budget | key_cpc | key_cr.

Definition keyMin (bounds : Bounds) (key : Key) : Q :=
  match key with
  | key_budget => budgetMin bounds
  | key_cpc => cpcMin bounds
  | key_cr => crMin bounds
  end.

Definition keyMax (bounds : Bounds) (key : Key) : Q :=
  match key with
  | key_budget => budgetMax bounds
  | key_cpc => cpcMax bounds
  | key_cr => crMax bounds
  end.

Definition get (state : State) (key : Key) : Q :=
  match key with
  | key_budget => budget state
  | key_cpc => cpc state
  | key_cr => cr state
  end.

Definition set (state : State) (key : Key) (v : Q) : State :=
  match key with
  | key_budget => {| budget := v; cpc := cpc state; cr := cr state |}
  | key_cpc => {| budget := budget state; cpc := v; cr := cr state |}
  | key_cr => {| budget := budget state; cpc := cpc state; cr := v |}
  end.

(** What [parseFloat] can return. *)
Inductive Parsed : Type :=
| NaN
| Infinity (negative : bool)
| Finite (num : Q).

Section Handlers.

Context {R : Rounding}.

(** The built-in [parseFloat], taken as given. *)
Variable parseFloat : string -> Parsed.

Variable bounds : Bounds.

(** [updateState(key, rawValue, isFromNumeric)] as a transition of
    [state]. *)
Definition updateState (state : State) (key : Key) (rawValue : string)
    (isFromNumeric : bool) : State :=
  match parseFloat rawValue with
  | Finite num =>
      let num :=
        if match key with key_cr => true | _ => false end && isFromNumeric
        then fl (num / 100) else num in
      set state key (clamp num (keyMin bounds key) (keyMax bounds key))
  | _ => state
  end.

(** The click on [sb_snap_cr] (Solve for Goal via CR). *)
Definition snap_cr (goal : option Q) (state : State) : State :=
  match goal with
  | Some g =>
      if truthy goal && Qltb 0 g && Qltb 0 (cpc state)
      then set state key_cr
             (clamp (fl (cpc state / g)) (crMin bounds) (crMax bounds))
      else state
  | None => state
  end.

(** The click on [sb_snap_cpc] (Solve for Goal via CPC). *)
Definition snap_cpc (goal : option Q) (state : State) : State :=
  match goal with
  | Some g =>
      if truthy goal && Qltb 0 g && Qltb 0 (cr state)
      then set state key_cpc
             (clamp (fl (g * cr state)) (cpcMin bounds) (cpcMax bounds))
      else state
  | None => state
  end.

End Handlers.

End ScenarioBuilder.

(** ** Churn waterfall *)

(** A lift ratio as [estimateLiftRatio] can return it: a number, NaN, or
    a member of [Object.prototype]. *)
Inductive Lift : Type :=
| lift_number (q : Q)
| lift_NaN
| lift_member (key : string).

Module Waterfall.

Record Driver : Type := mkDriver {
  label : option string;
  pp : option Q;
  type : option string;
  why : option (Member string);
  lift_x : option Lift
}.

Record Config : Type := mkConfig {
  total_pct : option Q;
  baseline_pp : option Q;
  drivers : option (list Driver);
  cap_to : option Q;
  reconcile : option bool
}.

(** One bar of the chart: its row label, class, position and the signed
    contribution printed on it. *)
Record Step : Type := mkStep {
  step_label : string;
  cls : string;
  left : Q;
  width : Q;
  shown_pp : option Q
}.

(** [cap(n)] for a number [n]. *)
Definition cap (cfg : Config) (n : Q) : Q :=
  Qmax 0 (Qmin (cap_to cfg ?? 100) n).

Definition totalTarget (cfg : Config) : Q := cap cfg (total_pct cfg ?? 0).

Definition lt0 (a : option Q) : bool :=
  match a with Some x => Qltb x 0 | None => false end.

(** The class chosen for a driver. *)
Definition driverClass (d : Driver) : string :=
  if opt_string_eqb (type d) "controllable" then "controllable"
  else if opt_string_eqb (type d) "protective" || lt0 (pp d) then "protective"
  else if opt_string_eqb (type d) "residual" then "residual"
  else "structural".

(** The body of the [forEach] over the drivers, on the running
    [cumulative] and the bars drawn so far. *)
Definition driverStep {R : Rounding} (cfg : Config) (acc : Q * list Step)
    (d : Driver) : Q * list Step :=
  let '(cumulative, steps) := acc in
  let start := cumulative in
  let next := cap cfg (fl (cumulative + or_num (pp d) 0)) in
  (next,
   steps ++ [ {| step_label := or_string (label d) "Driver";
                 cls := driverClass d;
                 left := Qmin start next;
                 width := Qabs (fl (next - start));
                 shown_pp := pp d |} ]).

(** The chart: the baseline, the bars, and the total in the footer. *)
Record Chart : Type := mkChart {
  baseline : Q;
  steps : list Step;
  total : Q
}.

(** [renderChurnWaterfall(root, cfg)] for a present [root] and [cfg]. *)
Definition renderChurnWaterfall {R : Rounding} (cfg : Config) : Chart :=
  let base := cap cfg (or_num (baseline_pp cfg) 0) in
  let '(cumulative, steps) :=
    fold_left (driverStep cfg) (drivers cfg ?? []) (base, []) in
  let allowResidual := reconcile cfg ?? false in
  let diff := Math_round (fl (totalTarget cfg - cumulative)) in
  if allowResidual && (1 <=? Z.abs diff)%Z then
    let start := cumulative in
    let next := cap cfg (fl (cumulative + inject_Z diff)) in
    {| baseline := base;
       steps := steps ++ [ {| step_label := "Other modeled factors";
                              cls := "residual";
                              left := Qmin start next;
                              width := Qabs (fl (next - start));
                              shown_pp := Some (inject_Z diff) |} ];
       total := next |}
  else
    {| baseline := base; steps := steps; total := cumulative |}.

End Waterfall.

(** ** Benchmark bar *)

(** [Math.ceil]. *)
Definition Math_ceil (x : Q) : Z := Qceiling x.

(** [for (const t of targets) if (want <= t) return t]: the first target
    the wanted value does not exceed. *)
Definition firstAtLeast (want : Q) (targets : list Q) : option Q :=
  find (fun t => Qle_bool want t) targets.

Definition currencyTargets : list Q :=
  [0.5; 1; 2; 3; 5; 7.5; 10; 12; 15; 20; 25; 30; 40; 50; 60; 75; 100; 150;
   200; 250; 300; 400; 500; 750; 1000].

Definition percentTargets : list Q :=
  [0.05; 0.08; 0.10; 0.12; 0.15; 0.18; 0.20; 0.25; 0.30; 0.40; 0.50; 0.60;
   0.80; 1.00].

(** [roundUpToNiceCurrency(x)]. *)
Definition roundUpToNiceCurrency (x : Q) : Q :=
  let want := x * 1.15 in
  match firstAtLeast want currencyTargets with
  | Some t => t
  | None => inject_Z (Math_ceil (want / 100)) * 100
  end.

(** [roundUpToNicePercent(x)]. *)
Definition roundUpToNicePercent (x : Q) : Q :=
  let want := x * 1.15 in
  match firstAtLeast want percentTargets with
  | Some t => t
  | None => Qmin 1.00 (inject_Z (Math_ceil (want * 20)) / 20)
  end.

(** The widths of the three zones of the bar, by zone name. *)
Record SectionWidths : Type := mkSectionWidths {
  excellent : Q;
  target_range_zone : Q;
  needs_improvement : Q
}.

(** What [calculateBarData] returns, without the formatter, the labels of
    the scale points and the arguments it hands through. *)
Record BarData : Type := mkBarData {
  userPosition : Q;
  userSection : string;
  sectionWidths : SectionWidths;
  scalePoints : list Q
}.

Definition clamp01 (v : Q) : Q := Qmax 0 (Qmin 1 v).

(** [calculateBarData(userValue, targetRange, median, direction,
    metricUnit, metricName)] for a user value that is a number, as its
    caller guarantees; [None] is the [null] returned for an empty scale. *)
Definition calculateBarData {R : Rounding} (userValue : Q)
    (targetRange : option RawRange) (median : option Q)
    (direction metricUnit metricName : string) : option BarData :=
  let targetRange :=
    match targetRange ?. raw_low, targetRange ?. raw_high with
    | Some l, Some h => {| low := l; high := h |}
    | _, _ =>
        ensureTargetRange
          (Some (mkMetricData (js_number userValue) median None None None
                   None None))
          metricUnit metricName
    end in
  let baseTop := Qmax (Qmax userValue (high targetRange)) (median ?? 0) in
  let minScale := 0 in
  let maxScale :=
    if (metricUnit =? "%")%string then roundUpToNicePercent baseTop
    else if (metricName =? "CPC")%string then roundUpToNiceCurrency baseTop
    else roundUpToNiceCurrency
           (Qmax (Qmax (baseTop * 1.4) (high targetRange * 1.6))
              (or_num median 0 * 1.5)) in
  let totalRange := maxScale - minScale in
  if Qle_bool totalRange 0 then None
  else
    let lower := (direction =? "lower-is-better")%string in
    let userSection :=
      if Qltb userValue (low targetRange) then
        (if lower then "excellent" else "needs-improvement")%string
      else if Qltb (high targetRange) userValue then
        (if lower then "needs-improvement" else "excellent")%string
      else "target-range"%string in
    let userPosition := clamp01 ((userValue - minScale) / totalRange) * 100 in
    let excellentWidth :=
      clamp01 ((low targetRange - minScale) / totalRange) * 100 in
    let targetWidth :=
      clamp01 ((high targetRange - low targetRange) / totalRange) * 100 in
    let improvementWidth := Qmax 0 (100 - excellentWidth - targetWidth) in
    let sum := excellentWidth + targetWidth + improvementWidth in
    let normalise := negb (Qeq_bool sum 100) && Qltb 0 sum in
    let excellentWidth' :=
      if normalise then (excellentWidth / sum) * 100 else excellentWidth in
    let targetWidth' :=
      if normalise then (targetWidth / sum) * 100 else targetWidth in
    let improvementWidth' :=
      if normalise then (improvementWidth / sum) * 100
      else improvementWidth in
    Some
      {| userPosition := userPosition;
         userSection := userSection;
         sectionWidths :=
           if lower
           then {| excellent := excellentWidth';
                   target_range_zone := targetWidth';
                   needs_improvement := improvementWidth' |}
           else {| needs_improvement := excellentWidth';
                   target_range_zone := targetWidth';
                   excellent := improvementWidth' |};
         scalePoints :=
           map (fun p => clamp01 ((p - minScale) / totalRange) * 100)
             [minScale; low targetRange; high targetRange; maxScale] |}.

(** ** Scenario builder: the three event handlers *)

(** The elements of the builder an event can come from; every element
    without one of the nine ids is [other_element]. *)
Inductive ElementId : Type :=
| sb_budget | sb_cpc | sb_cr
| sb_budget_n | sb_cpc_n | sb_cr_n
| sb_snap_cr | sb_snap_cpc | sb_reset
| other_element.

Inductive Event : Type :=
| oninput (id : ElementId) (value : string)
| onchange (id : ElementId) (value : string)
| onclick (id : ElementId).

(** The [keyMap] of [el.oninput]: the sliders. *)
Definition sliderKey (id : ElementId) : option ScenarioBuilder.Key :=
  match id with
  | sb_budget => Some ScenarioBuilder.key_budget
  | sb_cpc => Some ScenarioBuilder.key_cpc
  | sb_cr => Some ScenarioBuilder.key_cr
  | _ => None
  end.

(** The [keyMap] of [el.onchange]: the numeric fields. *)
Definition numericKey (id : ElementId) : option ScenarioBuilder.Key :=
  match id with
  | sb_budget_n => Some ScenarioBuilder.key_budget
  | sb_cpc_n => Some ScenarioBuilder.key_cpc
  | sb_cr_n => Some ScenarioBuilder.key_cr
  | _ => None
  end.

(** One event on the builder, as a transition of [state]; [current] is
    the copy of the initial state and [goal] is [d.input?.goal_cpl]. *)
Definition handleEvent {R : Rounding}
    (parseFloat : string -> ScenarioBuilder.Parsed)
    (bounds : ScenarioBuilder.Bounds) (goal : option Q)
    (current state : ScenarioBuilder.State) (e : Event)
    : ScenarioBuilder.State :=
  match e with
  | oninput id value =>
      match sliderKey id with
      | Some key =>
          ScenarioBuilder.updateState parseFloat bounds state key value false
      | None => state
      end
  | onchange id value =>
      match numericKey id with
      | Some key =>
          ScenarioBuilder.updateState parseFloat bounds state key value true
      | None => state
      end
  | onclick id =>
      let state1 := match id with sb_reset => current | _ => state end in
      let state2 :=
        match id with
        | sb_snap_cr => ScenarioBuilder.snap_cr bounds goal state1
        | _ => state1
        end in
      match id with
      | sb_snap_cpc => ScenarioBuilder.snap_cpc bounds goal state2
      | _ => state2
      end
  end.

(** A sequence of events, oldest first. *)
Definition handleEvents {R : Rounding}
    (parseFloat : string -> ScenarioBuilder.Parsed)
    (bounds : ScenarioBuilder.Bounds) (goal : option Q)
    (current state : ScenarioBuilder.State) (events : list Event)
    : ScenarioBuilder.State :=
  fold_left (handleEvent parseFloat bounds goal current) events state.

(** Every field of the state lies within its two bounds. *)
Definition withinBounds (bounds : ScenarioBuilder.Bounds)
    (state : ScenarioBuilder.State) : Prop :=
  forall key : ScenarioBuilder.Key,
    ScenarioBuilder.keyMin bounds key <= ScenarioBuilder.get state key
    /\ ScenarioBuilder.get state key <= ScenarioBuilder.keyMax bounds key.

(** A bar that starts at 0 or above and ends at [m] or below. *)
Definition bar_within (m : Q) (s : Waterfall.Step) : Prop :=
  0 <= Waterfall.left s /\ 0 <= Waterfall.width s
  /\ Waterfall.left s + Waterfall.width s <= m.

(** The sum of the contributions of a list of drivers, a missing one
    counting as 0 as in the loop. *)
Definition contributions (ds : list Waterfall.Driver) : Q :=
  fold_right (fun d acc => or_num (Waterfall.pp d) 0 + acc) 0 ds.

(** An integer of magnitude at most 2^52. *)
Definition whole (q : Q) : Prop :=
  exists z : Z, q == inject_Z z /\ (Z.abs z <= 4503599627370496)%Z.

(** A configuration all of whose numbers are such integers, a missing
    one counting as the default the code takes for it. *)
Definition wholeConfig (cfg : Waterfall.Config) : Prop :=
  whole (Waterfall.total_pct cfg ?? 0)
  /\ whole (or_num (Waterfall.baseline_pp cfg) 0)
  /\ whole (Waterfall.cap_to cfg ?? 100)
  /\ Forall (fun d => whole (or_num (Waterfall.pp d) 0))
       (Waterfall.drivers cfg ?? []).

(** ** Churn waterfall: the configuration built from an account *)

(** Lower case of an ASCII letter; every other byte is left alone. *)
Definition asciiLower (c : ascii) : ascii :=
  let n := nat_of_ascii c in
  if (65 <=? n)%nat && (n <=? 90)%nat then ascii_of_nat (n + 32) else c.

(** [pat] is a prefix of [s], ASCII letters compared without case. *)
Fixpoint prefixNoCase (pat s : string) : bool :=
  match pat, s with
  | EmptyString, _ => true
  | String _ _, EmptyString => false
  | String a pat', String b s' =>
      Ascii.eqb (asciiLower a) (asciiLower b) && prefixNoCase pat' s'
  end.

(** [pat] occurs in [s], ASCII letters compared without case: the test of
    a literal under the [i] flag. *)
Fixpoint containsNoCase (pat s : string) : bool :=
  prefixNoCase pat s
  || match s with
     | EmptyString => false
     | String _ s' => containsNoCase pat s'
     end.

(** [/CPL|Leads|deficit|Underpacing/i.test(name)]. *)
Definition controllableName (name : string) : bool :=
  containsNoCase "CPL" name || containsNoCase "Leads" name
  || containsNoCase "deficit" name || containsNoCase "Underpacing" name.

Definition explanations : list (string * string) :=
  [("High CPL (≥3× goal)",
    "3× goal historically elevates churn vs cohort.");
   ("New Account (≤1m)",
    "First 30 days show elevated hazard vs matured accounts.");
   ("Single Product", "Fewer anchors → higher volatility.");
   ("Off-pacing", "Under/over-spend drives instability and lead gaps.");
   ("Below expected leads", "Lead scarcity increases cancel probability.");
   ("Zero Leads (30d)",
    "Extended periods without leads indicate conversion issues.");
   ("CPL above goal",
    "Cost per lead exceeding target reduces campaign viability.");
   ("Zero Leads (early)",
    "Early zero-lead streak is an emerging conversion issue.");
   ("Severe lead deficit (≤25% plan)",
    "Very low leads relative to plan despite adequate spend.");
   ("Lead deficit (≤50% plan)", "Leads significantly behind plan.");
   ("Underpacing",
    "Low utilization creates delivery instability and fewer leads.");
   ("Good volume / CPL (protective)",
    "Healthy throughput or efficiency reduces churn likelihood.");
   ("New & performing (protective)",
    "Early-tenure but meeting plan; historically safer.")]%string.

(** [getDriverExplanation(driverName)]. *)
Definition getDriverExplanation (driverName : string) : Member string :=
  match lookup explanations driverName with
  | Some (entry s) =>
      entry (or_string (Some s) "Risk factor affecting churn probability.")
  | Some (prototype_member key) => prototype_member key
  | None => entry "Risk factor affecting churn probability."%string
  end.

Definition baseLifts {R : Rounding} : list (string * Q) :=
  [("High CPL (≥3× goal)"%string, fl 3.2);
   ("New Account (≤1m)"%string, fl 4.1);
   ("Single Product"%string, fl 1.3);
   ("Zero Leads (30d)"%string, fl 3.2);
   ("Underpacing"%string, fl 1.15);
   ("Lead deficit (≤50% plan)"%string, fl 1.6);
   ("Severe lead deficit (≤25% plan)"%string, fl 2.8);
   ("Good volume / CPL (protective)"%string, fl 0.70);
   ("New & performing (protective)"%string, 0.75)].

(** [estimateLiftRatio(driverName, impactPp)]; [None] is [null].  A
    member of [Object.prototype] is truthy: multiplied it gives NaN, and
    with a contribution of 0 it is returned itself. *)
Definition estimateLiftRatio {R : Rounding} (driverName : string)
    (impactPp : Q) : option Lift :=
  let baseLift := lookup baseLifts driverName in
  match baseLift with
  | Some (entry b) =>
      if negb (Qeq_bool b 0) && negb (Qeq_bool impactPp 0) then
        let scaleFactor :=
          Qmin 2.0 (Qmax 0.5 (fl (Qabs impactPp / 20.0))) in
        Some (lift_number
                (fl (inject_Z (Math_round (fl (fl (b * scaleFactor) * 10)))
                     / 10)))
      else if Qeq_bool b 0 then None else Some (lift_number b)
  | Some (prototype_member key) =>
      if negb (Qeq_bool impactPp 0) then Some lift_NaN
      else Some (lift_member key)
  | None => None
  end.

(** One entry of [drivers.drivers] in the risk-driver payload. *)
Record RiskDriver : Type := mkRiskDriver {
  name : option string;
  points : option Q;
  impact : option Q
}.

(** The risk-driver payload, parsed. *)
Record RiskDrivers : Type := mkRiskDrivers {
  rd_baseline : option Q;
  rd_drivers : option (list RiskDriver)
}.

(** The fields of an account the waterfall reads; [risk_drivers_json] is
    [None] when it is missing or is text that does not parse. *)
Record Account : Type := mkAccount {
  churn_prob_90d : option Q;
  risk_drivers_json : option RiskDrivers
}.

(** The function mapped over [drivers.drivers]. *)
Definition buildDriver {R : Rounding} (d : RiskDriver) : Waterfall.Driver :=
  let rawPoints :=
    if truthy (points d) then points d ?? 0 else or_num (impact d) 0 in
  let impact := inject_Z (Math_round rawPoints) in
  let name := or_string (name d) "Risk Factor" in
  let type :=
    if Qltb impact 0 then "protective"%string
    else if controllableName name then "controllable"%string
    else "structural"%string in
  {| Waterfall.label := Some name;
     Waterfall.pp := Some impact;
     Waterfall.type := Some type;
     Waterfall.why := Some (getDriverExplanation name);
     Waterfall.lift_x := estimateLiftRatio name impact |}.

(** [buildWaterfallFromAccount(account)] for a present account; [None] is
    the [null] returned when there is nothing to draw. *)
Definition buildWaterfallFromAccount {R : Rounding} (account : Account)
    : option Waterfall.Config :=
  match risk_drivers_json account with
  | None => None
  | Some drivers =>
      if negb (truthy (rd_baseline drivers)) then None
      else
        let totalPct :=
          match churn_prob_90d account with
          | Some churnProb =>
              if Qeq_bool churnProb 0 then 0
              else fl (inject_Z
                         (Math_round (fl (fl (churnProb * 100) * 10)))
                       / 10)
          | None => 0
          end in
        Some
          {| Waterfall.total_pct := Some totalPct;
             Waterfall.baseline_pp :=
               Some (Qmax 0
                       (Qmin 100
                          (inject_Z (Math_round (rd_baseline drivers ?? 0)))));
             Waterfall.drivers :=
               Some (match rd_drivers drivers with
                     | Some l => map buildDriver l
                     | None => []
                     end);
             Waterfall.cap_to := Some 100;
             Waterfall.reconcile := None |}
  end.

(** [renderWaterfallForCid] once the account is found: the chart, or the
    fallback message ([None]). *)
Definition renderWaterfallForAccount {R : Rounding} (account : Account)
    : option Waterfall.Chart :=
  option_map Waterfall.renderChurnWaterfall
    (buildWaterfallFromAccount account).

(** ** Score page: escaping *)

(** The four characters besides the ampersand that [escapeHTML]
    replaces. *)
Definition lt_char : ascii := "<"%char.
Definition gt_char : ascii := ">"%char.
Definition dquote_char : ascii := "034"%char.
Definition squote_char : ascii := "'"%char.
Definition amp_char : ascii := "&"%char.

(** The replacement of one character: the entity of the table, or the
    character itself when the class does not match it. *)
Definition escapeChar (c : ascii) : string :=
  if Ascii.eqb c amp_char then "&amp;"
  else if Ascii.eqb c lt_char then "&lt;"
  else if Ascii.eqb c gt_char then "&gt;"
  else if Ascii.eqb c dquote_char then "&quot;"
  else if Ascii.eqb c squote_char then "&#39;"
  else String c EmptyString.

(** [escapeHTML(s)]: every match of the class replaced, left to right. *)
Fixpoint escapeHTML (s : string) : string :=
  match s with
  | EmptyString => EmptyString
  | String c rest => (escapeChar c ++ escapeHTML rest)%string
  end.

(** The characters of the class. *)
Definition special (c : ascii) : bool :=
  Ascii.eqb c amp_char || Ascii.eqb c lt_char || Ascii.eqb c gt_char
  || Ascii.eqb c dquote_char || Ascii.eqb c squote_char.

(** * Properties *)

(** Where a statement does not take a rounding as a parameter, it is
    about exact arithmetic. *)
#[local] Existing Instance no_rounding.

(** Exact arithmetic has the laws of a rounding to the nearest double. *)
Lemma no_rounding_Binary64 : Binary64 no_rounding.
Proof.
  split; unfold fl, no_rounding.
  - intros x y H. exact H.
  - intros x. setoid_replace (x - x) with 0 by ring.
    change (Qabs 0) with 0.
    pose proof (Qabs_nonneg x) as H.
    assert (H1 : 0 <= rel_error) by (unfold rel_error; lra).
    assert (H2 : 0 <= abs_error) by (unfold abs_error; lra).
    pose proof (Qmult_le_0_compat _ _ H1 H). lra.
  - intros z _. reflexivity.
Qed.

(** Replaces the rounding of exact arithmetic by nothing. *)
Ltac exact_arithmetic := unfold fl, no_rounding in *.

(** ** Rounding to the nearest double *)

(** The nearest integer is the floor or the integer after it. *)
Lemma round_half_even_cases (y : Q) :
  round_half_even y = Qfloor y \/ round_half_even y = (Qfloor y + 1)%Z.
Proof.
  unfold round_half_even.
  destruct (Qcompare _ _); [ destruct (Z.even _) | | ]; auto.
Qed.

(** It is within a half of the number. *)
Lemma round_half_even_near (y : Q) :
  Qabs (inject_Z (round_half_even y) - y) <= 1 # 2.
Proof.
  unfold round_half_even.
  pose proof (Qfloor_le y) as Hl. pose proof (Qlt_floor y) as Hu.
  rewrite inject_Z_plus in Hu. change (inject_Z 1) with 1 in Hu.
  destruct (Qcompare_spec (y - inject_Z (Qfloor y)) (1 # 2)) as [E | L | G];
    [ destruct (Z.even _) | | ];
    rewrite ?inject_Z_plus; change (inject_Z 1) with 1;
    apply Qabs_Qle_condition; split; lra.
Qed.

(** It keeps the order. *)
Lemma round_half_even_monotone (y1 y2 : Q) :
  y1 <= y2 -> (round_half_even y1 <= round_half_even y2)%Z.
Proof.
  intros Hle.
  pose proof (Qfloor_resp_le _ _ Hle) as Hf.
  destruct (Z.eq_dec (Qfloor y1) (Qfloor y2)) as [E | N].
  - unfold round_half_even. rewrite E.
    destruct (Qcompare_spec (y1 - inject_Z (Qfloor y2)) (1 # 2));
      destruct (Qcompare_spec (y2 - inject_Z (Qfloor y2)) (1 # 2));
      try (destruct (Z.even _)); try lia; exfalso; lra.
  - destruct (round_half_even_cases y1) as [-> | ->];
      destruct (round_half_even_cases y2) as [-> | ->]; lia.
Qed.

(** It leaves an integer alone. *)
Lemma round_half_even_integer (y : Q) (z : Z) :
  y == inject_Z z -> round_half_even y = z.
Proof.
  intros E.
  assert (H : round_half_even (inject_Z z) = z).
  { unfold round_half_even. rewrite Qfloor_Z.
    destruct (Qcompare_spec (inject_Z z - inject_Z z) (1 # 2));
      [ exfalso; lra | reflexivity | exfalso; lra ]. }
  assert (H1 : y <= inject_Z z) by (rewrite E; apply Qle_refl).
  assert (H2 : inject_Z z <= y) by (rewrite E; apply Qle_refl).
  apply round_half_even_monotone in H1, H2. rewrite H in H1, H2. lia.
Qed.

(** Powers of two. *)
Lemma two_power_pos (e : Z) : 0 < 2 ^ e.
Proof. apply Qpower_0_lt. reflexivity. Qed.

Lemma two_power_plus (a b : Z) : 2 ^ (a + b) == 2 ^ a * 2 ^ b.
Proof. apply Qpower_plus. discriminate. Qed.

Lemma two_power_succ (a : Z) : 2 ^ (a + 1) == 2 * 2 ^ a.
Proof. rewrite two_power_plus. change (2 ^ 1) with 2. ring. Qed.

(** A power of two is a multiple of every smaller one. *)
Lemma two_power_whole (a b : Z) :
  (b <= a)%Z -> 2 ^ a == inject_Z (2 ^ (a - b)) * 2 ^ b.
Proof.
  intros H. rewrite Zpower_Qpower by lia. change (inject_Z 2) with 2.
  rewrite <- two_power_plus. replace (a - b + b)%Z with a by lia.
  reflexivity.
Qed.

(** [Z.log2] brackets a positive integer between two powers of two. *)
Lemma two_power_log2 (n : Z) :
  (0 < n)%Z -> 2 ^ Z.log2 n <= inject_Z n < 2 ^ (Z.log2 n + 1).
Proof.
  intros H. destruct (Z.log2_spec n H) as [Hl Hu].
  pose proof (Z.log2_nonneg n) as H0.
  split.
  - change 2 with (inject_Z 2). rewrite <- Zpower_Qpower by lia.
    rewrite <- Zle_Qle. exact Hl.
  - change 2 with (inject_Z 2). rewrite <- Zpower_Qpower by lia.
    rewrite <- Zlt_Qlt. exact Hu.
Qed.

(** The difference of the logarithms of numerator and denominator is
    the binary exponent, or one above it. *)
Lemma binary_exponent_estimate (x : Q) :
  ~ x == 0 ->
  let k := (Z.log2 (Z.abs (Qnum x)) - Z.log2 (Zpos (Qden x)))%Z in
  2 ^ k < 2 * Qabs x /\ Qabs x < 2 * 2 ^ k.
Proof.
  intros Hx.
  set (n := Z.abs (Qnum x)). set (d := Z.pos (Qden x)).
  assert (Hn : (0 < n)%Z).
  { subst n. destruct x as [[| p | p] q]; cbn; try lia.
    exfalso. apply Hx. reflexivity. }
  assert (Hd : (0 < d)%Z) by (subst d; lia).
  assert (EX : Qabs x * inject_Z d == inject_Z n).
  { subst n d. destruct x as [a q]. cbn [Qabs Qnum Qden].
    rewrite (Qmake_Qdiv (Z.abs a) q). field.
    change 0 with (inject_Z 0). rewrite inject_Z_injective. lia. }
  destruct (two_power_log2 n Hn) as [Hn1 Hn2].
  destruct (two_power_log2 d Hd) as [Hd1 Hd2].
  set (a := Z.log2 n) in *. set (b := Z.log2 d) in *.
  rewrite two_power_succ in Hn2, Hd2.
  pose proof (two_power_pos a) as Pa. pose proof (two_power_pos b) as Pb.
  assert (X0 : 0 < Qabs x).
  { pose proof (Qabs_nonneg x) as H. apply Qle_lteq in H.
    destruct H as [H | H]; [ exact H | ].
    exfalso. rewrite <- H in EX. rewrite Qmult_0_l in EX.
    revert EX. change 0 with (inject_Z 0). rewrite inject_Z_injective. lia. }
  assert (Ek : 2 ^ (a - b) * 2 ^ b == 2 ^ a).
  { rewrite <- two_power_plus. replace (a - b + b)%Z with a by lia.
    reflexivity. }
  pose proof (two_power_pos (a - b)) as Pk.
  intros k. subst k.
  set (pa := 2 ^ a) in *. set (pb := 2 ^ b) in *.
  set (pk := 2 ^ (a - b)) in *.
  set (qn := inject_Z n) in *. set (qd := inject_Z d) in *.
  clearbody pa pb pk qn qd.
  split.
  - apply Qnot_le_lt. intros Hc.
    assert (Qabs x * qd < Qabs x * (2 * pb)).
    { apply Qmult_lt_l; [ exact X0 | lra ]. }
    assert (2 * Qabs x * pb <= pk * pb).
    { apply Qmult_le_compat_r; [ exact Hc | lra ]. }
    rewrite Ek in H0. rewrite EX in H.
    assert (Qabs x * (2 * pb) == 2 * Qabs x * pb) by ring.
    rewrite H1 in H. lra.
  - apply Qnot_le_lt. intros Hc.
    assert (2 * pk * pb <= Qabs x * qd).
    { apply Qle_trans with (Qabs x * pb).
      - apply Qmult_le_compat_r; [ exact Hc | lra ].
      - apply Qmult_le_l; [ exact X0 | exact Hd1 ]. }
    rewrite <- Qmult_assoc, Ek, EX in H. lra.
Qed.

(** The binary exponent [e] of a number [x] other than 0 is the one with
    2^e <= |x| < 2^(e+1). *)
Lemma binary_exponent_spec (x : Q) :
  ~ x == 0 ->
  2 ^ binary_exponent x <= Qabs x < 2 ^ (binary_exponent x + 1).
Proof.
  intros Hx. destruct (binary_exponent_estimate x Hx) as [Hlow Hup].
  unfold binary_exponent.
  set (k := (Z.log2 (Z.abs (Qnum x)) - Z.log2 (Zpos (Qden x)))%Z) in *.
  destruct (Qle_bool (2 ^ k) (Qabs x)) eqn:T.
  - apply Qle_bool_iff in T. rewrite two_power_succ. split; assumption.
  - assert (T' : Qabs x < 2 ^ k).
    { apply Qnot_le_lt. intros Hc. apply Qle_bool_iff in Hc. congruence. }
    replace (k - 1 + 1)%Z with k by lia.
    split; [ | exact T' ].
    assert (E1 : 2 ^ k == 2 * 2 ^ (k - 1)).
    { rewrite <- two_power_succ. replace (k - 1 + 1)%Z with k by lia.
      reflexivity. }
    rewrite E1 in Hlow.
    set (p := 2 ^ (k - 1)) in *. clearbody p. lra.
Qed.

Lemma two_power_whole_opp (a b : Z) :
  (b <= a)%Z -> - 2 ^ a == inject_Z (- 2 ^ (a - b)) * 2 ^ b.
Proof.
  intros H. rewrite inject_Z_opp, (two_power_whole a b H). ring.
Qed.

(** Rounding to a multiple of 2^e. *)
Lemma scaled_monotone (e : Z) (x y : Q) :
  x <= y ->
  inject_Z (round_half_even (x / 2 ^ e)) * 2 ^ e
  <= inject_Z (round_half_even (y / 2 ^ e)) * 2 ^ e.
Proof.
  intros H. pose proof (two_power_pos e) as P.
  apply Qmult_le_compat_r; [ | apply Qlt_le_weak; exact P ].
  rewrite <- Zle_Qle. apply round_half_even_monotone.
  apply Qmult_le_compat_r; [ exact H | ].
  apply Qlt_le_weak, Qinv_lt_0_compat. exact P.
Qed.

(** A multiple of 2^e is left alone. *)
Lemma scaled_whole (e m : Z) (x : Q) :
  x == inject_Z m * 2 ^ e ->
  inject_Z (round_half_even (x / 2 ^ e)) * 2 ^ e == x.
Proof.
  intros E. pose proof (two_power_pos e) as P.
  rewrite (round_half_even_integer (x / 2 ^ e) m).
  - symmetry. exact E.
  - rewrite E. field. intros H. rewrite H in P. discriminate.
Qed.

(** The result is within half of 2^e. *)
Lemma scaled_near (e : Z) (x : Q) :
  Qabs (inject_Z (round_half_even (x / 2 ^ e)) * 2 ^ e - x)
  <= (1 # 2) * 2 ^ e.
Proof.
  pose proof (two_power_pos e) as P.
  pose proof (round_half_even_near (x / 2 ^ e)) as H.
  set (r := inject_Z (round_half_even (x / 2 ^ e))) in *.
  assert (E : r * 2 ^ e - x == (r - x / 2 ^ e) * 2 ^ e).
  { field. intros H0. rewrite H0 in P. discriminate. }
  rewrite E, Qabs_Qmult, (Qabs_pos (2 ^ e)) by (apply Qlt_le_weak; exact P).
  apply Qmult_le_compat_r; [ exact H | apply Qlt_le_weak; exact P ].
Qed.

(** The rounding of a number other than 0: to a multiple of 2^e, for
    [e] 52 below the binary exponent and not below -1074. *)
Lemma binary64_unfold (x : Q) :
  ~ x == 0 ->
  binary64 x
  = inject_Z
      (round_half_even
         (x / 2 ^ Z.max (-1074) (binary_exponent x - 52)))
    * 2 ^ Z.max (-1074) (binary_exponent x - 52).
Proof.
  intros H. unfold binary64.
  destruct (Qeq_bool x 0) eqn:E; [ | reflexivity ].
  apply Qeq_bool_iff in E. contradiction.
Qed.

Lemma binary64_zero (x : Q) : x == 0 -> binary64 x = 0.
Proof.
  intros H. unfold binary64. apply Qeq_bool_iff in H. rewrite H.
  reflexivity.
Qed.

Lemma binary64_nonneg (y : Q) : 0 <= y -> 0 <= binary64 y.
Proof.
  intros H. destruct (Qeq_dec y 0) as [E | N].
  - rewrite (binary64_zero y E). apply Qle_refl.
  - rewrite (binary64_unfold y N).
    set (e := Z.max (-1074) (binary_exponent y - 52)).
    apply Qle_trans with (inject_Z (round_half_even (0 / 2 ^ e)) * 2 ^ e).
    + apply Qle_lteq. right. symmetry.
      apply (scaled_whole e 0 0). ring.
    + apply scaled_monotone. exact H.
Qed.

Lemma binary64_nonpos (x : Q) : x <= 0 -> binary64 x <= 0.
Proof.
  intros H. destruct (Qeq_dec x 0) as [E | N].
  - rewrite (binary64_zero x E). apply Qle_refl.
  - rewrite (binary64_unfold x N).
    set (e := Z.max (-1074) (binary_exponent x - 52)).
    apply Qle_trans with (inject_Z (round_half_even (0 / 2 ^ e)) * 2 ^ e).
    + apply scaled_monotone. exact H.
    + apply Qle_lteq. right. apply (scaled_whole e 0 0). ring.
Qed.

(** Rounding to the nearest double keeps the order: with the same
    exponent because rounding to a multiple does, and across exponents
    because the power of two between the two numbers is a double. *)
Lemma binary64_monotone (x y : Q) : x <= y -> binary64 x <= binary64 y.
Proof.
  intros Hxy.
  destruct (Qlt_le_dec 0 x) as [Hx | Hx];
    [ | destruct (Qlt_le_dec y 0) as [Hy | Hy] ].
  - (* 0 < x <= y *)
    assert (Hx0 : ~ x == 0) by lra. assert (Hy0 : ~ y == 0) by lra.
    rewrite (binary64_unfold x Hx0), (binary64_unfold y Hy0).
    destruct (binary_exponent_spec x Hx0) as [Lx Ux].
    destruct (binary_exponent_spec y Hy0) as [Ly Uy].
    rewrite Qabs_pos in Lx, Ux, Ly, Uy by lra.
    set (Ex := binary_exponent x) in *. set (Ey := binary_exponent y) in *.
    assert (HE : (Ex <= Ey)%Z).
    { assert (H : 2 ^ Ex < 2 ^ (Ey + 1)).
      { eapply Qle_lt_trans; [ exact Lx | ].
        eapply Qle_lt_trans; [ exact Hxy | exact Uy ]. }
      apply Qpower_lt_compat_l_inv in H; [ lia | reflexivity ]. }
    destruct (Z.eq_dec (Z.max (-1074) (Ex - 52)) (Z.max (-1074) (Ey - 52)))
      as [E | N].
    + rewrite E. apply scaled_monotone. exact Hxy.
    + set (ex := Z.max (-1074) (Ex - 52)) in *.
      set (ey := Z.max (-1074) (Ey - 52)) in *.
      assert (Hx1 : x <= 2 ^ Ey).
      { apply Qlt_le_weak. eapply Qlt_le_trans; [ exact Ux | ].
        apply Qpower_le_compat_l; [ lia | discriminate ]. }
      apply Qle_trans with (2 ^ Ey).
      * apply Qle_trans
          with (inject_Z (round_half_even (2 ^ Ey / 2 ^ ex)) * 2 ^ ex).
        -- apply scaled_monotone. exact Hx1.
        -- apply Qle_lteq. right.
           apply (scaled_whole ex (2 ^ (Ey - ex))).
           apply two_power_whole. lia.
      * apply Qle_trans
          with (inject_Z (round_half_even (2 ^ Ey / 2 ^ ey)) * 2 ^ ey).
        -- apply Qle_lteq. right. symmetry.
           apply (scaled_whole ey (2 ^ (Ey - ey))).
           apply two_power_whole. lia.
        -- apply scaled_monotone. exact Ly.
  - (* x <= y < 0 *)
    assert (Hx0 : ~ x == 0) by lra. assert (Hy0 : ~ y == 0) by lra.
    rewrite (binary64_unfold x Hx0), (binary64_unfold y Hy0).
    destruct (binary_exponent_spec x Hx0) as [Lx Ux].
    destruct (binary_exponent_spec y Hy0) as [Ly Uy].
    rewrite Qabs_neg in Lx, Ux, Ly, Uy by lra.
    set (Ex := binary_exponent x) in *. set (Ey := binary_exponent y) in *.
    assert (HE : (Ey <= Ex)%Z).
    { assert (H : 2 ^ Ey < 2 ^ (Ex + 1)).
      { eapply Qle_lt_trans; [ exact Ly | ].
        eapply Qle_lt_trans; [ | exact Ux ]. lra. }
      apply Qpower_lt_compat_l_inv in H; [ lia | reflexivity ]. }
    destruct (Z.eq_dec (Z.max (-1074) (Ex - 52)) (Z.max (-1074) (Ey - 52)))
      as [E | N].
    + rewrite E. apply scaled_monotone. exact Hxy.
    + set (ex := Z.max (-1074) (Ex - 52)) in *.
      set (ey := Z.max (-1074) (Ey - 52)) in *.
      assert (Hy1 : - 2 ^ Ex <= y).
      { assert (H : 2 ^ (Ey + 1) <= 2 ^ Ex).
        { apply Qpower_le_compat_l; [ lia | discriminate ]. }
        set (p := 2 ^ Ex) in *. set (q := 2 ^ (Ey + 1)) in *.
        clearbody p q. lra. }
      assert (Hx1 : x <= - 2 ^ Ex).
      { set (p := 2 ^ Ex) in *. clearbody p. lra. }
      apply Qle_trans with (- 2 ^ Ex).
      * apply Qle_trans
          with (inject_Z (round_half_even (- 2 ^ Ex / 2 ^ ex)) * 2 ^ ex).
        -- apply scaled_monotone. exact Hx1.
        -- apply Qle_lteq. right.
           apply (scaled_whole ex (- 2 ^ (Ex - ex))).
           apply two_power_whole_opp. lia.
      * apply Qle_trans
          with (inject_Z (round_half_even (- 2 ^ Ex / 2 ^ ey)) * 2 ^ ey).
        -- apply Qle_lteq. right. symmetry.
           apply (scaled_whole ey (- 2 ^ (Ex - ey))).
           apply two_power_whole_opp. lia.
        -- apply scaled_monotone. exact Hy1.
  - apply Qle_trans with 0;
      [ apply binary64_nonpos; exact Hx | apply binary64_nonneg; exact Hy ].
Qed.

(** The error is at most half the last place: 2^-53 relative to the
    number, or 2^-1075 for a subnormal result. *)
Lemma binary64_error (x : Q) :
  Qabs (binary64 x - x) <= rel_error * Qabs x + abs_error.
Proof.
  pose proof (Qabs_nonneg x) as X0.
  destruct (Qeq_dec x 0) as [E | N].
  - rewrite (binary64_zero x E).
    assert (H : Qabs (0 - x) == 0) by (rewrite E; reflexivity).
    rewrite H. unfold rel_error, abs_error.
    set (a := Qabs x) in *. clearbody a. lra.
  - rewrite (binary64_unfold x N).
    eapply Qle_trans; [ apply scaled_near | ].
    destruct (binary_exponent_spec x N) as [L _].
    set (E := binary_exponent x) in *.
    destruct (Z.max_spec (-1074) (E - 52)) as [[H ->] | [H ->]].
    + replace (E - 52)%Z with (E + -52)%Z by lia.
      rewrite two_power_plus.
      assert (C : 2 ^ (-52) == 1 # 4503599627370496) by reflexivity.
      rewrite C. unfold rel_error, abs_error.
      set (p := 2 ^ E) in *. set (a := Qabs x) in *. clearbody p a. lra.
    + assert (C : (1 # 2) * 2 ^ (-1074) <= abs_error).
      { apply Qle_bool_iff. vm_compute. reflexivity. }
      unfold rel_error in *.
      set (p := (1 # 2) * 2 ^ (-1074)) in *.
      set (a := Qabs x) in *. clearbody p a. lra.
Qed.

(** The integers up to 2^53 are doubles. *)
Lemma binary64_integer (z : Z) :
  (Z.abs z <= 9007199254740992)%Z -> binary64 (inject_Z z) == inject_Z z.
Proof.
  intros Hz.
  destruct (Z.eq_dec z 0) as [-> | N]; [ reflexivity | ].
  assert (Hx : ~ inject_Z z == 0).
  { change 0 with (inject_Z 0). rewrite inject_Z_injective. exact N. }
  destruct (binary_exponent_spec _ Hx) as [L U].
  change (Qabs (inject_Z z)) with (inject_Z (Z.abs z)) in L, U.
  set (E := binary_exponent (inject_Z z)) in *.
  assert (H0 : (0 <= E)%Z).
  { assert (H : 2 ^ 0 < 2 ^ (E + 1)).
    { eapply Qle_lt_trans; [ | exact U ].
      change (2 ^ 0) with (inject_Z 1). rewrite <- Zle_Qle. lia. }
    apply (Qpower_lt_compat_l_inv 2 0 (E + 1)) in H; [ lia | reflexivity ]. }
  assert (H53 : (E <= 53)%Z).
  { assert (H : 2 ^ E <= 2 ^ 53).
    { eapply Qle_trans; [ exact L | ].
      change (2 ^ 53) with (inject_Z 9007199254740992).
      rewrite <- Zle_Qle. exact Hz. }
    apply (Qpower_le_compat_l_inv 2 E 53) in H;
      [ exact H | reflexivity ]. }
  destruct (Z.eq_dec E 53) as [E53 | NE].
  - rewrite E53 in L.
    change (2 ^ 53) with (inject_Z 9007199254740992) in L.
    rewrite <- Zle_Qle in L.
    assert (Hc : z = 9007199254740992%Z \/ z = (-9007199254740992)%Z)
      by lia.
    destruct Hc as [-> | ->]; vm_compute; reflexivity.
  - rewrite (binary64_unfold _ Hx). fold E.
    replace (Z.max (-1074) (E - 52)) with (E - 52)%Z by lia.
    apply (scaled_whole (E - 52) (z * 2 ^ (52 - E))).
    rewrite inject_Z_mult, Zpower_Qpower by lia.
    change (inject_Z 2) with 2.
    rewrite <- Qmult_assoc, <- two_power_plus.
    replace (52 - E + (E - 52))%Z with 0%Z by lia.
    change (2 ^ 0) with 1. ring.
Qed.

(** Rounding to the nearest double has the laws of [Binary64]: every
    property below that assumes them holds for the arithmetic of the
    code. *)
Lemma binary64_Binary64 : Binary64 binary64.
Proof.
  constructor.
  - exact binary64_monotone.
  - exact binary64_error.
  - exact binary64_integer.
Qed.

(** ** Comparisons *)

Lemma Qltb_lt (a b : Q) : Qltb a b = true <-> a < b.
Proof.
  unfold Qltb. rewrite negb_true_iff, <- not_true_iff_false, Qle_bool_iff.
  split; intro H; [apply Qnot_le_lt | apply Qlt_not_le]; exact H.
Qed.

Lemma Qltb_ge (a b : Q) : Qltb a b = false <-> b <= a.
Proof.
  unfold Qltb. rewrite negb_false_iff. apply Qle_bool_iff.
Qed.

Lemma Qle_bool_gt (a b : Q) : Qle_bool a b = false <-> b < a.
Proof.
  rewrite <- not_true_iff_false, Qle_bool_iff.
  split; intro H; [apply Qnot_le_lt | apply Qlt_not_le]; exact H.
Qed.

Lemma Qeq_bool_false (a b : Q) : Qeq_bool a b = false <-> ~ a == b.
Proof.
  rewrite <- not_true_iff_false, Qeq_bool_iff. reflexivity.
Qed.

(** Turns every boolean comparison among the hypotheses into the order
    fact it decides. *)
Ltac order_facts :=
  repeat match goal with
  | H : Qltb _ _ = true |- _ => apply Qltb_lt in H
  | H : Qltb _ _ = false |- _ => apply Qltb_ge in H
  | H : Qle_bool _ _ = true |- _ => apply Qle_bool_iff in H
  | H : Qle_bool _ _ = false |- _ => apply Qle_bool_gt in H
  | H : Qeq_bool _ _ = true |- _ => apply Qeq_bool_iff in H
  | H : Qeq_bool _ _ = false |- _ => apply Qeq_bool_false in H
  end.

(** Replaces [Qmax] and [Qmin] by the operand they are equal to, one case
    at a time. *)
Ltac split_minmax :=
  repeat match goal with
  | |- context [Qmax ?a ?b] =>
      let E := fresh "E" in
      destruct (Q.max_spec a b) as [[? E] | [? E]];
      rewrite E in *; clear E
  | |- context [Qmin ?a ?b] =>
      let E := fresh "E" in
      destruct (Q.min_spec a b) as [[? E] | [? E]];
      rewrite E in *; clear E
  | H : context [Qmax ?a ?b] |- _ =>
      let E := fresh "E" in
      destruct (Q.max_spec a b) as [[? E] | [? E]];
      rewrite E in *; clear E
  | H : context [Qmin ?a ?b] |- _ =>
      let E := fresh "E" in
      destruct (Q.min_spec a b) as [[? E] | [? E]];
      rewrite E in *; clear E
  end.

(** ** VerdictClassifier *)

(** C1. [deriveVerdict] returns [unknown] whenever the value or either
    bound of the range is missing; with all three present it returns
    [on_target] whenever low <= value <= high; outside the range, for
    lower-is-better it returns [exceeds_target] exactly when value < low
    and [outside_target] otherwise, and for higher-is-better it returns
    [exceeds_target] exactly when value > high and [outside_target]
    otherwise. *)
Theorem deriveVerdict_classifies (value : option Q)
    (targetRange : option RawRange) (direction : string) :
  (value = None \/ targetRange ?. raw_low = None
     \/ targetRange ?. raw_high = None ->
   deriveVerdict value targetRange direction = unknown)
  /\
  (forall v lo hi : Q,
     value = Some v ->
     targetRange ?. raw_low = Some lo ->
     targetRange ?. raw_high = Some hi ->
     (lo <= v <= hi ->
      deriveVerdict value targetRange direction = on_target)
     /\
     (~ lo <= v <= hi -> direction = lower_is_better ->
      (deriveVerdict value targetRange direction = exceeds_target <-> v < lo)
      /\ (deriveVerdict value targetRange direction = outside_target
          <-> ~ v < lo))
     /\
     (~ lo <= v <= hi -> direction = higher_is_better ->
      (deriveVerdict value targetRange direction = exceeds_target <-> hi < v)
      /\ (deriveVerdict value targetRange direction = outside_target
          <-> ~ hi < v))).
Proof.
  split.
  - unfold deriveVerdict.
    intros [-> | [-> | ->]]; [reflexivity | | ].
    + destruct value; reflexivity.
    + destruct value; [destruct (targetRange ?. raw_low) |]; reflexivity.
  - intros v lo hi -> Hlo Hhi. unfold deriveVerdict. rewrite Hlo, Hhi.
    split; [ | split ].
    + intros [H1 H2].
      apply Qle_bool_iff in H1, H2. rewrite H1, H2. reflexivity.
    + intros Hout ->. simpl.
      destruct (Qle_bool lo v) eqn:H1; destruct (Qle_bool v hi) eqn:H2;
        destruct (Qltb v lo) eqn:H3; simpl; order_facts;
        (split; split; intro; try reflexivity; try discriminate; lra).
    + intros Hout ->. simpl.
      destruct (Qle_bool lo v) eqn:H1; destruct (Qle_bool v hi) eqn:H2;
        destruct (Qltb hi v) eqn:H3; simpl; order_facts;
        (split; split; intro; try reflexivity; try discriminate; lra).
Qed.

Lemma deriveVerdict_classifies_witness :
  deriveVerdict (Some 5) (Some (mkRawRange (Some 10) (Some 20)))
    lower_is_better = exceeds_target
  /\ deriveVerdict (Some 25) (Some (mkRawRange (Some 10) (Some 20)))
       higher_is_better = exceeds_target
  /\ deriveVerdict (Some 12) (Some (mkRawRange (Some 10) (Some 20)))
       lower_is_better = on_target
  /\ deriveVerdict (Some 12) (Some (mkRawRange (Some 10) None))
       lower_is_better = unknown.
Proof.
  pose (tr := Some (mkRawRange (Some 10) (Some 20))).
  split; [ | split; [ | split ] ].
  - destruct (deriveVerdict_classifies (Some 5) tr lower_is_better)
      as [_ H].
    destruct (H 5 10 20 eq_refl eq_refl eq_refl) as [_ [Hlow _]].
    apply Hlow; [ lra | reflexivity | lra ].
  - destruct (deriveVerdict_classifies (Some 25) tr higher_is_better)
      as [_ H].
    destruct (H 25 10 20 eq_refl eq_refl eq_refl) as [_ [_ Hhigh]].
    apply Hhigh; [ lra | reflexivity | lra ].
  - destruct (deriveVerdict_classifies (Some 12) tr lower_is_better)
      as [_ H].
    destruct (H 12 10 20 eq_refl eq_refl eq_refl) as [Hin _].
    apply Hin. lra.
  - destruct (deriveVerdict_classifies (Some 12)
                (Some (mkRawRange (Some 10) None)) lower_is_better)
      as [H _].
    apply H. right. right. reflexivity.
Defined.

(** ** RangeResolver *)

(** A precomputed range is handed back as it is, inverted or not; two
    negative percentiles and a negative centre both give a low bound of 0
    above a negative high bound. *)
Lemma ensureTargetRange_not_always_ordered :
  ~ low (ensureTargetRange
           (Some (mkMetricData (js_number 60) (Some 60) None None
                    (Some (mkRawRange (Some 10) (Some 5))) None None))
           "$" "CPL")
    <= high (ensureTargetRange
               (Some (mkMetricData (js_number 60) (Some 60) None None
                        (Some (mkRawRange (Some 10) (Some 5))) None None))
               "$" "CPL")
  /\
  ~ low (ensureTargetRange
           (Some (mkMetricData js_null None (Some (-2)) (Some (-1)) None
                    None None))
           "$" "CPL")
    <= high (ensureTargetRange
               (Some (mkMetricData js_null None (Some (-2)) (Some (-1)) None
                        None None))
               "$" "CPL")
  /\
  ~ low (ensureTargetRange
           (Some (mkMetricData js_null (Some (-10)) None None None None None))
           "$" "CPL")
    <= high (ensureTargetRange
               (Some (mkMetricData js_null (Some (-10)) None None None None
                        None))
               "$" "CPL").
Proof.
  repeat split; vm_compute; intro H; apply H; reflexivity.
Qed.

(** A rounding with the laws of [Binary64] leaves 0 alone and keeps what
    is not negative that way. *)
Lemma fl_zero {R : Rounding} : Binary64 R -> fl 0 == 0.
Proof.
  intros HR. exact (fl_integer R HR 0%Z ltac:(discriminate)).
Qed.

Lemma fl_nonneg {R : Rounding} (x : Q) : Binary64 R -> 0 <= x -> 0 <= fl x.
Proof.
  intros HR Hx. rewrite <- (fl_zero HR). apply (fl_monotone R HR). exact Hx.
Qed.

(** A rounded number is within the two error bounds of the exact one. *)
Lemma fl_near {R : Rounding} (x b : Q) :
  Binary64 R ->
  Qabs x <= b ->
  x - (rel_error * b + abs_error) <= fl x
  /\ fl x <= x + (rel_error * b + abs_error).
Proof.
  intros HR Hb. pose proof (fl_error R HR x) as H.
  apply Qabs_Qle_condition in H.
  assert (Hr : rel_error * Qabs x <= rel_error * b).
  { apply Qmult_le_l; [ reflexivity | exact Hb ]. }
  lra.
Qed.

Lemma fl_near_pos {R : Rounding} (x : Q) :
  Binary64 R ->
  0 <= x ->
  x - (rel_error * x + abs_error) <= fl x
  /\ fl x <= x + (rel_error * x + abs_error).
Proof.
  intros HR Hx. apply fl_near; [ exact HR | ].
  rewrite Qabs_pos by exact Hx. apply Qle_refl.
Qed.

(** The threshold of a suspicious conversion rate, as computed, is the
    exact one up to the tolerance. *)
Lemma suspicious_threshold_near {R : Rounding} (h : Q) :
  Binary64 R ->
  Qmax (fl (h * fl 1.8)) (fl 0.15) <= (1 + tolerance) * Qmax (h * 1.8) 0.15.
Proof.
  intros HR.
  destruct (fl_near_pos 1.8 HR ltac:(lra)) as [Hc1 Hc2].
  destruct (fl_near_pos 0.15 HR ltac:(lra)) as [_ Hf].
  pose proof (Q.le_max_l (h * 1.8) 0.15) as Ml.
  pose proof (Q.le_max_r (h * 1.8) 0.15) as Mr.
  set (M := Qmax (h * 1.8) 0.15) in *.
  set (c := fl 1.8) in *. set (f := fl 0.15) in *.
  apply Q.max_lub.
  - destruct (Qlt_le_dec h 0) as [Hneg | Hpos].
    + assert (Hp : h * c <= 0).
      { assert (H : 0 <= (- h) * c).
        { apply Qmult_le_0_compat; unfold rel_error, abs_error in *; lra. }
        lra. }
      apply (fl_monotone R HR) in Hp. rewrite (fl_zero HR) in Hp.
      clearbody M c f. unfold tolerance. lra.
    + assert (Hp0 : 0 <= h * c).
      { apply Qmult_le_0_compat;
          [ exact Hpos | unfold rel_error, abs_error in *; lra ]. }
      assert (Hp : h * c <= h * (1.8 + (rel_error * 1.8 + abs_error))).
      { destruct (Qle_lteq 0 h) as [Hh _]. destruct (Hh Hpos) as [Hlt | Heq].
        - apply Qmult_le_l; [ exact Hlt | exact Hc2 ].
        - rewrite <- Heq. lra. }
      destruct (fl_near_pos (h * c) HR Hp0) as [_ Hfl].
      set (p := h * c) in *. set (q := fl p) in *.
      clearbody M c f p q. unfold tolerance, rel_error, abs_error in *. lra.
  - clearbody M c f. unfold tolerance, rel_error, abs_error in *. lra.
Qed.

(** The centre of the band when neither the median nor the value is
    there is not negative. *)
Lemma default_centre_nonneg {R : Rounding} (unit metricName : string) :
  Binary64 R ->
  0 <= (if (unit =? "%")%string then fl 0.05
        else if (metricName =? "CPC")%string then 3 else 50).
Proof.
  intros HR. destruct (unit =? "%")%string;
    [ apply (fl_nonneg _ HR); lra
    | destruct (metricName =? "CPC")%string; lra ].
Qed.

(** The band around a centre that is not negative is in order, and its
    low bound is not negative. *)
Lemma band_ordered {R : Rounding} (m : Q) :
  Binary64 R ->
  0 <= m ->
  let span := Qmax (fl 0.00001) (fl (m * fl 0.15)) in
  0 <= Qmax 0 (fl (m - span)) <= fl (m + span).
Proof.
  intros HR Hm span.
  assert (Hspan : 0 <= span).
  { apply Qle_trans with (fl 0.00001); [ | apply Q.le_max_l ].
    apply (fl_nonneg _ HR). lra. }
  assert (Hhigh : 0 <= fl (m + span)) by (apply (fl_nonneg _ HR); lra).
  assert (Hmono : fl (m - span) <= fl (m + span))
    by (apply (fl_monotone R HR); lra).
  split; [ apply Q.le_max_l | ].
  apply Q.max_lub; assumption.
Qed.

(** C6, amended. [ensureTargetRange] has no error path: it returns a
    range for every sample.  Whether the range has low <= high depends on
    the branch that is taken, and on nothing the other branches read.  A
    precomputed [target_range] with both bounds is returned as it is, so
    the result is in order exactly when that range is.  Without one, when
    [p25] and [p75] are both present the result is in order exactly when
    they are not both negative.  Otherwise the range is the band around
    the centre (the median, else the value, else the default), and it is
    in order when the centre is not negative, for every rounding with the
    laws of [Binary64]. *)
Theorem ensureTargetRange_ordered {R : Rounding}
    (metricData : option MetricData) (unit metricName : string) :
  let range := ensureTargetRange metricData unit metricName in
  (forall l h : Q,
     metricData ?. target_range ?. raw_low = Some l ->
     metricData ?. target_range ?. raw_high = Some h ->
     low range = l /\ high range = h
     /\ (low range <= high range <-> l <= h))
  /\
  (metricData ?. target_range ?. raw_low = None
   \/ metricData ?. target_range ?. raw_high = None ->
   forall a b : Q,
     metricData ?. p25 = Some a ->
     metricData ?. p75 = Some b ->
     (low range <= high range <-> 0 <= a \/ 0 <= b))
  /\
  (metricData ?. target_range ?. raw_low = None
   \/ metricData ?. target_range ?. raw_high = None ->
   metricData ?. p25 = None \/ metricData ?. p75 = None ->
   Binary64 R ->
   (forall m : Q,
      nullish_opt (metricData ?. median) (metricData ?. value) = Some m ->
      0 <= m) ->
   low range <= high range).
Proof.
  cbv zeta. unfold ensureTargetRange. repeat apply conj.
  - intros l h -> ->. cbn [low high]. repeat split; trivial.
  - intros Hrange a b -> ->.
    assert (Hcase :
      match metricData ?. target_range ?. raw_low,
            metricData ?. target_range ?. raw_high with
      | Some l, Some h => False
      | _, _ => True
      end).
    { destruct Hrange as [-> | ->];
        [ | destruct (metricData ?. target_range ?. raw_low) ]; exact I. }
    destruct (metricData ?. target_range ?. raw_low);
      [ destruct (metricData ?. target_range ?. raw_high);
        [ contradiction | ] | ];
      cbn [low high];
      (split; [ intros H; destruct (Qlt_le_dec a 0); [ right | left; lra ];
                revert H; split_minmax; lra
              | intros [H | H]; split_minmax; lra ]).
  - intros Hrange Hpct HR Hcentre.
    assert (Hcase :
      match metricData ?. target_range ?. raw_low,
            metricData ?. target_range ?. raw_high with
      | Some l, Some h => False
      | _, _ => True
      end).
    { destruct Hrange as [-> | ->];
        [ | destruct (metricData ?. target_range ?. raw_low) ]; exact I. }
    assert (Hp :
      match metricData ?. p25, metricData ?. p75 with
      | Some _, Some _ => False
      | _, _ => True
      end).
    { destruct Hpct as [-> | ->];
        [ | destruct (metricData ?. p25) ]; exact I. }
    assert (Hm :
      0 <= nullish_opt (metricData ?. median) (metricData ?. value)
           ?? (if (unit =? "%")%string then fl 0.05
               else if (metricName =? "CPC")%string then 3 else 50)).
    { destruct (nullish_opt (metricData ?. median) (metricData ?. value))
        as [m |]; cbn [nullish];
        [ apply Hcentre; reflexivity
        | apply default_centre_nonneg; exact HR ]. }
    pose proof (band_ordered _ HR Hm) as Hband. cbv zeta in Hband.
    destruct (metricData ?. target_range ?. raw_low);
      [ destruct (metricData ?. target_range ?. raw_high);
        [ contradiction | ] | ];
      (destruct (metricData ?. p25);
       [ destruct (metricData ?. p75); [ contradiction | ] | ];
       cbn [low high]; apply Hband).
Qed.

Lemma ensureTargetRange_ordered_witness :
  low (ensureTargetRange (R := binary64)
         (Some (mkMetricData (js_number 60) (Some (-5)) (Some 45) (Some 90)
                  None None None)) "$" "CPL")
  <= high (ensureTargetRange (R := binary64)
             (Some (mkMetricData (js_number 60) (Some (-5)) (Some 45)
                      (Some 90) None None None)) "$" "CPL")
  /\
  low (ensureTargetRange (R := binary64)
         (Some (mkMetricData (js_number (binary64 0.04))
                  (Some (binary64 0.03)) None None None None None))
         "%" "CR")
  <= high (ensureTargetRange (R := binary64)
             (Some (mkMetricData (js_number (binary64 0.04))
                      (Some (binary64 0.03)) None None None None None))
             "%" "CR").
Proof.
  split.
  - refine (proj2 (proj1 (proj2
      (ensureTargetRange_ordered (R := binary64)
         (Some (mkMetricData (js_number 60) (Some (-5)) (Some 45) (Some 90)
                  None None None)) "$" "CPL")) _ 45 90 _ _) _).
    + left. reflexivity.
    + reflexivity.
    + reflexivity.
    + left. lra.
  - refine (proj2 (proj2
      (ensureTargetRange_ordered (R := binary64)
         (Some (mkMetricData (js_number (binary64 0.04))
                  (Some (binary64 0.03)) None None None None None))
         "%" "CR")) _ _ _ _).
    + left. reflexivity.
    + left. reflexivity.
    + exact binary64_Binary64.
    + intros m Hm. injection Hm as <-. vm_compute. discriminate.
Defined.

(** ** DiagnosisEngine *)

(** Unfolds [renderDiagnosis] down to its conditionals. *)
Ltac open_card :=
  unfold renderDiagnosis, createDiagnosisCard; cbv zeta.

(** Decides every conditional of an opened card, innermost tests on the
    chosen card excepted. *)
Ltac card_cases :=
  repeat match goal with
  | |- context [if ?c then _ else _] =>
      lazymatch c with
      | context [terminal] => fail
      | _ => destruct c eqn:?
      end
  end;
  cbn [outcome provisionalInfo terminal].

(** C2. With [clicks == 0] the card is No Traffic, whatever the budget,
    the leads, the goal and the three metric samples are. *)
Theorem zero_clicks_no_traffic {R : Rounding} (d : Diagnosis) (c : Q) :
  clicks (input d) = Some c ->
  c == 0 ->
  outcome (renderDiagnosis d) = no_traffic.
Proof.
  intros Hc Hz. open_card. rewrite Hc. cbn [or_num].
  apply Qeq_bool_iff in Hz. rewrite Hz. reflexivity.
Qed.

Lemma zero_clicks_no_traffic_witness :
  outcome
    (renderDiagnosis
       {| input := mkInput (Some 5000) (Some 0) (Some 40) (Some 80);
          goal_analysis := mkGoalAnalysis (Some "goal_in_range"%string)
                             (Some 70) None;
          benchmarks :=
            mkBenchmarks
              (Some (mkMetricData (js_number 125) (Some 60) (Some 45) (Some 90)
                       None None None))
              None None;
          targets := None;
          overall := Some (mkOverall (Some "behind"%string)) |})
  = no_traffic.
Proof.
  apply (zero_clicks_no_traffic _ 0); [ reflexivity | reflexivity ].
Defined.

(** The clicks that reach the second rule are a number other than zero. *)
Lemma clicks_past_rule_1 (i : Input) (c : Q) :
  clicks i = Some c -> ~ c == 0 ->
  Qeq_bool (or_num (clicks i) 0) 0 = false /\ or_num (clicks i) 0 = c.
Proof.
  intros -> Hc. cbn [or_num].
  apply Qeq_bool_false in Hc. rewrite Hc. split; [ exact Hc | reflexivity ].
Qed.

(** C3. With clicks other than zero, zero leads on at least 100 clicks,
    or a conversion rate above max(high * 1.8, 0.15) for the resolved
    range of the conversion-rate sample, give the Verify Tracking card; in
    particular zero leads on 150 clicks give Verify Tracking.  The
    threshold is the one the code computes: the product high * 1.8 and
    the two literals are doubles, whatever the rounding.  For a rounding
    with the laws of [Binary64] the computed threshold is the exact one
    up to the tolerance, so that a conversion rate above the exact
    threshold by more than the tolerance gives the card as well. *)
Theorem tracking_rule_verify_tracking {R : Rounding} :
  (forall (d : Diagnosis) (c : Q),
     clicks (input d) = Some c ->
     ~ c == 0 ->
     ((exists l : Q, leads (input d) = Some l /\ l == 0) /\ 100 <= c)
     \/ (exists v : Q,
           cr (benchmarks d) ?. value = Some v
           /\ Qmax (fl (high (ensureTargetRange (cr (benchmarks d)) "%" "CR")
                        * fl 1.8)) (fl 0.15) < v) ->
     outcome (renderDiagnosis d) = verify_tracking)
  /\
  (forall (d : Diagnosis) (l c : Q),
     leads (input d) = Some l -> l == 0 ->
     clicks (input d) = Some c -> c == 150 ->
     outcome (renderDiagnosis d) = verify_tracking)
  /\
  (Binary64 R ->
   forall (d : Diagnosis) (c v : Q),
     clicks (input d) = Some c ->
     ~ c == 0 ->
     cr (benchmarks d) ?. value = Some v ->
     (1 + tolerance)
     * Qmax (high (ensureTargetRange (cr (benchmarks d)) "%" "CR") * 1.8)
         0.15
     < v ->
     outcome (renderDiagnosis d) = verify_tracking).
Proof.
  assert (general :
    forall (d : Diagnosis) (c : Q),
      clicks (input d) = Some c ->
      ~ c == 0 ->
      ((exists l : Q, leads (input d) = Some l /\ l == 0) /\ 100 <= c)
      \/ (exists v : Q,
            cr (benchmarks d) ?. value = Some v
            /\ Qmax (fl (high (ensureTargetRange (cr (benchmarks d)) "%"
                                 "CR") * fl 1.8)) (fl 0.15) < v) ->
      outcome (renderDiagnosis d) = verify_tracking).
  { intros d c Hc Hnz Hrule. open_card.
    destruct (clicks_past_rule_1 _ _ Hc Hnz) as [-> ->].
    destruct Hrule as [[[l [-> Hl]] H100] | [v [Hv Hsus]]].
    - apply Qeq_bool_iff in Hl. apply Qle_bool_iff in H100.
      rewrite Hl, H100. reflexivity.
    - assert (Hs : crSuspicious (benchmarks d) = true).
      { unfold crSuspicious. rewrite Hv. apply Qltb_lt. exact Hsus. }
      rewrite Hs, orb_true_r. reflexivity. }
  split; [ exact general | split ].
  - intros d l c Hl Hl0 Hc Hc150.
    apply (general d c Hc); [ lra | ].
    left. split; [ exists l; split; assumption | lra ].
  - intros HR d c v Hc Hnz Hv Habove.
    apply (general d c Hc Hnz).
    right. exists v. split; [ exact Hv | ].
    eapply Qle_lt_trans; [ | exact Habove ].
    apply suspicious_threshold_near. exact HR.
Qed.

Lemma tracking_rule_verify_tracking_witness :
  outcome
    (renderDiagnosis (R := binary64)
       {| input := mkInput (Some 5000) (Some 150) (Some 0) (Some 80);
          goal_analysis := mkGoalAnalysis None None None;
          benchmarks := mkBenchmarks None None None;
          targets := None;
          overall := None |})
  = verify_tracking
  /\
  outcome
    (renderDiagnosis (R := binary64)
       {| input := mkInput (Some 5000) (Some 1000) (Some 40) (Some 80);
          goal_analysis := mkGoalAnalysis None None None;
          benchmarks :=
            mkBenchmarks None None
              (Some (mkMetricData (js_number (binary64 0.1549)) None None
                       None
                       (Some (mkRawRange (Some (binary64 0.02))
                                         (Some (binary64 0.086))))
                       None None));
          targets := None;
          overall := None |})
  = verify_tracking
  /\
  outcome
    (renderDiagnosis (R := binary64)
       {| input := mkInput (Some 5000) (Some 1000) (Some 40) (Some 80);
          goal_analysis := mkGoalAnalysis None None None;
          benchmarks :=
            mkBenchmarks None None
              (Some (mkMetricData (js_number (binary64 0.2)) None None
                       None
                       (Some (mkRawRange (Some (binary64 0.02))
                                         (Some (binary64 0.086))))
                       None None));
          targets := None;
          overall := None |})
  = verify_tracking.
Proof.
  split; [ | split ].
  - apply (proj1 (proj2 (tracking_rule_verify_tracking (R := binary64)))
             _ 0 150);
      [ reflexivity | reflexivity | reflexivity | reflexivity ].
  - apply (proj1 (tracking_rule_verify_tracking (R := binary64)) _ 1000);
      [ reflexivity | lra | ].
    right. exists (binary64 0.1549). split; [ reflexivity | ].
    vm_compute. reflexivity.
  - apply (proj2 (proj2 (tracking_rule_verify_tracking (R := binary64)))
             binary64_Binary64 _ 1000 (binary64 0.2));
      [ reflexivity | lra | reflexivity | ].
    vm_compute. reflexivity.
Defined.

(** A card that is not one of the three terminal ones carries the banner
    computed from the counters; a terminal one carries none. *)
Lemma renderDiagnosis_banner {R : Rounding} (d : Diagnosis) :
  provisionalInfo (renderDiagnosis d)
  = if terminal (outcome (renderDiagnosis d)) then no_banner
    else provisionalTag (input d).
Proof.
  open_card. card_cases; reflexivity.
Qed.

(** Past the three terminal rules the card is chosen from the metric
    samples and the goal status alone. *)
Lemma renderDiagnosis_frame {R : Rounding} (d d' : Diagnosis) :
  benchmarks d = benchmarks d' ->
  overall d = overall d' ->
  terminal (outcome (renderDiagnosis d)) = false ->
  terminal (outcome (renderDiagnosis d')) = false ->
  outcome (renderDiagnosis d) = outcome (renderDiagnosis d').
Proof.
  intros Hbm Hov. open_card. rewrite <- Hbm, <- Hov.
  destruct (Qeq_bool (or_num (clicks (input d)) 0) 0);
    [ discriminate | ].
  destruct (_ || crSuspicious (benchmarks d)); [ discriminate | ].
  destruct (match budget (input d) with
            | Some b => Qltb b 500
            | None => false
            end);
    [ discriminate | ].
  destruct (Qeq_bool (or_num (clicks (input d')) 0) 0);
    [ intros _ H; discriminate H | ].
  destruct (_ || crSuspicious (benchmarks d)); [ intros _ H; discriminate H | ].
  destruct (match budget (input d') with
            | Some b => Qltb b 500
            | None => false
            end);
    [ intros _ H; discriminate H | ].
  intros _ _. card_cases; reflexivity.
Qed.

(** A missing clicks count is read as zero: the payload where only the
    clicks are missing gets the No Traffic card. *)
Lemma missing_clicks_read_as_zero :
  clicks (input
            {| input := mkInput (Some 5000) None (Some 40) (Some 80);
               goal_analysis := mkGoalAnalysis None None None;
               benchmarks := mkBenchmarks None None None;
               targets := None;
               overall := Some (mkOverall (Some "on_track"%string)) |})
  = None
  /\
  outcome
    (renderDiagnosis
       {| input := mkInput (Some 5000) None (Some 40) (Some 80);
          goal_analysis := mkGoalAnalysis None None None;
          benchmarks := mkBenchmarks None None None;
          targets := None;
          overall := Some (mkOverall (Some "on_track"%string)) |})
  = no_traffic.
Proof.
  split; reflexivity.
Qed.

(** C7, amended. A missing clicks count is read as zero and gives the No
    Traffic card, as [clicks == 0] does.  A missing budget stays absent:
    the card is never Budget Too Low and never carries the
    budget-constrained banner.  A missing leads count is not read as zero
    by the tracking rule, whose zero-leads half does not fire, so that the
    card is Verify Tracking only for a suspicious conversion rate; but it
    is read as zero by the low-volume guard, so that every card past the
    three terminal rules carries the low-volume banner.  A metric without
    a value has status UNKNOWN; where the value of the conversion-rate
    sample is [null], the test that picks the lever compares it as 0, so
    that Start with CPC is not shown when half the low bound of its range
    is positive. *)
Theorem missing_fields_handling {R : Rounding} :
  (forall d : Diagnosis,
     clicks (input d) = None ->
     outcome (renderDiagnosis d) = no_traffic)
  /\
  (forall d : Diagnosis,
     budget (input d) = None ->
     outcome (renderDiagnosis d) <> budget_too_low
     /\ forall b : Q,
          provisionalInfo (renderDiagnosis d) <> budget_constrained b)
  /\
  (forall d : Diagnosis,
     leads (input d) = None ->
     (crSuspicious (benchmarks d) = false ->
      outcome (renderDiagnosis d) <> verify_tracking)
     /\ (terminal (outcome (renderDiagnosis d)) = false ->
         provisionalInfo (renderDiagnosis d) = provisional_low_volume))
  /\
  (forall (metric : option MetricData) (metricName unit direction : string),
     metric ?. value = None ->
     statusFromBench metric metricName unit direction = UNKNOWN)
  /\
  (forall d : Diagnosis,
     chain_value (cr (benchmarks d)) = js_null ->
     0 < fl (low (ensureTargetRange (cr (benchmarks d)) "%" "CR") * 0.5) ->
     outcome (renderDiagnosis d) <> fix_cpc_first).
Proof.
  split; [ | split; [ | split; [ | split ] ] ].
  - intros d Hc. open_card. rewrite Hc. reflexivity.
  - intros d Hb. split.
    + open_card. rewrite Hb. card_cases; discriminate.
    + intros b. rewrite renderDiagnosis_banner.
      destruct (terminal _); [ discriminate | ].
      unfold provisionalTag. rewrite Hb.
      destruct (_ || _); discriminate.
  - intros d Hl. split.
    + intros Hs. open_card. rewrite Hl, Hs. cbn [andb orb].
      card_cases; discriminate.
    + intros Ht. rewrite renderDiagnosis_banner, Ht.
      unfold provisionalTag. rewrite Hl. reflexivity.
  - intros metric metricName unit direction Hv.
    unfold statusFromBench. rewrite Hv. reflexivity.
  - intros d Hnull Hpos. open_card. unfold js_ltb. rewrite Hnull.
    cbn [compared]. apply Qltb_lt in Hpos. rewrite Hpos.
    cbn [negb]. rewrite andb_false_r.
    card_cases; discriminate.
Qed.

Lemma missing_fields_handling_witness :
  outcome
    (renderDiagnosis (R := binary64)
       {| input := mkInput None None None None;
          goal_analysis := mkGoalAnalysis None None None;
          benchmarks := mkBenchmarks None None None;
          targets := None;
          overall := None |})
  = no_traffic
  /\
  outcome
    (renderDiagnosis (R := binary64)
       {| input := mkInput None (Some 1000) None None;
          goal_analysis := mkGoalAnalysis None None None;
          benchmarks := mkBenchmarks None None None;
          targets := None;
          overall := None |})
  <> budget_too_low
  /\
  outcome
    (renderDiagnosis (R := binary64)
       {| input := mkInput None (Some 1000) None None;
          goal_analysis := mkGoalAnalysis None None None;
          benchmarks := mkBenchmarks None None None;
          targets := None;
          overall := None |})
  <> verify_tracking
  /\
  provisionalInfo
    (renderDiagnosis (R := binary64)
       {| input := mkInput None (Some 1000) None None;
          goal_analysis := mkGoalAnalysis None None None;
          benchmarks := mkBenchmarks None None None;
          targets := None;
          overall := None |})
  = provisional_low_volume
  /\
  statusFromBench (R := binary64)
    (Some (mkMetricData js_null (Some 60) None None None None None))
    "CPL" "$" lower_is_better
  = UNKNOWN
  /\
  outcome
    (renderDiagnosis (R := binary64)
       {| input := mkInput (Some 5000) (Some 1000) (Some 40) (Some 80);
          goal_analysis := mkGoalAnalysis None None None;
          benchmarks :=
            mkBenchmarks
              (Some (mkMetricData (js_number 125) (Some 60) (Some 45)
                       (Some 90) None None None))
              (Some (mkMetricData (js_number 5) None None None
                       (Some (mkRawRange (Some 10) (Some 2))) None None))
              (Some (mkMetricData js_null None None None None None None));
          targets := None;
          overall := Some (mkOverall (Some "behind"%string)) |})
  <> fix_cpc_first.
Proof.
  destruct (@missing_fields_handling binary64)
    as [Hclicks [Hbudget [Hleads [Hvalue Hnull]]]].
  split; [ | split; [ | split; [ | split; [ | split ] ] ] ].
  - apply Hclicks. reflexivity.
  - apply Hbudget. reflexivity.
  - apply Hleads; reflexivity.
  - apply Hleads; reflexivity.
  - apply Hvalue. reflexivity.
  - apply Hnull; reflexivity.
Defined.

(** The budget gate lets through a budget that is missing or at least
    500. *)
Lemma budget_gate_open (b : option Q) :
  (forall x : Q, b = Some x -> 500 <= x) ->
  match b with Some x => Qltb x 500 | None => false end = false.
Proof.
  intros H. destruct b as [x |]; [ | reflexivity ].
  apply Qltb_ge. apply H. reflexivity.
Qed.

(** Two payloads that differ in the budget only, neither below 500, get
    the same card title. *)
Lemma renderDiagnosis_budget_frame {R : Rounding}
    (d : Diagnosis) (b' : option Q) :
  (forall x : Q, budget (input d) = Some x -> 500 <= x) ->
  (forall x : Q, b' = Some x -> 500 <= x) ->
  outcome (renderDiagnosis (with_budget d b')) = outcome (renderDiagnosis d).
Proof.
  intros Hb Hb'. open_card.
  cbn [with_budget input goal_analysis benchmarks targets overall
       budget clicks leads goal_cpl].
  rewrite (budget_gate_open _ Hb), (budget_gate_open _ Hb').
  card_cases; reflexivity.
Qed.

(** The terminal cards carry no banner although the counters are low and
    the budget is 600; past them, low counters win over the budget of 600
    and the banner is the low-volume one. *)
Lemma banner_not_always_attached :
  provisionalInfo
    (renderDiagnosis
       {| input := mkInput (Some 600) (Some 0) (Some 0) None;
          goal_analysis := mkGoalAnalysis None None None;
          benchmarks := mkBenchmarks None None None;
          targets := None;
          overall := None |})
  = no_banner
  /\
  provisionalInfo
    (renderDiagnosis
       {| input := mkInput (Some 600) (Some 1000) (Some 5) None;
          goal_analysis := mkGoalAnalysis None None None;
          benchmarks := mkBenchmarks None None None;
          targets := None;
          overall := None |})
  = provisional_low_volume.
Proof.
  split; reflexivity.
Qed.

(** C9, amended. The No Traffic, Verify Tracking and Budget Too Low cards
    carry no banner.  On every other card, leads < 15 or clicks < 300 (a
    missing count read as 0) attach the low-volume banner, and otherwise a
    budget below 1000 attaches the budget-constrained banner.  The banner
    does not take part in the choice of the card: two payloads with the
    same metric samples and goal status that both get past the terminal
    rules have the same outcome, and so have two payloads that differ only
    in a budget of at least 500 or missing.  In particular a budget of 600
    with leads >= 15 and clicks >= 300 carries the budget-constrained
    banner past the terminal rules, and its outcome is the one chosen
    without a budget. *)
Theorem provisional_banner_frame {R : Rounding} :
  (forall d : Diagnosis,
     terminal (outcome (renderDiagnosis d)) = true ->
     provisionalInfo (renderDiagnosis d) = no_banner)
  /\
  (forall d : Diagnosis,
     terminal (outcome (renderDiagnosis d)) = false ->
     or_num (leads (input d)) 0 < 15 \/ or_num (clicks (input d)) 0 < 300 ->
     provisionalInfo (renderDiagnosis d) = provisional_low_volume)
  /\
  (forall (d : Diagnosis) (b : Q),
     terminal (outcome (renderDiagnosis d)) = false ->
     15 <= or_num (leads (input d)) 0 ->
     300 <= or_num (clicks (input d)) 0 ->
     budget (input d) = Some b -> b < 1000 ->
     provisionalInfo (renderDiagnosis d) = budget_constrained b)
  /\
  (forall d d' : Diagnosis,
     benchmarks d = benchmarks d' ->
     overall d = overall d' ->
     terminal (outcome (renderDiagnosis d)) = false ->
     terminal (outcome (renderDiagnosis d')) = false ->
     outcome (renderDiagnosis d) = outcome (renderDiagnosis d'))
  /\
  (forall (d : Diagnosis) (b' : option Q),
     (forall x : Q, budget (input d) = Some x -> 500 <= x) ->
     (forall x : Q, b' = Some x -> 500 <= x) ->
     outcome (renderDiagnosis (with_budget d b'))
     = outcome (renderDiagnosis d))
  /\
  (forall d : Diagnosis,
     budget (input d) = Some 600 ->
     terminal (outcome (renderDiagnosis d)) = false ->
     15 <= or_num (leads (input d)) 0 ->
     300 <= or_num (clicks (input d)) 0 ->
     provisionalInfo (renderDiagnosis d) = budget_constrained 600
     /\ outcome (renderDiagnosis (with_budget d None))
        = outcome (renderDiagnosis d)).
Proof.
  assert (low_volume :
    forall d : Diagnosis,
      terminal (outcome (renderDiagnosis d)) = false ->
      or_num (leads (input d)) 0 < 15 \/ or_num (clicks (input d)) 0 < 300 ->
      provisionalInfo (renderDiagnosis d) = provisional_low_volume).
  { intros d Ht Hlow. rewrite renderDiagnosis_banner, Ht.
    unfold provisionalTag.
    destruct Hlow as [H | H]; apply Qltb_lt in H; rewrite H;
      [ | rewrite orb_true_r ]; reflexivity. }
  assert (constrained :
    forall (d : Diagnosis) (b : Q),
      terminal (outcome (renderDiagnosis d)) = false ->
      15 <= or_num (leads (input d)) 0 ->
      300 <= or_num (clicks (input d)) 0 ->
      budget (input d) = Some b -> b < 1000 ->
      provisionalInfo (renderDiagnosis d) = budget_constrained b).
  { intros d b Ht Hl Hc Hb Hlt. rewrite renderDiagnosis_banner, Ht.
    unfold provisionalTag.
    apply Qltb_ge in Hl, Hc. apply Qltb_lt in Hlt.
    rewrite Hl, Hc, Hb, Hlt. reflexivity. }
  repeat apply conj.
  - intros d Ht. rewrite renderDiagnosis_banner, Ht. reflexivity.
  - exact low_volume.
  - exact constrained.
  - exact renderDiagnosis_frame.
  - exact renderDiagnosis_budget_frame.
  - intros d Hb Ht Hl Hc. split.
    + apply constrained; [ assumption .. | lra ].
    + apply renderDiagnosis_budget_frame.
      * intros x Hx. rewrite Hb in Hx. injection Hx as <-. lra.
      * intros x Hx. discriminate Hx.
Qed.

Lemma provisional_banner_frame_witness :
  provisionalInfo
    (renderDiagnosis
       {| input := mkInput (Some 600) (Some 1000) (Some 40) (Some 80);
          goal_analysis := mkGoalAnalysis None None None;
          benchmarks := mkBenchmarks None None None;
          targets := None;
          overall := Some (mkOverall (Some "on_track"%string)) |})
  = budget_constrained 600
  /\
  outcome
    (renderDiagnosis
       (with_budget
          {| input := mkInput (Some 600) (Some 1000) (Some 40) (Some 80);
             goal_analysis := mkGoalAnalysis None None None;
             benchmarks := mkBenchmarks None None None;
             targets := None;
             overall := Some (mkOverall (Some "on_track"%string)) |}
          None))
  = outcome
      (renderDiagnosis
         {| input := mkInput (Some 600) (Some 1000) (Some 40) (Some 80);
            goal_analysis := mkGoalAnalysis None None None;
            benchmarks := mkBenchmarks None None None;
            targets := None;
            overall := Some (mkOverall (Some "on_track"%string)) |}).
Proof.
  destruct provisional_banner_frame as [_ [_ [_ [_ [_ H600]]]]].
  apply H600.
  - reflexivity.
  - reflexivity.
  - cbn [or_num input leads]. vm_compute. discriminate.
  - cbn [or_num input clicks]. vm_compute. discriminate.
Defined.

(** The three terminal cards are exactly the cards of the first three
    rules. *)
Lemma terminal_rules {R : Rounding} (d : Diagnosis) :
  terminal (outcome (renderDiagnosis d))
  = Qeq_bool (or_num (clicks (input d)) 0) 0
    || ((match leads (input d) with Some l => Qeq_bool l 0 | None => false end
         && Qle_bool 100 (or_num (clicks (input d)) 0))
        || crSuspicious (benchmarks d))
    || match budget (input d) with Some b => Qltb b 500 | None => false end.
Proof.
  open_card.
  destruct (Qeq_bool (or_num (clicks (input d)) 0) 0); [ reflexivity | ].
  destruct (_ && _ || crSuspicious (benchmarks d)); [ reflexivity | ].
  destruct (match budget (input d) with
            | Some b => Qltb b 500
            | None => false
            end);
    [ reflexivity | ].
  card_cases; reflexivity.
Qed.

(** C10. A metric whose value is missing has status UNKNOWN, which is not
    WEAK.  So a payload that gets past the first three rules (clicks other
    than zero, not zero leads on 100 clicks or more, budget missing or at
    least 500) and whose three metric values are all missing takes the
    performance-is-good branch: the card is Ready to Scale when the goal
    status is achieved or on_track and Realign Goal Expectations
    otherwise, never one of the fix cards. *)
Theorem missing_values_performance_good {R : Rounding} (d : Diagnosis) (c : Q) :
  clicks (input d) = Some c ->
  ~ c == 0 ->
  (forall l : Q, leads (input d) = Some l -> l == 0 -> c < 100) ->
  (forall b : Q, budget (input d) = Some b -> 500 <= b) ->
  cpl (benchmarks d) ?. value = None ->
  cpc (benchmarks d) ?. value = None ->
  cr (benchmarks d) ?. value = None ->
  (statusFromBench (cpl (benchmarks d)) "CPL" "$" lower_is_better = UNKNOWN
   /\ statusFromBench (cpc (benchmarks d)) "CPC" "$" lower_is_better = UNKNOWN
   /\ statusFromBench (cr (benchmarks d)) "CR" "%" higher_is_better = UNKNOWN)
  /\
  (outcome (renderDiagnosis d) = ready_to_scale
   \/ outcome (renderDiagnosis d) = realign_goal_expectations)
  /\
  (outcome (renderDiagnosis d) = ready_to_scale
   <-> (overall d ?. goal_status = Some "achieved"%string
        \/ overall d ?. goal_status = Some "on_track"%string)).
Proof.
  intros Hc Hnz Hleads Hbudget Hcpl Hcpc Hcr.
  assert (Hstatus :
    forall (m : option MetricData) (n u dir : string),
      m ?. value = None -> statusFromBench m n u dir = UNKNOWN).
  { intros m n u dir Hv. unfold statusFromBench. rewrite Hv. reflexivity. }
  split; [ repeat apply conj; apply Hstatus; assumption | ].
  assert (Hout :
    outcome (renderDiagnosis d)
    = if opt_string_eqb (overall d ?. goal_status) "achieved"
         || opt_string_eqb (overall d ?. goal_status) "on_track"
      then ready_to_scale else realign_goal_expectations).
  { open_card.
    destruct (clicks_past_rule_1 _ _ Hc Hnz) as [-> ->].
    assert (Hs : crSuspicious (benchmarks d) = false)
      by (unfold crSuspicious; rewrite Hcr; reflexivity).
    assert (Hz :
      match leads (input d) with Some l => Qeq_bool l 0 | None => false end
      && Qle_bool 100 c = false).
    { destruct (leads (input d)) as [l |] eqn:El; [ | reflexivity ].
      destruct (Qeq_bool l 0) eqn:E0; [ | reflexivity ].
      apply Qeq_bool_iff in E0. apply Qle_bool_gt.
      apply (Hleads l eq_refl E0). }
    rewrite Hz, Hs, (budget_gate_open _ Hbudget).
    rewrite !Hstatus by assumption.
    cbn [orb BenchStatus_eqb negb andb].
    destruct (_ || _); reflexivity. }
  rewrite Hout. unfold opt_string_eqb.
  destruct (overall d ?. goal_status) as [s |]; cbn [orb].
  - destruct (s =? "achieved")%string eqn:Ea; cbn [orb].
    + apply String.eqb_eq in Ea. subst s.
      split; [ left; reflexivity | ].
      split; [ left; reflexivity | reflexivity ].
    + destruct (s =? "on_track")%string eqn:Eo.
      * apply String.eqb_eq in Eo. subst s.
        split; [ left; reflexivity | ].
        split; [ right; reflexivity | reflexivity ].
      * apply String.eqb_neq in Ea, Eo.
        split; [ right; reflexivity | ].
        split; [ discriminate | ].
        intros [H | H]; injection H as ->; congruence.
  - split; [ right; reflexivity | ].
    split; [ discriminate | intros [H | H]; discriminate H ].
Qed.

Lemma missing_values_performance_good_witness :
  outcome
    (renderDiagnosis
       {| input := mkInput (Some 5000) (Some 1000) (Some 40) (Some 80);
          goal_analysis := mkGoalAnalysis (Some "goal_too_aggressive"%string)
                             (Some 95) None;
          benchmarks :=
            mkBenchmarks
              (Some (mkMetricData js_null (Some 60) (Some 45) (Some 90)
                       None None None))
              None None;
          targets := None;
          overall := Some (mkOverall (Some "behind"%string)) |})
  = ready_to_scale
  \/
  outcome
    (renderDiagnosis
       {| input := mkInput (Some 5000) (Some 1000) (Some 40) (Some 80);
          goal_analysis := mkGoalAnalysis (Some "goal_too_aggressive"%string)
                             (Some 95) None;
          benchmarks :=
            mkBenchmarks
              (Some (mkMetricData js_null (Some 60) (Some 45) (Some 90)
                       None None None))
              None None;
          targets := None;
          overall := Some (mkOverall (Some "behind"%string)) |})
  = realign_goal_expectations.
Proof.
  refine (proj1 (proj2 (missing_values_performance_good _ 1000 _ _ _ _ _ _ _))).
  - reflexivity.
  - lra.
  - intros l Hl. injection Hl as <-. lra.
  - intros b Hb. injection Hb as <-. lra.
  - reflexivity.
  - reflexivity.
  - reflexivity.
Defined.

(** ** Benchmark utilities: further properties *)

(** Division by a positive number, moved across an inequality. *)
Lemma Qdiv_le_iff (a b c : Q) : 0 < c -> (a / c <= b <-> a <= b * c).
Proof.
  intros Hc. split; intros H.
  - assert (E : a == a / c * c) by (field; lra).
    rewrite E. apply Qmult_le_compat_r; [ exact H | lra ].
  - apply Qle_shift_div_r; assumption.
Qed.

Lemma Qdiv_lt_iff (a b c : Q) : 0 < c -> (b < a / c <-> b * c < a).
Proof.
  intros Hc. split; intros H.
  - apply Qnot_le_lt. intros Hle.
    apply (Qlt_not_le _ _ H). apply Qdiv_le_iff; assumption.
  - apply Qnot_le_lt. intros Hle.
    apply (Qlt_not_le _ _ H). apply Qdiv_le_iff; assumption.
Qed.

(** The divisor of [deltaPctFromRange] is positive. *)
Lemma floor_divisor_pos (b : Q) : 0 < Qmax b 1e-9.
Proof.
  apply Qlt_le_trans with 1e-9; [ reflexivity | apply Q.le_max_r ].
Qed.

(** X1. In exact arithmetic the deviation [deltaPctFromRange] is never
    negative, it is zero exactly for a value within [low, high], and a
    value that is not negative and lies below the range deviates by at
    most 100 percent. *)
Theorem deltaPctFromRange_bounds (v : Q) (tr : TargetRange) :
  0 <= deltaPctFromRange v tr
  /\ (deltaPctFromRange v tr == 0 <-> low tr <= v <= high tr)
  /\ (0 <= v -> v < low tr -> deltaPctFromRange v tr <= 100).
Proof.
  unfold deltaPctFromRange. cbv zeta. exact_arithmetic.
  destruct (Qltb v (low tr)) eqn:Hlow; order_facts.
  - pose proof (floor_divisor_pos (low tr)) as Hd.
    assert (Hq : 0 < (low tr - v) / Qmax (low tr) 1e-9)
      by (apply Qdiv_lt_iff; [ exact Hd | lra ]).
    assert (Hq1 : 0 <= v -> (low tr - v) / Qmax (low tr) 1e-9 <= 1).
    { intros Hv. apply Qdiv_le_iff; [ exact Hd | ].
      pose proof (Q.le_max_l (low tr) 1e-9). lra. }
    revert Hq Hq1. generalize ((low tr - v) / Qmax (low tr) 1e-9).
    intros q Hq Hq1. repeat apply conj; lra.
  - destruct (Qltb (high tr) v) eqn:Hhigh; order_facts.
    + pose proof (floor_divisor_pos (high tr)) as Hd.
      assert (Hq : 0 < (v - high tr) / Qmax (high tr) 1e-9)
        by (apply Qdiv_lt_iff; [ exact Hd | lra ]).
      revert Hq. generalize ((v - high tr) / Qmax (high tr) 1e-9).
      intros q Hq. repeat apply conj; lra.
    + repeat apply conj; lra.
Qed.

Lemma deltaPctFromRange_bounds_witness :
  deltaPctFromRange 30 (mkTargetRange 45 90) <= 100.
Proof.
  apply (proj2 (proj2 (deltaPctFromRange_bounds 30 (mkTargetRange 45 90))));
    simpl; lra.
Defined.

(** X2. Moving a value further in the bad direction never brings it back:
    for lower-is-better a value above one that is [outside_target] is
    [outside_target], for higher-is-better a value below one that is
    [outside_target] is [outside_target]. *)
Theorem deriveVerdict_bad_direction (v v' : Q) (tr : option RawRange) :
  (deriveVerdict (Some v) tr lower_is_better = outside_target ->
   v <= v' ->
   deriveVerdict (Some v') tr lower_is_better = outside_target)
  /\
  (deriveVerdict (Some v) tr higher_is_better = outside_target ->
   v' <= v ->
   deriveVerdict (Some v') tr higher_is_better = outside_target).
Proof.
  unfold deriveVerdict.
  destruct (tr ?. raw_low) as [lo |]; [ | split; discriminate ].
  destruct (tr ?. raw_high) as [hi |]; [ | split; discriminate ].
  simpl. split.
  - destruct (Qle_bool lo v) eqn:H1; destruct (Qle_bool v hi) eqn:H2;
      destruct (Qltb v lo) eqn:H3; simpl; try discriminate;
      intros _ Hle; order_facts;
      destruct (Qle_bool lo v') eqn:H4; destruct (Qle_bool v' hi) eqn:H5;
      destruct (Qltb v' lo) eqn:H6; simpl; order_facts;
      try reflexivity; lra.
  - destruct (Qle_bool lo v) eqn:H1; destruct (Qle_bool v hi) eqn:H2;
      destruct (Qltb hi v) eqn:H3; simpl; try discriminate;
      intros _ Hle; order_facts;
      destruct (Qle_bool lo v') eqn:H4; destruct (Qle_bool v' hi) eqn:H5;
      destruct (Qltb hi v') eqn:H6; simpl; order_facts;
      try reflexivity; lra.
Qed.

Lemma deriveVerdict_bad_direction_witness :
  deriveVerdict (Some 200) (Some (mkRawRange (Some 45) (Some 90)))
    lower_is_better = outside_target.
Proof.
  apply (proj1 (deriveVerdict_bad_direction 125 200
                  (Some (mkRawRange (Some 45) (Some 90)))));
    [ reflexivity | lra ].
Defined.

(** X3. On a range with low <= high the two directions agree on
    [on_target] and swap the two other verdicts: what exceeds the target
    for lower-is-better is outside it for higher-is-better, and the other
    way round. *)
Theorem deriveVerdict_directions_mirror (v lo hi : Q) :
  lo <= hi ->
  let lower :=
    deriveVerdict (Some v) (Some (mkRawRange (Some lo) (Some hi)))
      lower_is_better in
  let higher :=
    deriveVerdict (Some v) (Some (mkRawRange (Some lo) (Some hi)))
      higher_is_better in
  (lower = on_target <-> higher = on_target)
  /\ (lower = exceeds_target <-> higher = outside_target)
  /\ (lower = outside_target <-> higher = exceeds_target).
Proof.
  intros Hord. unfold deriveVerdict. simpl.
  destruct (Qle_bool lo v) eqn:H1; destruct (Qle_bool v hi) eqn:H2;
    destruct (Qltb v lo) eqn:H3; destruct (Qltb hi v) eqn:H4; simpl;
    order_facts;
    try (exfalso; lra);
    (repeat apply conj; intro H; try reflexivity; discriminate H).
Qed.

Lemma deriveVerdict_directions_mirror_witness :
  deriveVerdict (Some 30) (Some (mkRawRange (Some 45) (Some 90)))
    lower_is_better = exceeds_target
  <-> deriveVerdict (Some 30) (Some (mkRawRange (Some 45) (Some 90)))
        higher_is_better = outside_target.
Proof.
  refine (proj1 (proj2 (deriveVerdict_directions_mirror 30 45 90 _))).
  lra.
Defined.

(** X4. Without a complete precomputed range, the two percentiles decide
    alone: the median and the value are not looked at, the low bound is
    never negative, and for 0 <= p25 <= p75 the range is [p25, p75]. *)
Theorem ensureTargetRange_percentiles {R : Rounding}
    (metricData : option MetricData)
    (unit metricName : string) (a b : Q) :
  metricData ?. target_range ?. raw_low = None
  \/ metricData ?. target_range ?. raw_high = None ->
  metricData ?. p25 = Some a ->
  metricData ?. p75 = Some b ->
  low (ensureTargetRange metricData unit metricName) = Qmax 0 a
  /\ high (ensureTargetRange metricData unit metricName) = Qmax b a
  /\ 0 <= low (ensureTargetRange metricData unit metricName)
  /\ (0 <= a <= b ->
      low (ensureTargetRange metricData unit metricName) == a
      /\ high (ensureTargetRange metricData unit metricName) == b).
Proof.
  intros Hrange Ha Hb. unfold ensureTargetRange. rewrite Ha, Hb.
  assert (Hcase :
    match metricData ?. target_range ?. raw_low,
          metricData ?. target_range ?. raw_high with
    | Some l, Some h => False
    | _, _ => True
    end).
  { destruct Hrange as [-> | ->];
      [ | destruct (metricData ?. target_range ?. raw_low) ]; exact I. }
  destruct (metricData ?. target_range ?. raw_low);
    [ destruct (metricData ?. target_range ?. raw_high);
      [ contradiction | ] | ];
    simpl; (repeat apply conj;
            [ reflexivity | reflexivity | apply Q.le_max_l
            | intros [H0 Hab]; split; split_minmax; lra ]).
Qed.

Lemma ensureTargetRange_percentiles_witness :
  low (ensureTargetRange
         (Some (mkMetricData (js_number 125) (Some 60) (Some 45) (Some 90)
                  None None None)) "$" "CPL") == 45
  /\ high (ensureTargetRange
             (Some (mkMetricData (js_number 125) (Some 60) (Some 45) (Some 90)
                      None None None)) "$" "CPL") == 90.
Proof.
  refine (proj2 (proj2 (proj2
    (ensureTargetRange_percentiles
       (Some (mkMetricData (js_number 125) (Some 60) (Some 45) (Some 90)
                None None None)) "$" "CPL" 45 90 _ _ _))) _).
  - left. reflexivity.
  - reflexivity.
  - reflexivity.
  - lra.
Defined.

(** The band of 15 percent around a centre of at least 0.0001: its
    bounds are 0.85 and 1.15 times the centre, up to the tolerance. *)
Lemma band_near {R : Rounding} (m : Q) :
  Binary64 R ->
  1 # 10000 <= m ->
  let span := Qmax (fl 0.00001) (fl (m * fl 0.15)) in
  Qabs (Qmax 0 (fl (m - span)) - 0.85 * m) <= tolerance * m
  /\ Qabs (fl (m + span) - 1.15 * m) <= tolerance * m.
Proof.
  intros HR Hm span.
  destruct (fl_near_pos 0.15 HR ltac:(lra)) as [Hc1 Hc2].
  destruct (fl_near_pos 0.00001 HR ltac:(lra)) as [Hf1 Hf2].
  set (c := fl 0.15) in *. set (f := fl 0.00001) in *.
  assert (Ht1 : m * (0.15 - (rel_error * 0.15 + abs_error)) <= m * c)
    by (apply Qmult_le_l; lra).
  assert (Ht2 : m * c <= m * (0.15 + (rel_error * 0.15 + abs_error)))
    by (apply Qmult_le_l; lra).
  assert (Ht0 : 0 <= m * c).
  { unfold rel_error, abs_error in *. 
    assert (0 <= m * (0.15 - ((1 # 1000000000000000) * 0.15
                              + (1 # 1000000000000000000000000000000))))
      by (apply Qmult_le_0_compat; lra).
    lra. }
  destruct (fl_near_pos (m * c) HR Ht0) as [Hs1 Hs2].
  fold c in span.
  set (t := m * c) in *. set (s := fl t) in *.
  assert (Hspan : span == s).
  { unfold span. apply Q.max_r. unfold rel_error, abs_error in *. lra. }
  assert (Hd0 : 0 <= m - span) by (unfold rel_error, abs_error in *; lra).
  destruct (fl_near_pos (m - span) HR Hd0) as [Hl1 Hl2].
  assert (Hu0 : 0 <= m + span) by (unfold rel_error, abs_error in *; lra).
  destruct (fl_near_pos (m + span) HR Hu0) as [Hh1 Hh2].
  set (lo := fl (m - span)) in *. set (hi := fl (m + span)) in *.
  clearbody span s t lo hi c f.
  unfold tolerance, rel_error, abs_error in *.
  split; apply Qabs_Qle_condition.
  - split_minmax; lra.
  - lra.
Qed.

(** X5. With no complete precomputed range and a percentile missing, the
    range is the band of 15 percent around the centre (the median, or the
    value when there is no median).  For a centre of at least 0.0001 and
    a rounding with the laws of [Binary64], the bounds are 0.85 and 1.15
    times the centre up to the tolerance: a value within 15 percent of
    the centre, the tolerance taken off, is [on_target] in either
    direction, and a value that is [on_target] is within 15 percent of
    the centre, the tolerance added. *)
Theorem ensureTargetRange_median_band {R : Rounding}
    (metricData : option MetricData) (unit metricName : string) (m : Q) :
  Binary64 R ->
  metricData ?. target_range ?. raw_low = None
  \/ metricData ?. target_range ?. raw_high = None ->
  metricData ?. p25 = None \/ metricData ?. p75 = None ->
  nullish_opt (metricData ?. median) (metricData ?. value) = Some m ->
  1 # 10000 <= m ->
  let range := ensureTargetRange metricData unit metricName in
  Qabs (low range - 0.85 * m) <= tolerance * m
  /\ Qabs (high range - 1.15 * m) <= tolerance * m
  /\ forall (v : Q) (direction : string),
       ((0.85 + tolerance) * m <= v <= (1.15 - tolerance) * m ->
        deriveVerdict (Some v) (Some (toRaw range)) direction = on_target)
       /\ (deriveVerdict (Some v) (Some (toRaw range)) direction = on_target ->
           (0.85 - tolerance) * m <= v <= (1.15 + tolerance) * m).
Proof.
  intros HR Hrange Hpct Hm Hbig range.
  assert (Hband :
    range
    = {| low := Qmax 0 (fl (m - Qmax (fl 0.00001) (fl (m * fl 0.15))));
         high := fl (m + Qmax (fl 0.00001) (fl (m * fl 0.15))) |}).
  { unfold range, ensureTargetRange. rewrite Hm. cbn [nullish].
    assert (Hp :
      match metricData ?. p25, metricData ?. p75 with
      | Some _, Some _ => False
      | _, _ => True
      end).
    { destruct Hpct as [-> | ->];
        [ | destruct (metricData ?. p25) ]; exact I. }
    destruct (metricData ?. target_range ?. raw_low);
      [ destruct (metricData ?. target_range ?. raw_high);
        [ destruct Hrange; discriminate | ] | ];
      (destruct (metricData ?. p25);
       [ destruct (metricData ?. p75); [ contradiction | ] | ];
       reflexivity). }
  rewrite Hband. cbn [low high toRaw].
  destruct (band_near m HR Hbig) as [Hlow Hhigh]. cbv zeta in Hlow, Hhigh.
  split; [ exact Hlow | split; [ exact Hhigh | ] ].
  apply Qabs_Qle_condition in Hlow, Hhigh.
  revert Hlow Hhigh.
  generalize (Qmax 0 (fl (m - Qmax (fl 0.00001) (fl (m * fl 0.15)))))
             (fl (m + Qmax (fl 0.00001) (fl (m * fl 0.15)))).
  intros lo hi Hlow Hhigh v direction. unfold deriveVerdict.
  cbn [chain toRaw raw_low raw_high low high].
  unfold tolerance in *.
  destruct (Qle_bool lo v) eqn:H1; destruct (Qle_bool v hi) eqn:H2;
    cbn [andb]; order_facts.
  - split; [ reflexivity | ]. intros _. lra.
  - split; [ intros H; exfalso; lra | ].
    destruct (direction =? "lower-is-better")%string;
      [ destruct (Qltb v _) | destruct (Qltb _ v) ]; discriminate.
  - split; [ intros H; exfalso; lra | ].
    destruct (direction =? "lower-is-better")%string;
      [ destruct (Qltb v _) | destruct (Qltb _ v) ]; discriminate.
  - split; [ intros H; exfalso; lra | ].
    destruct (direction =? "lower-is-better")%string;
      [ destruct (Qltb v _) | destruct (Qltb _ v) ]; discriminate.
Qed.

Lemma ensureTargetRange_median_band_witness :
  deriveVerdict (Some (binary64 0.03))
    (Some (toRaw (ensureTargetRange (R := binary64)
                    (Some (mkMetricData (js_number (binary64 0.04))
                             (Some (binary64 0.03)) None None None None
                             None)) "%" "CR")))
    higher_is_better = on_target.
Proof.
  refine (proj1 (proj2 (proj2
    (ensureTargetRange_median_band (R := binary64)
       (Some (mkMetricData (js_number (binary64 0.04))
                (Some (binary64 0.03)) None None None None None))
       "%" "CR" (binary64 0.03) _ _ _ _ _)) (binary64 0.03)
       higher_is_better) _).
  - exact binary64_Binary64.
  - left. reflexivity.
  - left. reflexivity.
  - reflexivity.
  - vm_compute. discriminate.
  - split; vm_compute; discriminate.
Defined.

(** The deviation computed from a distance [a] to a bound [b] of at
    least 1e-8: at most 15 up to 15 percent of the bound, above 15
    beyond, the tolerance apart. *)
Lemma deviation_near {R : Rounding} (a b : Q) :
  Binary64 R ->
  0 <= a ->
  1 # 100000000 <= b ->
  let delta := fl (fl (fl a / Qmax b (fl 1e-9)) * 100) in
  (a <= (0.15 - tolerance) * b -> delta <= 15)
  /\ ((0.15 + tolerance) * b <= a -> 15 < delta).
Proof.
  intros HR Ha Hb delta.
  assert (H9 : 0 <= 1e-9) by discriminate.
  destruct (fl_near_pos 1e-9 HR H9) as [_ Hn].
  assert (E9 : 1e-9 == 1 # 1000000000) by reflexivity.
  set (n9 := fl 1e-9) in *. rewrite E9 in Hn. clear E9 H9.
  assert (Hd : Qmax b n9 == b).
  { apply Q.max_l. unfold rel_error, abs_error in *. lra. }
  destruct (fl_near_pos a HR Ha) as [Hx1 Hx2].
  pose proof (fl_nonneg a HR Ha) as Hx0.
  set (x1 := fl a) in *. set (D := Qmax b n9) in *.
  assert (HD : 0 < D) by lra.
  assert (Hq0 : 0 <= x1 / D) by (apply Qle_shift_div_l; lra).
  destruct (fl_near_pos (x1 / D) HR Hq0) as [Hy1 Hy2].
  pose proof (fl_nonneg (x1 / D) HR Hq0) as Hy0.
  assert (Hp0 : 0 <= fl (x1 / D) * 100) by lra.
  destruct (fl_near_pos (fl (x1 / D) * 100) HR Hp0) as [Hz1 Hz2].
  fold delta in Hz1, Hz2.
  set (x2 := fl (x1 / D)) in *.
  split; intros Hcase.
  - assert (Hq : x1 / D
                 <= (0.15 - tolerance) * (1 + rel_error)
                    + (1 # 10000000000000000000000)).
    { apply Qle_shift_div_r; [ exact HD | ].
      unfold tolerance, rel_error, abs_error in *. lra. }
    clearbody delta x2 x1 D n9.
    unfold tolerance, rel_error, abs_error in *. lra.
  - assert (Hq : (0.15 + tolerance) * (1 - rel_error)
                 - (1 # 10000000000000000000000) <= x1 / D).
    { apply Qle_shift_div_l; [ exact HD | ].
      unfold tolerance, rel_error, abs_error in *. lra. }
    clearbody delta x2 x1 D n9.
    unfold tolerance, rel_error, abs_error in *. lra.
Qed.

(** X6. A metric with a value is never UNKNOWN.  On a resolved range with
    low <= high it is GOOD exactly up to the high bound for
    lower-is-better and exactly from the low bound for higher-is-better.
    For a rounding with the laws of [Binary64] and a bound of at least
    1e-8, the other two bands are separated at 15 percent beyond the
    bound: a value is not WEAK up to 15 percent beyond it, the tolerance
    taken off, and WEAK from 15 percent beyond it, the tolerance
    added. *)
Theorem statusFromBench_bands {R : Rounding} (metric : option MetricData)
    (metricName unit : string) (v : Q) :
  metric ?. value = Some v ->
  let range := ensureTargetRange metric unit metricName in
  low range <= high range ->
  (forall direction : string,
     statusFromBench metric metricName unit direction <> UNKNOWN)
  /\
  (statusFromBench metric metricName unit lower_is_better = GOOD
   <-> v <= high range)
  /\
  (statusFromBench metric metricName unit higher_is_better = GOOD
   <-> low range <= v)
  /\
  (Binary64 R ->
   1 # 100000000 <= high range ->
   (v <= (1.15 - tolerance) * high range ->
    statusFromBench metric metricName unit lower_is_better <> WEAK)
   /\ ((1.15 + tolerance) * high range <= v ->
       statusFromBench metric metricName unit lower_is_better = WEAK))
  /\
  (Binary64 R ->
   1 # 100000000 <= low range ->
   ((0.85 + tolerance) * low range <= v ->
    statusFromBench metric metricName unit higher_is_better <> WEAK)
   /\ (v <= (0.85 - tolerance) * low range ->
       statusFromBench metric metricName unit higher_is_better = WEAK)).
Proof.
  intros Hv range Hord. unfold statusFromBench. rewrite Hv.
  fold range. cbv zeta. unfold deriveVerdict, deltaPctFromRange.
  cbn [chain toRaw raw_low raw_high]. cbv zeta.
  generalize dependent range. intros range Hord.
  split; [ | split; [ | split; [ | split ] ] ].
  - intros direction.
    destruct (Qle_bool (low range) v && Qle_bool v (high range));
      [ discriminate | ].
    destruct (direction =? "lower-is-better")%string;
      [ destruct (Qltb v (low range)) | destruct (Qltb (high range) v) ];
      try discriminate;
      match goal with
      | |- context [if Qle_bool ?d 15 then _ else _] =>
          destruct (Qle_bool d 15); discriminate
      end.
  - simpl.
    destruct (Qle_bool (low range) v) eqn:H1;
      destruct (Qle_bool v (high range)) eqn:H2;
      destruct (Qltb v (low range)) eqn:H3; cbn [andb]; order_facts;
      try (exfalso; lra);
      try (split; intro H; try reflexivity; try discriminate H;
           first [ lra | exfalso; lra ]).
    destruct (Qltb (high range) v) eqn:H4; order_facts;
      [ | exfalso; lra ].
    match goal with
    | |- context [if Qle_bool ?d 15 then _ else _] =>
        destruct (Qle_bool d 15)
    end;
      (split; intro H; try discriminate H; exfalso; lra).
  - simpl.
    destruct (Qle_bool (low range) v) eqn:H1;
      destruct (Qle_bool v (high range)) eqn:H2;
      destruct (Qltb (high range) v) eqn:H3; cbn [andb]; order_facts;
      try (exfalso; lra);
      try (split; intro H; try reflexivity; try discriminate H;
           first [ lra | exfalso; lra ]).
    destruct (Qltb v (low range)) eqn:H4; order_facts;
      [ | exfalso; lra ].
    match goal with
    | |- context [if Qle_bool ?d 15 then _ else _] =>
        destruct (Qle_bool d 15)
    end;
      (split; intro H; try discriminate H; exfalso; lra).
  - intros HR Hpos. simpl.
    destruct (Qle_bool (low range) v) eqn:H1;
      destruct (Qle_bool v (high range)) eqn:H2;
      destruct (Qltb v (low range)) eqn:H3; cbn [andb]; order_facts;
      try (exfalso; lra);
      try (split; intros H; try discriminate; exfalso;
           unfold tolerance in *; lra).
    destruct (Qltb (high range) v) eqn:H4; order_facts;
      [ | exfalso; lra ].
    destruct (deviation_near (v - high range) (high range) HR
                ltac:(lra) Hpos) as [Hle Hgt].
    cbv zeta in Hle, Hgt.
    split; intros H.
    + assert (Hd : Qle_bool
                     (fl (fl (fl (v - high range)
                              / Qmax (high range) (fl 1e-9)) * 100)) 15
                   = true).
      { apply Qle_bool_iff. apply Hle. unfold tolerance in *. lra. }
      rewrite Hd. discriminate.
    + assert (Hd : Qle_bool
                     (fl (fl (fl (v - high range)
                              / Qmax (high range) (fl 1e-9)) * 100)) 15
                   = false).
      { apply Qle_bool_gt. apply Hgt. unfold tolerance in *. lra. }
      rewrite Hd. reflexivity.
  - intros HR Hpos. simpl.
    destruct (Qle_bool (low range) v) eqn:H1;
      destruct (Qle_bool v (high range)) eqn:H2;
      destruct (Qltb (high range) v) eqn:H3; cbn [andb]; order_facts;
      try (exfalso; lra);
      try (split; intros H; try discriminate; exfalso;
           unfold tolerance in *; lra).
    destruct (Qltb v (low range)) eqn:H4; order_facts;
      [ | exfalso; lra ].
    destruct (deviation_near (low range - v) (low range) HR
                ltac:(lra) Hpos) as [Hle Hgt].
    cbv zeta in Hle, Hgt.
    split; intros H.
    + assert (Hd : Qle_bool
                     (fl (fl (fl (low range - v)
                              / Qmax (low range) (fl 1e-9)) * 100)) 15
                   = true).
      { apply Qle_bool_iff. apply Hle. unfold tolerance in *. lra. }
      rewrite Hd. discriminate.
    + assert (Hd : Qle_bool
                     (fl (fl (fl (low range - v)
                              / Qmax (low range) (fl 1e-9)) * 100)) 15
                   = false).
      { apply Qle_bool_gt. apply Hgt. unfold tolerance in *. lra. }
      rewrite Hd. reflexivity.
Qed.

Lemma statusFromBench_bands_witness :
  statusFromBench (R := binary64)
    (Some (mkMetricData (js_number (binary64 0.2)) None None None
             (Some (mkRawRange (Some (binary64 0.05))
                               (Some (binary64 0.11))))
             None None))
    "CPC" "$" lower_is_better = WEAK.
Proof.
  refine (proj2 (proj1 (proj2 (proj2 (proj2
    (statusFromBench_bands (R := binary64)
       (Some (mkMetricData (js_number (binary64 0.2)) None None None
                (Some (mkRawRange (Some (binary64 0.05))
                                  (Some (binary64 0.11))))
                None None))
       "CPC" "$" (binary64 0.2) _ _))))
    binary64_Binary64 _) _).
  - reflexivity.
  - vm_compute. discriminate.
  - vm_compute. discriminate.
  - vm_compute. discriminate.
Defined.

(** ** Benchmark bar: properties *)



















(** X10. For a supplied range with low <= high the zone of the marker
    agrees with the verdict: excellent exactly for [exceeds_target],
    target-range exactly for [on_target], needs-improvement exactly for
    [outside_target]. *)
Theorem calculateBarData_section_matches_verdict {R : Rounding}
    (userValue lo hi : Q)
    (median : option Q) (direction metricUnit metricName : string)
    (bar : BarData) :
  lo <= hi ->
  calculateBarData userValue (Some (mkRawRange (Some lo) (Some hi))) median
    direction metricUnit metricName = Some bar ->
  let verdict :=
    deriveVerdict (Some userValue) (Some (mkRawRange (Some lo) (Some hi)))
      direction in
  (userSection bar = "excellent"%string <-> verdict = exceeds_target)
  /\ (userSection bar = "target-range"%string <-> verdict = on_target)
  /\ (userSection bar = "needs-improvement"%string
      <-> verdict = outside_target).
Proof.
  intros Hord. unfold calculateBarData, deriveVerdict.
  cbn [chain raw_low raw_high low high]. cbv zeta.
  destruct (Qle_bool _ 0); [ discriminate | ].
  intros Hbar. injection Hbar as <-. cbn [userSection].
  destruct (direction =? "lower-is-better")%string;
    destruct (Qltb userValue lo) eqn:H1;
    destruct (Qltb hi userValue) eqn:H2;
    destruct (Qle_bool lo userValue) eqn:H3;
    destruct (Qle_bool userValue hi) eqn:H4;
    cbn [andb]; order_facts; try (exfalso; lra);
    (repeat apply conj; intro H; try reflexivity; discriminate H).
Qed.

Lemma calculateBarData_section_matches_verdict_witness :
  userSection
    {| userPosition := 12500 # 250;
       userSection := "needs-improvement";
       sectionWidths :=
         mkSectionWidths (4500 # 250) (4500 # 250) (4000000 # 62500);
       scalePoints := [0; 4500 # 250; 9000 # 250; 100] |}
  = "needs-improvement"%string
  <-> deriveVerdict (Some 125) (Some (mkRawRange (Some 45) (Some 90)))
        lower_is_better = outside_target.
Proof.
  refine (proj2 (proj2
    (calculateBarData_section_matches_verdict 125 45 90 (Some 60)
       lower_is_better "$" "CPL" _ _ _))).
  - lra.
  - vm_compute. reflexivity.
Defined.

(** ** DiagnosisEngine: further properties *)

Lemma opt_string_eqb_true (a : option string) (b : string) :
  opt_string_eqb a b = true <-> a = Some b.
Proof.
  destruct a as [s |]; cbn [opt_string_eqb].
  - rewrite String.eqb_eq. split; [ intros -> | intros H; injection H ];
      trivial.
  - split; discriminate.
Qed.

Lemma opt_string_eqb_false (a : option string) (b : string) :
  opt_string_eqb a b = false <-> a <> Some b.
Proof.
  rewrite <- opt_string_eqb_true. symmetry. apply not_true_iff_false.
Qed.

(** Turns the tests on the goal status into facts about it. *)
Ltac status_facts :=
  repeat match goal with
  | H : opt_string_eqb _ _ = true |- _ => apply opt_string_eqb_true in H
  | H : opt_string_eqb _ _ = false |- _ => apply opt_string_eqb_false in H
  end.

(** Opens a card and decides the three terminal rules, the three statuses
    and every test after them. *)
Ltac decide_card d :=
  open_card; unfold lower_is_better, higher_is_better in *;
  destruct (Qeq_bool (or_num (clicks (input d)) 0) 0) eqn:?;
  [ | destruct (_ && _ || crSuspicious (benchmarks d)) eqn:?;
      [ | destruct (match budget (input d) with
                    | Some b => Qltb b 500
                    | None => false
                    end) eqn:?;
          [ | destruct (statusFromBench (cpl (benchmarks d)) "CPL" "$"
                          "lower-is-better") eqn:?;
              destruct (statusFromBench (cpc (benchmarks d)) "CPC" "$"
                          "lower-is-better") eqn:?;
              destruct (statusFromBench (cr (benchmarks d)) "CR" "%"
                          "higher-is-better") eqn:?;
              cbn [BenchStatus_eqb negb andb];
              repeat match goal with
              | |- context [if ?c then _ else _] =>
                  lazymatch c with
                  | context [terminal] => fail
                  | context [truthy] => fail
                  | _ => destruct c eqn:?
                  end
              end ] ] ];
  cbn [outcome provisionalInfo kicker shown terminal];
  status_facts.

(** X11. The Budget Too Low card appears exactly when the clicks are a
    number other than zero, the tracking rule does not fire (not zero
    leads on 100 clicks or more, no suspicious conversion rate) and the
    budget is present and below 500: both earlier rules win over it. *)
Theorem budget_floor_rule {R : Rounding} (d : Diagnosis) :
  outcome (renderDiagnosis d) = budget_too_low
  <-> exists c b : Q,
        clicks (input d) = Some c /\ ~ c == 0
        /\ (forall l : Q, leads (input d) = Some l -> l == 0 -> c < 100)
        /\ crSuspicious (benchmarks d) = false
        /\ budget (input d) = Some b /\ b < 500.
Proof.
  split.
  - intros Hout.
    assert (Hrules :
      Qeq_bool (or_num (clicks (input d)) 0) 0 = false
      /\ (match leads (input d) with
          | Some l => Qeq_bool l 0
          | None => false
          end && Qle_bool 100 (or_num (clicks (input d)) 0)
          || crSuspicious (benchmarks d)) = false
      /\ match budget (input d) with
         | Some b => Qltb b 500
         | None => false
         end = true).
    { revert Hout. decide_card d; intros Hout; try discriminate Hout.
      repeat split; reflexivity. }
    destruct Hrules as [H1 [H2 H3]].
    apply orb_false_iff in H2. destruct H2 as [H2 Hs].
    destruct (clicks (input d)) as [c |] eqn:Ec;
      [ | discriminate H1 ].
    destruct (budget (input d)) as [b |] eqn:Eb; [ | discriminate H3 ].
    cbn [or_num] in H1, H2.
    destruct (Qeq_bool c 0) eqn:Ez; [ discriminate H1 | ].
    exists c, b. order_facts.
    repeat apply conj; try reflexivity; try assumption.
    intros l Hl Hl0. rewrite Hl in H2.
    apply Qeq_bool_iff in Hl0. rewrite Hl0 in H2. cbn [andb] in H2.
    order_facts. exact H2.
  - intros [c [b [Hc [Hnz [Hleads [Hs [Hb Hlt]]]]]]].
    open_card.
    destruct (clicks_past_rule_1 _ _ Hc Hnz) as [-> ->].
    assert (Hz :
      match leads (input d) with Some l => Qeq_bool l 0 | None => false end
      && Qle_bool 100 c = false).
    { destruct (leads (input d)) as [l |]; [ | reflexivity ].
      destruct (Qeq_bool l 0) eqn:E0; [ | reflexivity ].
      apply Qeq_bool_iff in E0. apply Qle_bool_gt.
      apply (Hleads l eq_refl E0). }
    rewrite Hz, Hs, Hb. apply Qltb_lt in Hlt. rewrite Hlt. reflexivity.
Qed.

Lemma budget_floor_rule_witness :
  outcome
    (renderDiagnosis
       {| input := mkInput (Some 300) (Some 1000) (Some 40) (Some 80);
          goal_analysis := mkGoalAnalysis None None None;
          benchmarks := mkBenchmarks None None None;
          targets := None;
          overall := None |})
  = budget_too_low.
Proof.
  apply (proj2 (budget_floor_rule _)).
  exists 1000, 300. repeat apply conj; try reflexivity.
  - lra.
  - intros l Hl. injection Hl as <-. lra.
Defined.

(** X12. One of the four fix cards (Fix Conversion Rate, Reduce Traffic
    Cost, Start with CPC, Start with CR) appears exactly when the payload
    gets past the three terminal rules, the goal status is behind and at
    least one of CPL, CPC and CR is WEAK; the Monitor Performance card
    appears exactly when it gets past them, some metric is WEAK and the
    goal status is not behind.  The note on an aggressive goal is only
    ever attached to a fix card, and only for the goal_too_aggressive
    scenario. *)
Theorem fix_cards_need_behind {R : Rounding} (d : Diagnosis) :
  let o := outcome (renderDiagnosis d) in
  let weak :=
    statusFromBench (cpl (benchmarks d)) "CPL" "$" lower_is_better = WEAK
    \/ statusFromBench (cpc (benchmarks d)) "CPC" "$" lower_is_better = WEAK
    \/ statusFromBench (cr (benchmarks d)) "CR" "%" higher_is_better = WEAK in
  let behind := overall d ?. goal_status = Some "behind"%string in
  ((o = fix_conversion_rate \/ o = reduce_traffic_cost
    \/ o = fix_cpc_first \/ o = fix_cr_first)
   <-> terminal o = false /\ behind /\ weak)
  /\ (o = monitor_performance <-> terminal o = false /\ ~ behind /\ weak)
  /\ (kicker (renderDiagnosis d) = true ->
      (o = fix_conversion_rate \/ o = reduce_traffic_cost
       \/ o = fix_cpc_first \/ o = fix_cr_first)
      /\ goal_scenario (goal_analysis d) = Some "goal_too_aggressive"%string).
Proof.
  cbv zeta.
  decide_card d; repeat apply conj; intros; status_facts;
    try discriminate; intuition congruence.
Qed.

Lemma fix_cards_need_behind_witness :
  (outcome
     (renderDiagnosis
        {| input := mkInput (Some 5000) (Some 1000) (Some 40) (Some 80);
           goal_analysis :=
             mkGoalAnalysis (Some "goal_too_aggressive"%string) (Some 95)
               None;
           benchmarks :=
             mkBenchmarks
               (Some (mkMetricData (js_number 125) (Some 60) (Some 45) (Some 90)
                        None None None))
               None None;
           targets := None;
           overall := Some (mkOverall (Some "behind"%string)) |})
   = fix_conversion_rate
   \/ outcome
        (renderDiagnosis
           {| input := mkInput (Some 5000) (Some 1000) (Some 40) (Some 80);
              goal_analysis :=
                mkGoalAnalysis (Some "goal_too_aggressive"%string) (Some 95)
                  None;
              benchmarks :=
                mkBenchmarks
                  (Some (mkMetricData (js_number 125) (Some 60) (Some 45)
                           (Some 90) None None None))
                  None None;
              targets := None;
              overall := Some (mkOverall (Some "behind"%string)) |})
      = reduce_traffic_cost
   \/ outcome
        (renderDiagnosis
           {| input := mkInput (Some 5000) (Some 1000) (Some 40) (Some 80);
              goal_analysis :=
                mkGoalAnalysis (Some "goal_too_aggressive"%string) (Some 95)
                  None;
              benchmarks :=
                mkBenchmarks
                  (Some (mkMetricData (js_number 125) (Some 60) (Some 45)
                           (Some 90) None None None))
                  None None;
              targets := None;
              overall := Some (mkOverall (Some "behind"%string)) |})
      = fix_cpc_first
   \/ outcome
        (renderDiagnosis
           {| input := mkInput (Some 5000) (Some 1000) (Some 40) (Some 80);
              goal_analysis :=
                mkGoalAnalysis (Some "goal_too_aggressive"%string) (Some 95)
                  None;
              benchmarks :=
                mkBenchmarks
                  (Some (mkMetricData (js_number 125) (Some 60) (Some 45)
                           (Some 90) None None None))
                  None None;
              targets := None;
              overall := Some (mkOverall (Some "behind"%string)) |})
      = fix_cr_first)
  /\ goal_scenario
       (goal_analysis
          {| input := mkInput (Some 5000) (Some 1000) (Some 40) (Some 80);
             goal_analysis :=
               mkGoalAnalysis (Some "goal_too_aggressive"%string) (Some 95)
                 None;
             benchmarks :=
               mkBenchmarks
                 (Some (mkMetricData (js_number 125) (Some 60) (Some 45)
                          (Some 90) None None None))
                 None None;
             targets := None;
             overall := Some (mkOverall (Some "behind"%string)) |})
     = Some "goal_too_aggressive"%string.
Proof.
  apply (proj2 (proj2 (fix_cards_need_behind _))). reflexivity.
Defined.

(** The test that picks Start with CPC among the two both-lever cards. *)
Lemma cpc_first_test {R : Rounding} (d : Diagnosis) :
  js_gtb (chain_value (cpc (benchmarks d)))
    (fl (high (ensureTargetRange (cpc (benchmarks d)) "$" "CPC") * 1.5))
  && negb (js_ltb (chain_value (cr (benchmarks d)))
             (fl (low (ensureTargetRange (cr (benchmarks d)) "%" "CR")
                  * 0.5)))
  = true
  <-> (exists v : Q,
         compared (chain_value (cpc (benchmarks d))) = Some v
         /\ fl (high (ensureTargetRange (cpc (benchmarks d)) "$" "CPC")
                * 1.5) < v)
      /\ (forall w : Q,
            compared (chain_value (cr (benchmarks d))) = Some w ->
            fl (low (ensureTargetRange (cr (benchmarks d)) "%" "CR") * 0.5)
            <= w).
Proof.
  rewrite andb_true_iff, negb_true_iff. unfold js_gtb, js_ltb.
  destruct (compared (chain_value (cpc (benchmarks d)))) as [v |];
    destruct (compared (chain_value (cr (benchmarks d)))) as [w |].
  - rewrite Qltb_lt, Qltb_ge. split.
    + intros [Hv Hw]. split; [ exists v; split; [ reflexivity | exact Hv ] | ].
      intros w' Hw'. injection Hw' as <-. exact Hw.
    + intros [[v' [Hv' Hlt]] Hw]. injection Hv' as <-.
      split; [ exact Hlt | apply Hw; reflexivity ].
  - rewrite Qltb_lt. split.
    + intros [Hv _]. split; [ exists v; split; [ reflexivity | exact Hv ] | ].
      intros w' Hw'. discriminate Hw'.
    + intros [[v' [Hv' Hlt]] _]. injection Hv' as <-.
      split; [ exact Hlt | reflexivity ].
  - split; [ intros [H _]; discriminate H | ].
    intros [[v' [Hv' _]] _]. discriminate Hv'.
  - split; [ intros [H _]; discriminate H | ].
    intros [[v' [Hv' _]] _]. discriminate Hv'.
Qed.

(** X13. Behind the goal, past the terminal rules and with some metric
    WEAK, the lever is chosen from the statuses of CPC and CR alone: Fix
    Conversion Rate exactly when CR is WEAK and CPC is not, Reduce Traffic
    Cost exactly when CPC is WEAK and CR is not, and one of the two
    both-lever cards in every other case, also when only CPL is WEAK.
    Among these two, Start with CPC is shown exactly when the CPC value
    is above 1.5 times the high bound of its range, as the code computes
    the product, and the CR value is not below half the low bound of its
    range; in both tests a value of [null] is compared as 0 and an
    undefined one fails the comparison. *)
Theorem lever_choice {R : Rounding} (d : Diagnosis) :
  let o := outcome (renderDiagnosis d) in
  let cplWeak :=
    statusFromBench (cpl (benchmarks d)) "CPL" "$" lower_is_better = WEAK in
  let cpcWeak :=
    statusFromBench (cpc (benchmarks d)) "CPC" "$" lower_is_better = WEAK in
  let crWeak :=
    statusFromBench (cr (benchmarks d)) "CR" "%" higher_is_better = WEAK in
  terminal o = false ->
  overall d ?. goal_status = Some "behind"%string ->
  cplWeak \/ cpcWeak \/ crWeak ->
  (o = fix_conversion_rate <-> crWeak /\ ~ cpcWeak)
  /\ (o = reduce_traffic_cost <-> cpcWeak /\ ~ crWeak)
  /\ (o = fix_cpc_first \/ o = fix_cr_first <-> (crWeak <-> cpcWeak))
  /\ (o = fix_cpc_first
      <-> (crWeak <-> cpcWeak)
          /\ (exists v : Q,
                compared (chain_value (cpc (benchmarks d))) = Some v
                /\ fl (high (ensureTargetRange (cpc (benchmarks d)) "$"
                               "CPC") * 1.5) < v)
          /\ (forall w : Q,
                compared (chain_value (cr (benchmarks d))) = Some w ->
                fl (low (ensureTargetRange (cr (benchmarks d)) "%" "CR")
                    * 0.5) <= w)).
Proof.
  cbv zeta. pose proof (cpc_first_test d) as Htest. revert Htest.
  decide_card d; intros Htest; repeat apply conj; intros; status_facts;
    try discriminate; intuition congruence.
Qed.

Lemma lever_choice_witness :
  outcome
    (renderDiagnosis (R := binary64)
       {| input := mkInput (Some 5000) (Some 1000) (Some 40) (Some 80);
          goal_analysis := mkGoalAnalysis None None None;
          benchmarks :=
            mkBenchmarks
              (Some (mkMetricData (js_number 125) (Some 60) (Some 45) (Some 90)
                       None None None))
              (Some (mkMetricData (js_number 3) (Some 3) (Some 2) (Some 4)
                       None None None))
              (Some (mkMetricData (js_number (binary64 0.04))
                       (Some (binary64 0.05)) (Some (binary64 0.03))
                       (Some (binary64 0.08)) None None None));
          targets := None;
          overall := Some (mkOverall (Some "behind"%string)) |})
  = fix_cpc_first
  \/
  outcome
    (renderDiagnosis (R := binary64)
       {| input := mkInput (Some 5000) (Some 1000) (Some 40) (Some 80);
          goal_analysis := mkGoalAnalysis None None None;
          benchmarks :=
            mkBenchmarks
              (Some (mkMetricData (js_number 125) (Some 60) (Some 45) (Some 90)
                       None None None))
              (Some (mkMetricData (js_number 3) (Some 3) (Some 2) (Some 4)
                       None None None))
              (Some (mkMetricData (js_number (binary64 0.04))
                       (Some (binary64 0.05)) (Some (binary64 0.03))
                       (Some (binary64 0.08)) None None None));
          targets := None;
          overall := Some (mkOverall (Some "behind"%string)) |})
  = fix_cr_first.
Proof.
  refine (proj2 (proj1 (proj2 (proj2
    (lever_choice (R := binary64) _ _ _ _)))) _).
  - reflexivity.
  - reflexivity.
  - left. vm_compute. reflexivity.
  - vm_compute. split; discriminate.
Defined.

(** ** ScenarioSolver *)

Import ScenarioBuilder.

Lemma clamp_upper (v min max : Q) : clamp v min max <= max.
Proof.
  unfold clamp. apply Q.le_min_r.
Qed.

Lemma clamp_lower (v min max : Q) : min <= max -> min <= clamp v min max.
Proof.
  intros H. unfold clamp. split_minmax; lra.
Qed.

Lemma clamp_inside (v min max : Q) :
  min <= v <= max -> clamp v min max == v.
Proof.
  intros H. unfold clamp. split_minmax; lra.
Qed.

Lemma get_set_same (state : State) (key : Key) (v : Q) :
  get (set state key v) key = v.
Proof.
  destruct key; reflexivity.
Qed.

Lemma get_set_other (state : State) (key key' : Key) (v : Q) :
  key <> key' -> get (set state key v) key' = get state key'.
Proof.
  destruct key, key'; intros H; try reflexivity; contradiction H; reflexivity.
Qed.



(** Text that does not parse to a finite number leaves the state as it
    is. *)
Lemma updateState_not_finite {R : Rounding} (parseFloat : string -> Parsed)
    (bounds : Bounds) (state : State) (key : Key)
    (rawValue : string) (isFromNumeric : bool) :
  (forall num : Q, parseFloat rawValue <> Finite num) ->
  updateState parseFloat bounds state key rawValue isFromNumeric = state.
Proof.
  intros H. unfold updateState.
  destruct (parseFloat rawValue) as [| neg | num];
    [ reflexivity | reflexivity | contradiction (H num); reflexivity ].
Qed.

(** A finite number, a conversion rate typed as a percentage first
    divided by 100, is stored after [clamp]; the two other fields keep
    their values, and the stored value lies within the two bounds of the
    field when these are in order. *)
Lemma updateState_finite {R : Rounding} (parseFloat : string -> Parsed)
    (bounds : Bounds) (state : State) (key : Key)
    (rawValue : string) (isFromNumeric : bool) (num : Q) :
  parseFloat rawValue = Finite num ->
  let entered :=
    if match key with key_cr => true | _ => false end && isFromNumeric
    then fl (num / 100) else num in
  let state' :=
    updateState parseFloat bounds state key rawValue isFromNumeric in
  get state' key
  = clamp entered (keyMin bounds key) (keyMax bounds key)
  /\ (forall key' : Key, key <> key' -> get state' key' = get state key')
  /\ get state' key <= keyMax bounds key
  /\ (keyMin bounds key <= keyMax bounds key ->
      keyMin bounds key <= get state' key)
  /\ (keyMin bounds key <= entered <= keyMax bounds key ->
      get state' key == entered).
Proof.
  intros Hparse entered state'. subst state'.
  unfold updateState. rewrite Hparse. fold entered.
  rewrite get_set_same.
  repeat apply conj.
  - reflexivity.
  - intros key' Hk. apply get_set_other. exact Hk.
  - apply clamp_upper.
  - apply clamp_lower.
  - apply clamp_inside.
Qed.

(** The budget bounds of the builder are always in order. *)
Lemma initialBounds_budget_ordered (d : Payload) :
  budgetMin (initialBounds d) <= budgetMax (initialBounds d).
Proof.
  unfold initialBounds. cbn [budgetMin budgetMax].
  split_minmax; lra.
Qed.

(** C8, at a payload the builder can receive.  For a campaign with a CPC
    of 3 and a conversion rate of 0 the builder is shown, the repair of the
    conversion-rate bounds leaves crMin = 0.001 above crMax = 0, and typing
    5 (percent) in the numeric conversion-rate field stores 0: the field
    is below its minimum, not within its bounds. *)
Theorem updateState_inverted_bounds {R : Rounding}
    (parseFloat : string -> Parsed) :
  parseFloat "5"%string = Finite 5 ->
  exists (state : State) (bounds : Bounds),
    renderScenarioBuilder
      (mkPayload None
         (Some (mkBenchmarks None
                  (Some (mkMetricData (js_number 3) None None None None
                           None None))
                  (Some (mkMetricData (js_number 0) None None None None None
                           None)))))
    = Some (state, bounds)
    /\ crMax bounds < crMin bounds
    /\ cr (updateState parseFloat bounds state key_cr "5" true) == 0
    /\ cr (updateState parseFloat bounds state key_cr "5" true)
       < crMin bounds.
Proof.
  intros Hparse. eexists. eexists.
  split; [ vm_compute; reflexivity | ].
  unfold updateState. rewrite Hparse.
  cbn [andb set cr keyMin keyMax crMin crMax]. unfold clamp.
  generalize (fl (5 / 100)). intros entered.
  split; [ vm_compute; reflexivity | ].
  split; split_minmax; lra.
Qed.

Lemma updateState_inverted_bounds_witness :
  exists (state : State) (bounds : Bounds),
    renderScenarioBuilder
      (mkPayload None
         (Some (mkBenchmarks None
                  (Some (mkMetricData (js_number 3) None None None None
                           None None))
                  (Some (mkMetricData (js_number 0) None None None None None
                           None)))))
    = Some (state, bounds)
    /\ crMax bounds < crMin bounds
    /\ cr (updateState (fun _ => Finite 5) bounds state
                key_cr "5" true) == 0
    /\ cr (updateState (fun _ => Finite 5) bounds state
                key_cr "5" true)
       < crMin bounds.
Proof.
  apply (updateState_inverted_bounds (fun _ => Finite 5)). reflexivity.
Defined.

(** ** ScenarioSolver: further properties *)

(** X15. In exact arithmetic the derived values are consistent with one
    another.  Clicks are never negative, leads are not negative for a
    budget that is not, a CPC that is not positive gives no clicks and no
    leads, a conversion rate that is not positive gives no leads and no
    CPL.  For a positive budget, CPC and conversion rate: clicks times CPC
    is the budget, leads are clicks times the conversion rate, and CPL
    times leads is the budget. *)
Theorem compute_consistent (state : State) :
  0 <= clicks (compute state)
  /\ (0 <= budget state -> 0 <= leads (compute state))
  /\ (cpc state <= 0 ->
      clicks (compute state) == 0 /\ leads (compute state) == 0)
  /\ (cr state <= 0 ->
      leads (compute state) == 0 /\ cpl (compute state) = None)
  /\ (0 < budget state -> 0 < cpc state -> 0 < cr state ->
      clicks (compute state) * cpc state == budget state
      /\ leads (compute state) == clicks (compute state) * cr state
      /\ exists c : Q,
           cpl (compute state) = Some c
           /\ c * leads (compute state) == budget state).
Proof.
  unfold compute. cbn [clicks leads cpl]. exact_arithmetic.
  destruct (Qltb 0 (budget state)) eqn:Hb;
    destruct (Qltb 0 (cpc state)) eqn:Hc;
    destruct (Qltb 0 (cr state)) eqn:Hr; cbn [andb]; order_facts.
  all: repeat apply conj; intros;
    try (exfalso; lra); try reflexivity; try lra.
  all: try (split; reflexivity).
  all: match goal with
       | |- 0 <= _ * _ / _ =>
           apply Qle_shift_div_l;
           [ lra | rewrite Qmult_0_l; apply Qmult_le_0_compat; lra ]
       | |- 0 <= _ / _ => apply Qle_shift_div_l; lra
       | |- _ /\ _ =>
           split; [ field; lra | ];
           split; [ field; lra | ];
           eexists; split; [ reflexivity | field; split; lra ]
       end.
Qed.

Lemma compute_consistent_witness :
  clicks (compute (mkState 5000 3 0.04)) * 3 == 5000.
Proof.
  destruct (compute_consistent (mkState 5000 3 0.04))
    as [_ [_ [_ [_ H]]]].
  destruct (H eq_refl eq_refl eq_refl) as [E _]. exact E.
Defined.

(** X16. With goal > 0 and cr > 0, Solve for Goal via CPC leaves budget
    and conversion rate alone and sets CPC to
    clamp(goal * cr, cpcMin, cpcMax), the product rounded.  When the clamp
    leaves the product as it is, the recomputed CPL is the goal up to
    rounding, for every rounding with the laws of [Binary64]: it is off
    by no more than three relative errors of the goal, and an absolute
    error divided by the conversion rate. *)
Theorem snap_cpc_round_trip {R : Rounding} (bounds : Bounds) (state : State)
    (goal : Q) :
  Binary64 R ->
  0 < goal ->
  0 < cr state ->
  budget (snap_cpc bounds (Some goal) state) = budget state
  /\ cr (snap_cpc bounds (Some goal) state) = cr state
  /\ cpc (snap_cpc bounds (Some goal) state)
     = clamp (fl (goal * cr state)) (cpcMin bounds) (cpcMax bounds)
  /\ (clamp (fl (goal * cr state)) (cpcMin bounds) (cpcMax bounds)
      == fl (goal * cr state) ->
      exists c : Q,
        cpl (compute (snap_cpc bounds (Some goal) state)) = Some c
        /\ Qabs (c - goal)
           <= 3 * rel_error * goal + abs_error * (2 / cr state + 1)).
Proof.
  intros HR Hgoal Hcr.
  assert (Hsnap :
    snap_cpc bounds (Some goal) state
    = set state key_cpc
        (clamp (fl (goal * cr state)) (cpcMin bounds) (cpcMax bounds))).
  { unfold snap_cpc, truthy.
    assert (H0 : Qeq_bool goal 0 = false) by (apply Qeq_bool_false; lra).
    apply Qltb_lt in Hgoal, Hcr. rewrite H0, Hgoal, Hcr. reflexivity. }
  rewrite Hsnap. cbn [set budget cpc cr].
  unfold compute. cbn [cpl cpc cr].
  repeat apply conj; try reflexivity.
  intros Hfree.
  pose proof Hcr as Hpos. apply Qltb_lt in Hpos. rewrite Hpos.
  eexists. split; [ reflexivity | ].
  set (r := cr state) in *.
  assert (Hp0 : 0 <= goal * r) by (apply Qmult_le_0_compat; lra).
  destruct (fl_near_pos (goal * r) HR Hp0) as [Hk1 Hk2].
  revert Hfree.
  generalize (clamp (fl (goal * r)) (cpcMin bounds) (cpcMax bounds)).
  intros k Hfree.
  set (A := abs_error / r).
  assert (EA : A * r == abs_error) by (unfold A; field; lra).
  assert (HA : 0 <= A) by (apply Qle_shift_div_l; unfold abs_error; lra).
  assert (Hq2 : k / r <= goal + rel_error * goal + A).
  { apply Qle_shift_div_r; [ exact Hcr | ].
    assert (E : (goal + rel_error * goal + A) * r
                == goal * r + rel_error * (goal * r) + A * r) by ring.
    lra. }
  assert (Hq1 : goal - rel_error * goal - A <= k / r).
  { apply Qle_shift_div_l; [ exact Hcr | ].
    assert (E : (goal - rel_error * goal - A) * r
                == goal * r - rel_error * (goal * r) - A * r) by ring.
    lra. }
  assert (Hb : Qabs (k / r) <= goal + rel_error * goal + A).
  { apply Qabs_Qle_condition. unfold rel_error in *. lra. }
  destruct (fl_near (k / r) _ HR Hb) as [Hc1 Hc2].
  assert (E2 : abs_error * (2 / r + 1) == 2 * A + abs_error)
    by (unfold A; field; lra).
  rewrite E2. apply Qabs_Qle_condition.
  clearbody A. unfold rel_error, abs_error in *. lra.
Qed.

Lemma snap_cpc_round_trip_witness :
  exists c : Q,
    cpl (compute (R := binary64)
           (snap_cpc (R := binary64)
              (mkBounds 0 10000 (binary64 0.2) 20 (binary64 0.001) 1)
              (Some 11) (mkState 5000 (binary64 0.4) (binary64 0.03))))
    = Some c
    /\ Qabs (c - 11)
       <= 3 * rel_error * 11 + abs_error * (2 / binary64 0.03 + 1).
Proof.
  refine (proj2 (proj2 (proj2
    (snap_cpc_round_trip (R := binary64)
       (mkBounds 0 10000 (binary64 0.2) 20 (binary64 0.001) 1)
       (mkState 5000 (binary64 0.4) (binary64 0.03)) 11
       binary64_Binary64 _ _))) _).
  - reflexivity.
  - reflexivity.
  - vm_compute. reflexivity.
Defined.

(** X14. The round trip of Solve for Goal via CR under rounding: with
    goal > 0, cpc > 0 and cpc / goal not so small that the absolute
    error counts, when the clamp leaves the rounded quotient as it is,
    the recomputed CPL is the goal up to five relative errors of it and
    one absolute error, for every rounding with the laws of
    [Binary64]. *)
Theorem snap_cr_round_trip_rounded {R : Rounding} (bounds : Bounds)
    (state : State) (goal : Q) :
  Binary64 R ->
  0 < goal ->
  0 < cpc state ->
  abs_error * goal <= rel_error * cpc state ->
  clamp (fl (cpc state / goal)) (crMin bounds) (crMax bounds)
  == fl (cpc state / goal) ->
  exists c : Q,
    cpl (compute (snap_cr bounds (Some goal) state)) = Some c
    /\ Qabs (c - goal) <= 5 * rel_error * goal + abs_error.
Proof.
  intros HR Hgoal Hcpc Hscale Hfree.
  assert (Hsnap :
    snap_cr bounds (Some goal) state
    = set state key_cr
        (clamp (fl (cpc state / goal)) (crMin bounds) (crMax bounds))).
  { unfold snap_cr, truthy.
    assert (H0 : Qeq_bool goal 0 = false) by (apply Qeq_bool_false; lra).
    pose proof Hgoal as Hg. pose proof Hcpc as Hc.
    apply Qltb_lt in Hg, Hc. rewrite H0, Hg, Hc. reflexivity. }
  rewrite Hsnap. unfold compute. cbn [set cpl cpc cr].
  set (c := cpc state) in *.
  assert (Hq0 : 0 < c / goal) by (apply Qlt_shift_div_l; lra).
  destruct (fl_near_pos (c / goal) HR ltac:(lra)) as [Hr1 Hr2].
  assert (EQ : goal * (c / goal) == c) by (field; lra).
  assert (Habs : abs_error <= rel_error * (c / goal)).
  { apply Qle_shift_div_l in Hscale; [ | exact Hgoal ].
    assert (E : rel_error * c / goal == rel_error * (c / goal))
      by (field; lra).
    lra. }
  set (q := c / goal) in *.
  revert Hfree.
  generalize (clamp (fl q) (crMin bounds) (crMax bounds)). intros r Hfree.
  assert (Hr0 : 0 < r) by (unfold rel_error in *; lra).
  pose proof Hr0 as Hpos. apply Qltb_lt in Hpos. rewrite Hpos.
  eexists. split; [ reflexivity | ].
  assert (Hm1 : goal * (q * (1 - 2 * rel_error)) <= goal * r)
    by (apply Qmult_le_l; [ exact Hgoal | lra ]).
  assert (Hm2 : goal * r <= goal * (q * (1 + 2 * rel_error)))
    by (apply Qmult_le_l; [ exact Hgoal | lra ]).
  assert (E1 : goal * (q * (1 - 2 * rel_error))
               == (1 - 2 * rel_error) * (goal * q)) by ring.
  assert (E2 : goal * (q * (1 + 2 * rel_error))
               == (1 + 2 * rel_error) * (goal * q)) by ring.
  assert (Hu : c / r <= goal * (1 + 3 * rel_error)).
  { apply Qle_shift_div_r; [ exact Hr0 | ].
    assert (E : goal * (1 + 3 * rel_error) * r
                == (1 + 3 * rel_error) * (goal * r)) by ring.
    unfold rel_error in *. lra. }
  assert (Hl : goal * (1 - 2 * rel_error) <= c / r).
  { apply Qle_shift_div_l; [ exact Hr0 | ].
    assert (E : goal * (1 - 2 * rel_error) * r
                == (1 - 2 * rel_error) * (goal * r)) by ring.
    unfold rel_error in *. lra. }
  assert (Hx0 : 0 <= c / r) by (unfold rel_error in *; lra).
  destruct (fl_near_pos (c / r) HR Hx0) as [Hc1 Hc2].
  apply Qabs_Qle_condition.
  unfold rel_error, abs_error in *. lra.
Qed.

Lemma snap_cr_round_trip_rounded_witness :
  exists c : Q,
    cpl (compute (R := binary64)
           (snap_cr (R := binary64)
              (mkBounds 0 10000 (binary64 0.2) 20 (binary64 0.001) 1)
              (Some 11) (mkState 5000 (binary64 0.4) (binary64 0.04))))
    = Some c
    /\ Qabs (c - 11) <= 5 * rel_error * 11 + abs_error.
Proof.
  refine (snap_cr_round_trip_rounded (R := binary64)
            (mkBounds 0 10000 (binary64 0.2) 20 (binary64 0.001) 1)
            (mkState 5000 (binary64 0.4) (binary64 0.04)) 11
            binary64_Binary64 _ _ _ _).
  - reflexivity.
  - reflexivity.
  - vm_compute. discriminate.
  - vm_compute. reflexivity.
Defined.

(** X17. The bounds the builder starts with are in order for the budget
    always, for the CPC when the initial CPC is at least 0.1, and for the
    conversion rate when the initial conversion rate is between 0.0005
    and 2. *)
Theorem initialBounds_ordered (d : Payload) :
  budgetMin (initialBounds d) <= budgetMax (initialBounds d)
  /\ (0.1 <= cpc (initialState d) ->
      cpcMin (initialBounds d) <= cpcMax (initialBounds d))
  /\ (0.0005 <= cr (initialState d) <= 2 ->
      crMin (initialBounds d) <= crMax (initialBounds d)).
Proof.
  split; [ apply initialBounds_budget_ordered | ].
  unfold initialBounds. cbv zeta. cbn [cpcMin cpcMax crMin crMax].
  split.
  - intros H.
    destruct (Qle_bool (or_num (Some _) 20) (Qmax 0.2 _)) eqn:Hrepair;
      order_facts; [ split_minmax; lra | lra ].
  - intros H.
    destruct (Qle_bool (Qmin 1.0 _) (Qmax 0.001 _)) eqn:Hrepair;
      order_facts; [ split_minmax; lra | lra ].
Qed.

Lemma initialBounds_ordered_witness :
  cpcMin (initialBounds
            (mkPayload None
               (Some (mkBenchmarks None
                        (Some (mkMetricData (js_number 3) None None None None
                                 None None))
                        (Some (mkMetricData (js_number 0.04) None None None None
                                 None None))))))
  <= cpcMax (initialBounds
               (mkPayload None
                  (Some (mkBenchmarks None
                           (Some (mkMetricData (js_number 3) None None None None
                                    None None))
                           (Some (mkMetricData (js_number 0.04) None None None
                                    None None None)))))).
Proof.
  apply (proj1 (proj2 (initialBounds_ordered _))).
  vm_compute. discriminate.
Defined.

Lemma set_withinBounds (bounds : Bounds) (state : State) (key : Key)
    (v : Q) :
  withinBounds bounds state ->
  keyMin bounds key <= v <= keyMax bounds key ->
  withinBounds bounds (set state key v).
Proof.
  intros Hs Hv key'. specialize (Hs key').
  destruct key, key'; cbn [get set budget cpc cr keyMin keyMax] in *;
    lra.
Qed.

Lemma clamp_within (v min max : Q) :
  min <= max -> min <= clamp v min max <= max.
Proof.
  intros H. split; [ apply clamp_lower; exact H | apply clamp_upper ].
Qed.

(** X18. When the bounds of the three fields are in order and the initial
    state lies within them, every state reached by any sequence of slider
    moves, numeric entries and clicks (Reset and the two solvers
    included) lies within the bounds, whatever text is entered. *)
Theorem handleEvents_within_bounds {R : Rounding}
    (parseFloat : string -> Parsed)
    (bounds : Bounds) (goal : option Q) (current : State)
    (events : list Event) :
  (forall key : Key, keyMin bounds key <= keyMax bounds key) ->
  withinBounds bounds current ->
  withinBounds bounds
    (handleEvents parseFloat bounds goal current current events).
Proof.
  intros Hord Hcur. unfold handleEvents.
  assert (Hstep :
    forall (state : State) (e : Event),
      withinBounds bounds state ->
      withinBounds bounds (handleEvent parseFloat bounds goal current state e)).
  { assert (Hupd :
      forall (state : State) (key : Key) (raw : string) (pct : bool),
        withinBounds bounds state ->
        withinBounds bounds (updateState parseFloat bounds state key raw pct)).
    { intros state key raw pct Hs. unfold updateState.
      destruct (parseFloat raw); try exact Hs.
      apply set_withinBounds; [ exact Hs | ].
      apply clamp_within. apply Hord. }
    assert (Hcrs :
      forall state : State,
        withinBounds bounds state ->
        withinBounds bounds (snap_cr bounds goal state)).
    { intros state Hs. unfold snap_cr.
      destruct goal as [g |]; [ | exact Hs ].
      destruct (_ && _); [ | exact Hs ].
      apply set_withinBounds; [ exact Hs | ].
      apply (clamp_within _ _ _ (Hord key_cr)). }
    assert (Hcpcs :
      forall state : State,
        withinBounds bounds state ->
        withinBounds bounds (snap_cpc bounds goal state)).
    { intros state Hs. unfold snap_cpc.
      destruct goal as [g |]; [ | exact Hs ].
      destruct (_ && _); [ | exact Hs ].
      apply set_withinBounds; [ exact Hs | ].
      apply (clamp_within _ _ _ (Hord key_cpc)). }
    intros state e Hs. destruct e as [id value | id value | id];
      cbn [handleEvent].
    - destruct (sliderKey id); [ apply Hupd | ]; exact Hs.
    - destruct (numericKey id); [ apply Hupd | ]; exact Hs.
    - destruct id; try exact Hs; try exact Hcur;
        [ apply Hcrs | apply Hcpcs ]; exact Hs. }
  assert (Hrun :
    forall state : State,
      withinBounds bounds state ->
      withinBounds bounds
        (fold_left (handleEvent parseFloat bounds goal current) events
           state)).
  { induction events as [| e rest IH]; intros state Hs.
    - exact Hs.
    - cbn [fold_left]. apply IH. apply Hstep. exact Hs. }
  apply Hrun. exact Hcur.
Qed.

Lemma handleEvents_within_bounds_witness :
  withinBounds (mkBounds 0 10000 1.5 5.4 0.012 0.1)
    (handleEvents (fun _ => Finite 500)
       (mkBounds 0 10000 1.5 5.4 0.012 0.1) (Some 60)
       (mkState 5000 3 0.04) (mkState 5000 3 0.04)
       [onchange sb_cr_n "500"; onclick sb_snap_cpc; oninput sb_budget "500";
        onclick sb_reset; onclick sb_snap_cr]).
Proof.
  apply handleEvents_within_bounds.
  - intros key. destruct key; vm_compute; discriminate.
  - intros key. destruct key; split; vm_compute; discriminate.
Defined.

(** X19. Every event is idempotent: handling the same event a second time
    leaves the state as the first time left it. *)
Theorem handleEvent_idempotent {R : Rounding} (parseFloat : string -> Parsed)
    (bounds : Bounds) (goal : option Q) (current state : State)
    (e : Event) :
  handleEvent parseFloat bounds goal current
    (handleEvent parseFloat bounds goal current state e) e
  = handleEvent parseFloat bounds goal current state e.
Proof.
  destruct e as [id value | id value | id]; cbn [handleEvent].
  - destruct (sliderKey id) as [key |]; [ | reflexivity ].
    unfold updateState. destruct (parseFloat value); try reflexivity.
    destruct key; reflexivity.
  - destruct (numericKey id) as [key |]; [ | reflexivity ].
    unfold updateState. destruct (parseFloat value); try reflexivity.
    destruct key; reflexivity.
  - destruct id; try reflexivity.
    + unfold snap_cr. destruct goal as [g |]; [ | reflexivity ].
      destruct (truthy (Some g) && Qltb 0 g && Qltb 0 (cpc state)) eqn:H;
        cbn [set cpc]; rewrite H; reflexivity.
    + unfold snap_cpc. destruct goal as [g |]; [ | reflexivity ].
      destruct (truthy (Some g) && Qltb 0 g && Qltb 0 (cr state)) eqn:H;
        cbn [set cr]; rewrite H; reflexivity.
Qed.

(** X20. The two solvers agree up to rounding: after Solve for Goal via
    CR has set the conversion rate without being clamped, Solve for Goal
    via CPC changes neither the budget nor the conversion rate, and for a
    CPC within its bounds it moves the CPC by no more than three relative
    errors of it, and an absolute error times the goal, for every
    rounding with the laws of [Binary64]. *)
Theorem snap_cpc_after_snap_cr {R : Rounding} (bounds : Bounds)
    (state : State) (goal : Q) :
  Binary64 R ->
  0 < goal ->
  0 < cpc state ->
  clamp (fl (cpc state / goal)) (crMin bounds) (crMax bounds)
  == fl (cpc state / goal) ->
  cpcMin bounds <= cpc state <= cpcMax bounds ->
  let solved := snap_cr bounds (Some goal) state in
  budget (snap_cpc bounds (Some goal) solved) = budget solved
  /\ cr (snap_cpc bounds (Some goal) solved) = cr solved
  /\ Qabs (cpc (snap_cpc bounds (Some goal) solved) - cpc solved)
     <= 3 * rel_error * cpc state + abs_error * (2 * goal + 1).
Proof.
  intros HR Hgoal Hcpc Hfree Hin solved.
  assert (Enz : Qeq_bool goal 0 = false) by (apply Qeq_bool_false; lra).
  assert (Esolved :
    solved
    = set state key_cr
        (clamp (fl (cpc state / goal)) (crMin bounds) (crMax bounds))).
  { subst solved. unfold snap_cr, truthy.
    pose proof Hgoal as Hg. pose proof Hcpc as Hc.
    apply Qltb_lt in Hg, Hc. rewrite Enz, Hg, Hc. reflexivity. }
  assert (Ecpc : cpc solved = cpc state) by (rewrite Esolved; reflexivity).
  assert (Hcr : cr solved == fl (cpc state / goal))
    by (rewrite Esolved; exact Hfree).
  assert (Hsmall :
    0 <= 3 * rel_error * cpc state + abs_error * (2 * goal + 1)).
  { unfold rel_error, abs_error. lra. }
  unfold snap_cpc. cbn [truthy]. rewrite Enz.
  pose proof Hgoal as Hg. apply Qltb_lt in Hg. rewrite Hg. cbn [negb andb].
  destruct (Qltb 0 (cr solved)) eqn:Hpos; order_facts.
  - cbn [set budget cpc cr]. rewrite Ecpc.
    split; [ reflexivity | split; [ reflexivity | ] ].
    set (c := cpc state) in *. set (r := cr solved) in *.
    assert (Hq0 : 0 <= c / goal) by (apply Qle_shift_div_l; lra).
    destruct (fl_near_pos (c / goal) HR Hq0) as [Hr1 Hr2].
    assert (EQ : goal * (c / goal) == c) by (field; lra).
    set (q := c / goal) in *.
    assert (Hp1 : goal * (q - (rel_error * q + abs_error)) <= goal * r)
      by (apply Qmult_le_l; lra).
    assert (Hp2 : goal * r <= goal * (q + (rel_error * q + abs_error)))
      by (apply Qmult_le_l; lra).
    assert (E1 : goal * (q - (rel_error * q + abs_error))
                 == goal * q - rel_error * (goal * q) - goal * abs_error)
      by ring.
    assert (E2 : goal * (q + (rel_error * q + abs_error))
                 == goal * q + rel_error * (goal * q) + goal * abs_error)
      by ring.
    assert (Hp0 : 0 <= goal * r) by (apply Qmult_le_0_compat; lra).
    destruct (fl_near_pos (goal * r) HR Hp0) as [Hx1 Hx2].
    set (x := fl (goal * r)) in *.
    assert (Hx : Qabs (x - c)
                 <= 3 * rel_error * c + abs_error * (2 * goal + 1)).
    { apply Qabs_Qle_condition.
      clearbody x q r. unfold rel_error, abs_error in *. lra. }
    apply Qabs_Qle_condition in Hx. apply Qabs_Qle_condition.
    unfold clamp. clearbody x. split_minmax; lra.
  - cbn [cpc]. rewrite Ecpc.
    split; [ reflexivity | split; [ reflexivity | ] ].
    setoid_replace (cpc state - cpc state) with 0 by ring.
    exact Hsmall.
Qed.

Lemma snap_cpc_after_snap_cr_witness :
  Qabs
    (cpc (snap_cpc (R := binary64)
            (mkBounds 0 10000 (binary64 0.2) 20 (binary64 0.001) 1)
            (Some 11)
            (snap_cr (R := binary64)
               (mkBounds 0 10000 (binary64 0.2) 20 (binary64 0.001) 1)
               (Some 11) (mkState 5000 (binary64 0.4) (binary64 0.04))))
     - cpc (snap_cr (R := binary64)
              (mkBounds 0 10000 (binary64 0.2) 20 (binary64 0.001) 1)
              (Some 11) (mkState 5000 (binary64 0.4) (binary64 0.04))))
  <= 3 * rel_error * binary64 0.4 + abs_error * (2 * 11 + 1).
Proof.
  refine (proj2 (proj2
    (snap_cpc_after_snap_cr (R := binary64)
       (mkBounds 0 10000 (binary64 0.2) 20 (binary64 0.001) 1)
       (mkState 5000 (binary64 0.4) (binary64 0.04)) 11
       binary64_Binary64 _ _ _ _))).
  - reflexivity.
  - reflexivity.
  - vm_compute. reflexivity.
  - split; vm_compute; discriminate.
Defined.

(** ** RiskWaterfallDecomposer *)

Import Waterfall.

(** [cap] does not move a value it produced. *)
Lemma cap_idempotent (cfg : Config) (n : Q) :
  cap cfg (cap cfg n) == cap cfg n.
Proof.
  unfold cap. generalize (cap_to cfg ?? 100). intros m.
  split_minmax; lra.
Qed.

(** [cap] brings two values no further apart than they were. *)
Lemma cap_nonexpansive (cfg : Config) (a b r : Q) :
  Qabs (a - b) <= r -> Qabs (cap cfg a - cap cfg b) <= r.
Proof.
  rewrite !Qabs_Qle_condition.
  unfold cap. generalize (cap_to cfg ?? 100). intros m H.
  split_minmax; lra.
Qed.

(** [Math.round] is within a half of its argument. *)
Lemma Math_round_near (x : Q) :
  x - (1 # 2) < inject_Z (Math_round x) <= x + (1 # 2).
Proof.
  unfold Math_round.
  pose proof (Qfloor_le (x + (1 # 2))) as Hle.
  pose proof (Qlt_floor (x + (1 # 2))) as Hlt.
  rewrite inject_Z_plus in Hlt.
  change (inject_Z 1) with 1 in Hlt. lra.
Qed.





(** ** RiskWaterfallDecomposer: further properties *)

(** [cap] lands between 0 and the cap. *)
Lemma cap_range (cfg : Config) (n : Q) :
  0 <= cap cfg n <= Qmax 0 (cap_to cfg ?? 100).
Proof.
  unfold cap. generalize (cap_to cfg ?? 100). intros m.
  split_minmax; lra.
Qed.

(** A bar between two running totals ends at the larger of the two. *)
Lemma bar_span (start next : Q) :
  0 <= Qabs (next - start)
  /\ Qmin start next + Qabs (next - start) == Qmax start next.
Proof.
  split; [ apply Qabs_nonneg | ].
  apply Qabs_case; intros H; split_minmax; lra.
Qed.

Lemma bar_between (m start next : Q) (l c : string) (p : option Q) :
  0 <= start <= m -> 0 <= next <= m ->
  bar_within m
    {| step_label := l; cls := c; left := Qmin start next;
       width := Qabs (next - start); shown_pp := p |}.
Proof.
  intros Hs Hn. unfold bar_within. cbn [left width].
  destruct (bar_span start next) as [Hw Hspan].
  split; [ split_minmax; lra | split; [ exact Hw | ] ].
  rewrite Hspan. split_minmax; lra.
Qed.

(** The loop over the drivers keeps the running total under the cap and
    draws one bar per driver, whatever the rounding. *)
Lemma drivers_loop {R : Rounding} (cfg : Config) (ds : list Driver) (c : Q)
    (bars : list Step) :
  let m := Qmax 0 (cap_to cfg ?? 100) in
  0 <= c <= m ->
  0 <= fst (fold_left (driverStep cfg) ds (c, bars)) <= m
  /\ exists drawn : list Step,
       snd (fold_left (driverStep cfg) ds (c, bars)) = bars ++ drawn
       /\ map step_label drawn
          = map (fun d => or_string (label d) "Driver") ds
       /\ map shown_pp drawn = map pp ds
       /\ map cls drawn = map driverClass ds.
Proof.
  intros m. revert c bars.
  induction ds as [| d rest IH]; intros c bars Hc.
  - cbn [fold_left fst snd map]. split; [ exact Hc | ].
    exists []. rewrite app_nil_r. repeat split.
  - cbn [fold_left]. unfold driverStep at 2.
    pose proof (cap_range cfg (fl (c + or_num (pp d) 0))) as Hnext.
    fold m in Hnext.
    match goal with
    | |- context [fold_left _ rest (?next, ?bars')] =>
        destruct (IH next bars' Hnext) as [Ht [drawn [E [El [Ep Ec]]]]]
    end.
    split; [ exact Ht | ].
    eexists (_ :: drawn).
    split; [ etransitivity; [ exact E | ];
             rewrite <- app_assoc; reflexivity | ].
    cbn [map step_label shown_pp cls]. rewrite El, Ep, Ec.
    repeat split.
Qed.

(** In exact arithmetic the loop keeps every bar under the cap. *)
Lemma drivers_loop_bars (cfg : Config) (ds : list Driver) (c : Q)
    (bars : list Step) :
  let m := Qmax 0 (cap_to cfg ?? 100) in
  0 <= c <= m ->
  Forall (bar_within m) bars ->
  Forall (bar_within m) (snd (fold_left (driverStep cfg) ds (c, bars))).
Proof.
  intros m. revert c bars.
  induction ds as [| d rest IH]; intros c bars Hc Hbars.
  - exact Hbars.
  - cbn [fold_left]. unfold driverStep at 2. exact_arithmetic.
    pose proof (cap_range cfg (c + or_num (pp d) 0)) as Hnext.
    fold m in Hnext.
    apply IH; [ exact Hnext | ].
    apply Forall_app. split; [ exact Hbars | ].
    apply Forall_cons; [ | apply Forall_nil ].
    apply bar_between; assumption.
Qed.

(** X21. In exact arithmetic everything drawn stays between 0 and the
    cap (the larger of 0 and [cap_to], 100 when it is missing): the
    baseline, the final total, and every bar, residual included, whatever
    the drivers add or take away. *)
Theorem waterfall_within_cap (cfg : Config) :
  let m := Qmax 0 (cap_to cfg ?? 100) in
  0 <= baseline (renderChurnWaterfall cfg) <= m
  /\ 0 <= total (renderChurnWaterfall cfg) <= m
  /\ Forall (bar_within m) (steps (renderChurnWaterfall cfg)).
Proof.
  intros m. unfold renderChurnWaterfall. exact_arithmetic.
  pose proof (cap_range cfg (or_num (baseline_pp cfg) 0)) as Hbase.
  fold m in Hbase.
  destruct (drivers_loop cfg (drivers cfg ?? [])
              (cap cfg (or_num (baseline_pp cfg) 0)) [] Hbase) as [Ht _].
  pose proof (drivers_loop_bars cfg (drivers cfg ?? [])
                (cap cfg (or_num (baseline_pp cfg) 0)) [] Hbase
                (Forall_nil _)) as Hb.
  fold m in Ht, Hb.
  destruct (fold_left (driverStep cfg) (drivers cfg ?? [])
              (cap cfg (or_num (baseline_pp cfg) 0), []))
    as [cumulative bars].
  cbn [fst snd] in Ht, Hb.
  destruct (_ && _); cbn [baseline total steps].
  - pose proof (cap_range cfg
                  (cumulative
                   + inject_Z (Math_round (totalTarget cfg - cumulative))))
      as Hnext.
    fold m in Hnext.
    split; [ exact Hbase | split; [ exact Hnext | ] ].
    apply Forall_app. split; [ exact Hb | ].
    apply Forall_cons; [ | apply Forall_nil ].
    apply bar_between; assumption.
  - split; [ exact Hbase | split; [ exact Ht | exact Hb ] ].
Qed.

(** X22. The chart has one bar per driver, in the order of the drivers,
    with the label of the driver (Driver when it has none or an empty
    one), its contribution and its class; after them comes at most one
    more bar, the residual, and none unless [reconcile] is set. *)
Theorem waterfall_bars {R : Rounding} (cfg : Config) :
  exists drawn residual : list Step,
    steps (renderChurnWaterfall cfg) = drawn ++ residual
    /\ map step_label drawn
       = map (fun d => or_string (label d) "Driver") (drivers cfg ?? [])
    /\ map shown_pp drawn = map pp (drivers cfg ?? [])
    /\ map cls drawn = map driverClass (drivers cfg ?? [])
    /\ (residual = []
        \/ exists r : Step,
             residual = [r] /\ cls r = "residual"%string
             /\ step_label r = "Other modeled factors"%string)
    /\ (reconcile cfg <> Some true -> residual = []).
Proof.
  unfold renderChurnWaterfall.
  pose proof (cap_range cfg (or_num (baseline_pp cfg) 0)) as Hbase.
  destruct (drivers_loop cfg (drivers cfg ?? [])
              (cap cfg (or_num (baseline_pp cfg) 0)) [] Hbase)
    as [_ [drawn [E [El [Ep Ec]]]]].
  destruct (fold_left (driverStep cfg) (drivers cfg ?? [])
              (cap cfg (or_num (baseline_pp cfg) 0), []))
    as [cumulative bars].
  cbn [snd app] in E. subst bars.
  destruct (reconcile cfg ?? false) eqn:Hrec; cbn [andb].
  - destruct (1 <=? Z.abs _)%Z; cbn [steps].
    + exists drawn. eexists. split; [ reflexivity | ].
      repeat apply conj; try assumption.
      * right. eexists. repeat split.
      * intros Hno. exfalso. apply Hno.
        destruct (reconcile cfg) as [[|] |]; try discriminate Hrec.
        reflexivity.
    + exists drawn, []. rewrite app_nil_r.
      repeat apply conj; try assumption; try reflexivity.
      * left. reflexivity.
  - cbn [steps]. exists drawn, []. rewrite app_nil_r.
    repeat apply conj; try assumption; try reflexivity.
    left. reflexivity.
Qed.

Lemma waterfall_bars_witness :
  exists drawn residual : list Step,
    steps
      (renderChurnWaterfall
         (mkConfig (Some 40) (Some 20)
            (Some [mkDriver None (Some 15) None None None;
                   mkDriver None (Some 10) None None None])
            None None))
    = drawn ++ residual
    /\ residual = [].
Proof.
  destruct (waterfall_bars
              (mkConfig (Some 40) (Some 20)
                 (Some [mkDriver None (Some 15) None None None;
                        mkDriver None (Some 10) None None None])
                 None None))
    as [drawn [residual [E [_ [_ [_ [_ Hnone]]]]]]].
  exists drawn, residual. split; [ exact E | ].
  apply Hnone. discriminate.
Defined.

(** A rounding with the laws of [Binary64] respects the equality of
    rationals. *)
Lemma fl_proper {R : Rounding} (x y : Q) :
  Binary64 R -> x == y -> fl x == fl y.
Proof.
  intros HR E.
  apply Qle_antisym; apply (fl_monotone R HR); rewrite E; apply Qle_refl.
Qed.

(** Rounding leaves alone a number that is an integer up to 2^53. *)
Lemma fl_whole {R : Rounding} (q : Q) (z : Z) :
  Binary64 R ->
  q == inject_Z z -> (Z.abs z <= 9007199254740992)%Z -> fl q == inject_Z z.
Proof.
  intros HR E Hz. rewrite (fl_proper _ _ HR E). apply (fl_integer R HR z Hz).
Qed.

(** [Math.round] leaves an integer alone. *)
Lemma Math_round_whole (q : Q) (z : Z) :
  q == inject_Z z -> Math_round q = z.
Proof.
  intros E. unfold Math_round.
  pose proof (Qfloor_le (q + (1 # 2))) as Hle.
  pose proof (Qlt_floor (q + (1 # 2))) as Hlt.
  rewrite inject_Z_plus in Hlt. change (inject_Z 1) with 1 in Hlt.
  assert (H1 : inject_Z (Qfloor (q + (1 # 2))) < inject_Z (z + 1)).
  { rewrite inject_Z_plus. change (inject_Z 1) with 1. lra. }
  assert (H2 : inject_Z z < inject_Z (Qfloor (q + (1 # 2)) + 1)).
  { rewrite inject_Z_plus. change (inject_Z 1) with 1. lra. }
  rewrite <- Zlt_Qlt in H1, H2. lia.
Qed.

(** [cap] of an integer is an integer between 0 and the cap. *)
Lemma cap_whole (cfg : Config) (n : Q) (z : Z) :
  whole (cap_to cfg ?? 100) ->
  n == inject_Z z ->
  exists z' : Z,
    cap cfg n == inject_Z z' /\ (0 <= z' <= 4503599627370496)%Z.
Proof.
  intros [zm [Em Hm]] En. unfold cap.
  exists (Z.max 0 (Z.min zm z)). split; [ | lia ].
  rewrite Em, En. 
  destruct (Z.min_spec zm z) as [[Hlt Emin] | [Hle Emin]]; rewrite Emin.
  - assert (Hq : inject_Z zm <= inject_Z z) by (rewrite <- Zle_Qle; lia).
    rewrite (Q.min_l _ _ Hq).
    destruct (Z.max_spec 0 zm) as [[H0 Emax] | [H0 Emax]]; rewrite Emax.
    + apply Q.max_r. change 0 with (inject_Z 0). rewrite <- Zle_Qle. lia.
    + apply Q.max_l. change 0 with (inject_Z 0). rewrite <- Zle_Qle. lia.
  - assert (Hq : inject_Z z <= inject_Z zm) by (rewrite <- Zle_Qle; lia).
    rewrite (Q.min_r _ _ Hq).
    destruct (Z.max_spec 0 z) as [[H0 Emax] | [H0 Emax]]; rewrite Emax.
    + apply Q.max_r. change 0 with (inject_Z 0). rewrite <- Zle_Qle. lia.
    + apply Q.max_l. change 0 with (inject_Z 0). rewrite <- Zle_Qle. lia.
Qed.

(** On integers the loop over the drivers leaves an integer between 0
    and the cap. *)
Lemma drivers_loop_whole {R : Rounding} (cfg : Config) (ds : list Driver)
    (c : Q) (bars : list Step) (z : Z) :
  Binary64 R ->
  whole (cap_to cfg ?? 100) ->
  Forall (fun d => whole (or_num (pp d) 0)) ds ->
  c == inject_Z z -> (0 <= z <= 4503599627370496)%Z ->
  exists z' : Z,
    fst (fold_left (driverStep cfg) ds (c, bars)) == inject_Z z'
    /\ (0 <= z' <= 4503599627370496)%Z.
Proof.
  intros HR Hcap Hds. revert c bars z.
  induction Hds as [| d rest [zp [Ep Hp]] Hrest IH]; intros c bars z Ec Hz.
  - exists z. split; [ exact Ec | exact Hz ].
  - cbn [fold_left]. unfold driverStep at 2.
    assert (Esum : fl (c + or_num (pp d) 0) == inject_Z (z + zp)).
    { apply (fl_whole _ _ HR); [ | lia ].
      rewrite Ec, Ep, inject_Z_plus. reflexivity. }
    destruct (cap_whole cfg _ _ Hcap Esum) as [z' [E' H']].
    apply (IH _ _ z' E' H').
Qed.

Lemma cap_proper (cfg : Config) (x y : Q) : x == y -> cap cfg x == cap cfg y.
Proof.
  intros E. unfold cap. rewrite E. reflexivity.
Qed.

(** X23. With [reconcile] set and a configuration whose numbers are all
    integers of magnitude at most 2^52, every sum is exact for a rounding
    with the laws of [Binary64]: the final total is the capped header
    total itself, and reconciling the chart a second time would add no
    further residual. *)
Theorem waterfall_reconciled_once {R : Rounding} (cfg : Config) :
  Binary64 R ->
  reconcile cfg = Some true ->
  wholeConfig cfg ->
  total (renderChurnWaterfall cfg) == totalTarget cfg
  /\ Math_round (fl (totalTarget cfg - total (renderChurnWaterfall cfg)))
     = 0%Z.
Proof.
  intros HR Hrec [[zt0 [Et0 _]] [[zb0 [Eb0 _]] [Hcap Hds]]].
  assert (Htotal : total (renderChurnWaterfall cfg) == totalTarget cfg).
  { unfold renderChurnWaterfall.
    destruct (cap_whole cfg _ _ Hcap Eb0) as [zb [Eb Hb]].
    destruct (drivers_loop_whole cfg (drivers cfg ?? [])
                (cap cfg (or_num (baseline_pp cfg) 0)) [] zb HR Hcap Hds
                Eb Hb) as [zc [Ec Hc]].
    destruct (fold_left (driverStep cfg) (drivers cfg ?? [])
                (cap cfg (or_num (baseline_pp cfg) 0), []))
      as [cumulative bars].
    cbn [fst] in Ec.
    destruct (cap_whole cfg _ _ Hcap Et0) as [zt [Et Ht]].
    fold (totalTarget cfg) in Et.
    assert (Ediff : fl (totalTarget cfg - cumulative) == inject_Z (zt - zc)).
    { apply (fl_whole _ _ HR); [ | lia ].
      rewrite Et, Ec. unfold Zminus.
      rewrite inject_Z_plus, inject_Z_opp. reflexivity. }
    rewrite (Math_round_whole _ _ Ediff).
    rewrite Hrec. cbn [nullish andb].
    destruct (1 <=? Z.abs (zt - zc))%Z eqn:Hd; cbn [total].
    - assert (Enext : fl (cumulative + inject_Z (zt - zc)) == totalTarget cfg).
      { rewrite Et. apply (fl_whole _ _ HR); [ | lia ].
        rewrite Ec. unfold Zminus.
        rewrite inject_Z_plus, inject_Z_opp. ring. }
      rewrite (cap_proper cfg _ _ Enext).
      unfold totalTarget. apply cap_idempotent.
    - apply Z.leb_gt in Hd. assert (zt = zc) by lia. subst zc.
      rewrite Ec, Et. reflexivity. }
  split; [ exact Htotal | ].
  apply Math_round_whole. apply (fl_whole _ _ HR); [ | discriminate ].
  rewrite Htotal. change (inject_Z 0) with 0. ring.
Qed.

Lemma waterfall_reconciled_once_witness :
  total
    (renderChurnWaterfall (R := binary64)
       (mkConfig (Some 40) (Some 20)
          (Some [mkDriver None (Some 15) None None None;
                 mkDriver None (Some 10) None None None])
          None (Some true)))
  == totalTarget
       (mkConfig (Some 40) (Some 20)
          (Some [mkDriver None (Some 15) None None None;
                 mkDriver None (Some 10) None None None])
          None (Some true)).
Proof.
  refine (proj1
    (waterfall_reconciled_once (R := binary64)
       (mkConfig (Some 40) (Some 20)
          (Some [mkDriver None (Some 15) None None None;
                 mkDriver None (Some 10) None None None])
          None (Some true))
       binary64_Binary64 _ _)).
  - reflexivity.
  - unfold wholeConfig, whole. cbn.
    repeat apply conj.
    + exists 40%Z. split; [ reflexivity | discriminate ].
    + exists 20%Z. split; [ reflexivity | discriminate ].
    + exists 100%Z. split; [ reflexivity | discriminate ].
    + repeat apply Forall_cons; try apply Forall_nil.
      * exists 15%Z. split; [ reflexivity | discriminate ].
      * exists 10%Z. split; [ reflexivity | discriminate ].
Defined.

(** X29. The reconciliation under rounding: with [reconcile] set and a
    cap of at most 10^12, the final total is within 0.51 of the capped
    header total, hence within 1 of it, for every rounding with the laws
    of [Binary64]. *)
Theorem waterfall_reconciled_rounded {R : Rounding} (cfg : Config) :
  Binary64 R ->
  reconcile cfg = Some true ->
  cap_to cfg ?? 100 <= 1000000000000 ->
  Qabs (total (renderChurnWaterfall cfg) - totalTarget cfg) <= 51 # 100.
Proof.
  intros HR Hrec Hcap. unfold renderChurnWaterfall.
  pose proof (cap_range cfg (or_num (baseline_pp cfg) 0)) as Hbase.
  destruct (drivers_loop cfg (drivers cfg ?? [])
              (cap cfg (or_num (baseline_pp cfg) 0)) [] Hbase)
    as [Hc _].
  destruct (fold_left (driverStep cfg) (drivers cfg ?? [])
              (cap cfg (or_num (baseline_pp cfg) 0), []))
    as [c bars].
  cbn [fst] in Hc.
  pose proof (cap_range cfg (total_pct cfg ?? 0)) as Ht.
  fold (totalTarget cfg) in Ht.
  pose proof (cap_idempotent cfg (total_pct cfg ?? 0)) as Hfix.
  fold (totalTarget cfg) in Hfix.
  set (T := totalTarget cfg) in *.
  assert (Hm : Qmax 0 (cap_to cfg ?? 100) <= 1000000000000)
    by (apply Q.max_lub; lra).
  revert Hc Ht Hm. generalize (Qmax 0 (cap_to cfg ?? 100)).
  intros m Hc Ht Hm.
  assert (Hb1 : Qabs (T - c) <= m) by (apply Qabs_Qle_condition; lra).
  destruct (fl_near (T - c) m HR Hb1) as [Hd1 Hd2].
  pose proof (Math_round_near (fl (T - c))) as Hr.
  rewrite Hrec. cbn [nullish andb].
  set (d := fl (T - c)) in *. set (diff := Math_round d) in *.
  destruct (1 <=? Z.abs diff)%Z eqn:Hd; cbn [total].
  - assert (Hb2 : Qabs (c + inject_Z diff) <= 2 * m + 1).
    { apply Qabs_Qle_condition. unfold rel_error, abs_error in *. lra. }
    destruct (fl_near (c + inject_Z diff) _ HR Hb2) as [Hx1 Hx2].
    rewrite <- Hfix. apply cap_nonexpansive.
    apply Qabs_Qle_condition.
    unfold rel_error, abs_error in *. lra.
  - apply Z.leb_gt in Hd. assert (Hz : diff = 0%Z) by lia.
    rewrite Hz in Hr. change (inject_Z 0) with 0 in Hr.
    apply Qabs_Qle_condition.
    unfold rel_error, abs_error in *. lra.
Qed.

Lemma waterfall_reconciled_rounded_witness :
  Qabs (total
          (renderChurnWaterfall (R := binary64)
             (mkConfig (Some (binary64 65.1)) (Some (binary64 37.2))
                (Some [mkDriver None (Some (binary64 7.9)) None None None;
                       mkDriver None (Some (-12.5)) None None None])
                None (Some true)))
        - totalTarget
            (mkConfig (Some (binary64 65.1)) (Some (binary64 37.2))
               (Some [mkDriver None (Some (binary64 7.9)) None None None;
                      mkDriver None (Some (-12.5)) None None None])
               None (Some true)))
  <= 51 # 100.
Proof.
  apply (waterfall_reconciled_rounded (R := binary64)
           (mkConfig (Some (binary64 65.1)) (Some (binary64 37.2))
              (Some [mkDriver None (Some (binary64 7.9)) None None None;
                     mkDriver None (Some (-12.5)) None None None])
              None (Some true)) binary64_Binary64).
  - reflexivity.
  - vm_compute. discriminate.
Defined.

(** In exact arithmetic the loop over the drivers adds the contributions
    up as long as no running sum leaves the range of the cap. *)
Lemma drivers_loop_sum (cfg : Config) (ds : list Driver) (c : Q)
    (bars : list Step) :
  (forall k : nat,
     0 <= c + contributions (firstn k ds) <= cap_to cfg ?? 100) ->
  fst (fold_left (driverStep cfg) ds (c, bars)) == c + contributions ds.
Proof.
  revert c bars. induction ds as [| d rest IH]; intros c bars Hin.
  - cbn [fold_left fst contributions fold_right]. lra.
  - cbn [fold_left].
    destruct (driverStep cfg (c, bars) d) as [next bars'] eqn:Estep.
    unfold driverStep in Estep. exact_arithmetic. injection Estep as En _.
    assert (Hnext : next == c + or_num (pp d) 0).
    { subst next. pose proof (Hin 1%nat) as H1.
      cbn [firstn contributions fold_right] in H1.
      unfold cap. revert H1. generalize (cap_to cfg ?? 100). intros m H1.
      split_minmax; lra. }
    rewrite IH.
    + cbn [contributions fold_right]. fold (contributions rest). lra.
    + intros k. pose proof (Hin (S k)) as Hk.
      cbn [firstn contributions fold_right] in Hk.
      fold (contributions (firstn k rest)) in Hk. lra.
Qed.

(** X24. In exact arithmetic and without [reconcile], when no running
    sum of the baseline and the contributions leaves the range from 0 to
    the cap, nothing is capped and the final total is the baseline plus
    all contributions, a missing contribution counting as 0. *)
Theorem waterfall_total_is_sum (cfg : Config) :
  reconcile cfg <> Some true ->
  (forall k : nat,
     0 <= or_num (baseline_pp cfg) 0
          + contributions (firstn k (drivers cfg ?? []))
     <= cap_to cfg ?? 100) ->
  total (renderChurnWaterfall cfg)
  == or_num (baseline_pp cfg) 0 + contributions (drivers cfg ?? []).
Proof.
  intros Hrec Hin. unfold renderChurnWaterfall. exact_arithmetic.
  assert (Hbase :
    cap cfg (or_num (baseline_pp cfg) 0) == or_num (baseline_pp cfg) 0).
  { pose proof (Hin 0%nat) as H0.
    cbn [firstn contributions fold_right] in H0.
    unfold cap. revert H0. generalize (cap_to cfg ?? 100). intros m H0.
    split_minmax; lra. }
  pose proof (drivers_loop_sum cfg (drivers cfg ?? [])
                (cap cfg (or_num (baseline_pp cfg) 0)) []) as Hsum.
  destruct (fold_left (driverStep cfg) (drivers cfg ?? [])
              (cap cfg (or_num (baseline_pp cfg) 0), []))
    as [cumulative bars].
  cbn [fst] in Hsum.
  assert (Hno : reconcile cfg ?? false = false).
  { destruct (reconcile cfg) as [[|] |]; try reflexivity.
    contradiction Hrec. reflexivity. }
  rewrite Hno. cbn [andb total].
  rewrite Hsum; [ lra | ].
  intros k. specialize (Hin k). lra.
Qed.

Lemma waterfall_total_is_sum_witness :
  total
    (renderChurnWaterfall
       (mkConfig (Some 40) (Some 20)
          (Some [mkDriver None (Some 15) None None None;
                 mkDriver None (Some (-10)) None None None])
          None None))
  == or_num (Some 20) 0
     + contributions
         [mkDriver None (Some 15) None None None;
          mkDriver None (Some (-10)) None None None].
Proof.
  apply (waterfall_total_is_sum
           (mkConfig (Some 40) (Some 20)
              (Some [mkDriver None (Some 15) None None None;
                     mkDriver None (Some (-10)) None None None])
              None None)).
  - discriminate.
  - intros k. destruct k as [| [| [| k]]]; split; vm_compute; discriminate.
Defined.

(** ** The waterfall of an account *)

(** Without [reconcile] the chart is what the loop over the drivers
    leaves. *)
Lemma chart_without_reconcile {R : Rounding} (cfg : Config) :
  reconcile cfg <> Some true ->
  steps (renderChurnWaterfall cfg)
  = snd (fold_left (driverStep cfg) (drivers cfg ?? [])
           (cap cfg (or_num (baseline_pp cfg) 0), []))
  /\ total (renderChurnWaterfall cfg)
     = fst (fold_left (driverStep cfg) (drivers cfg ?? [])
              (cap cfg (or_num (baseline_pp cfg) 0), []))
  /\ baseline (renderChurnWaterfall cfg)
     = cap cfg (or_num (baseline_pp cfg) 0).
Proof.
  intros Hrec. unfold renderChurnWaterfall.
  destruct (fold_left (driverStep cfg) (drivers cfg ?? [])
              (cap cfg (or_num (baseline_pp cfg) 0), []))
    as [cumulative bars].
  assert (Hno : reconcile cfg ?? false = false).
  { destruct (reconcile cfg) as [[|] |]; try reflexivity.
    contradiction Hrec. reflexivity. }
  rewrite Hno. repeat split.
Qed.

(** The configuration built from risk drivers with a baseline. *)
Lemma buildWaterfallFromAccount_some {R : Rounding}
    (account : Account) (rd : RiskDrivers) :
  risk_drivers_json account = Some rd ->
  truthy (rd_baseline rd) = true ->
  exists cfg : Config,
    buildWaterfallFromAccount account = Some cfg
    /\ drivers cfg = Some (map buildDriver (rd_drivers rd ?? []))
    /\ cap_to cfg = Some 100
    /\ reconcile cfg = None.
Proof.
  intros Hrd Hb. unfold buildWaterfallFromAccount. rewrite Hrd, Hb.
  cbn [negb]. eexists. split; [ reflexivity | ].
  cbn [drivers cap_to reconcile].
  destruct (rd_drivers rd); repeat split.
Qed.

(** X25. In exact arithmetic an account gets no waterfall exactly when
    its risk drivers are missing or unreadable, or their baseline is
    missing or 0.  Otherwise the chart has exactly one bar per risk driver
    and never a residual bar, and the baseline, every bar and the final
    total stay between 0 and 100. *)
Theorem account_waterfall_drawn (account : Account) :
  (renderWaterfallForAccount account = None
   <-> risk_drivers_json account = None
       \/ exists rd : RiskDrivers,
            risk_drivers_json account = Some rd
            /\ (rd_baseline rd = None
                \/ exists b : Q, rd_baseline rd = Some b /\ b == 0))
  /\
  (forall (rd : RiskDrivers) (chart : Chart),
     risk_drivers_json account = Some rd ->
     renderWaterfallForAccount account = Some chart ->
     length (steps chart) = length (rd_drivers rd ?? [])
     /\ 0 <= baseline chart <= 100
     /\ 0 <= total chart <= 100
     /\ Forall (bar_within 100) (steps chart)).
Proof.
  assert (Hfalsy :
    forall o : option Q,
      truthy o = false
      <-> o = None \/ exists b : Q, o = Some b /\ b == 0).
  { intros [b |]; cbn [truthy].
    - rewrite negb_false_iff, Qeq_bool_iff. split.
      + intros H. right. exists b. split; [ reflexivity | exact H ].
      + intros [H | [b' [H Hb]]]; [ discriminate H | ].
        injection H as <-. exact Hb.
    - split; [ intros _; left; reflexivity | reflexivity ]. }
  split.
  - unfold renderWaterfallForAccount, buildWaterfallFromAccount.
    destruct (risk_drivers_json account) as [rd |].
    + destruct (truthy (rd_baseline rd)) eqn:Hb; cbn [negb option_map].
      * split; [ discriminate | ].
        intros [H | [rd' [H Hfalse]]]; [ discriminate H | ].
        injection H as <-. apply Hfalsy in Hfalse. congruence.
      * split; [ | reflexivity ]. intros _. right. exists rd.
        split; [ reflexivity | apply Hfalsy; exact Hb ].
    + split; [ intros _; left; reflexivity | reflexivity ].
  - intros rd chart Hrd. unfold renderWaterfallForAccount.
    destruct (truthy (rd_baseline rd)) eqn:Hb.
    + destruct (buildWaterfallFromAccount_some account rd Hrd Hb)
        as [cfg [-> [Hds [Hcap Hrec]]]].
      cbn [option_map]. intros Hchart. injection Hchart as <-.
      assert (Hno : reconcile cfg <> Some true)
        by (rewrite Hrec; discriminate).
      destruct (chart_without_reconcile cfg Hno)
        as [Esteps [Etotal Ebase]].
      pose proof (cap_range cfg (or_num (baseline_pp cfg) 0)) as Hbase.
      destruct (drivers_loop cfg (drivers cfg ?? [])
                  (cap cfg (or_num (baseline_pp cfg) 0)) [] Hbase)
        as [Ht [drawn [E [El _]]]].
      pose proof (drivers_loop_bars cfg (drivers cfg ?? [])
                    (cap cfg (or_num (baseline_pp cfg) 0)) [] Hbase
                    (Forall_nil _)) as Hbars.
      rewrite <- Esteps in Hbars, E. rewrite <- Etotal in Ht.
      rewrite <- Ebase in Hbase.
      assert (Hm : Qmax 0 (cap_to cfg ?? 100) = 100)
        by (rewrite Hcap; reflexivity).
      rewrite Hm in Ht, Hbars, Hbase.
      repeat apply conj; try assumption; try apply Ht; try apply Hbase.
      cbn [app] in E. rewrite E.
      rewrite <- (length_map step_label), El, length_map, Hds.
      cbn [nullish]. apply length_map.
    + unfold buildWaterfallFromAccount. rewrite Hrd, Hb.
      cbn [negb option_map]. discriminate.
Qed.

Lemma account_waterfall_drawn_witness :
  length
    (steps
       (renderChurnWaterfall
          (mkConfig (Some 42.3) (Some 11)
             (Some (map buildDriver
                      [mkRiskDriver (Some "Single Product"%string)
                         (Some 7.4) None]))
             (Some 100) None)))
  = 1%nat.
Proof.
  refine (proj1 (proj2
    (account_waterfall_drawn
       (mkAccount (Some 0.423)
          (Some (mkRiskDrivers (Some 11)
                   (Some [mkRiskDriver (Some "Single Product"%string)
                            (Some 7.4) None])))))
    (mkRiskDrivers (Some 11)
       (Some [mkRiskDriver (Some "Single Product"%string) (Some 7.4) None]))
    _ _ _)).
  - reflexivity.
  - vm_compute. reflexivity.
Defined.

(** The class drawn for a driver built from a risk driver. *)
Lemma buildDriver_class {R : Rounding} (d : RiskDriver) :
  type (buildDriver d) = Some (driverClass (buildDriver d))
  /\ (driverClass (buildDriver d) = "protective"%string
      \/ driverClass (buildDriver d) = "controllable"%string
      \/ driverClass (buildDriver d) = "structural"%string)
  /\ (driverClass (buildDriver d) = "protective"%string
      <-> exists p : Q, pp (buildDriver d) = Some p /\ p < 0).
Proof.
  unfold buildDriver. cbv zeta.
  set (impact :=
    inject_Z
      (Math_round
         (if truthy (points d) then points d ?? 0
          else or_num (impact d) 0))).
  set (name' := or_string (name d) "Risk Factor").
  unfold driverClass. cbn [type pp lt0 opt_string_eqb].
  destruct (Qltb impact 0) eqn:Hneg;
    [ | destruct (controllableName name') ]; cbn;
    repeat apply conj; try reflexivity; auto; try discriminate;
    try (intros _; exists impact; split;
         [ reflexivity | apply Qltb_lt; exact Hneg ]);
    try (intros [p [Hp Hlt]]; injection Hp as <-;
         apply Qltb_ge in Hneg; exfalso; lra).
Qed.

Lemma map_pair {A B C D : Type} (f : A -> C) (g : A -> D) (f' : B -> C)
    (g' : B -> D) (l : list A) (l' : list B) :
  map f l = map f' l' -> map g l = map g' l' ->
  map (fun x => (f x, g x)) l = map (fun y => (f' y, g' y)) l'.
Proof.
  revert l'. induction l as [| x l IH]; intros [| y l'] Hf Hg;
    try discriminate; [ reflexivity | ].
  cbn [map] in *. injection Hf as Hx Hf. injection Hg as Hy Hg.
  rewrite Hx, Hy, (IH l' Hf Hg). reflexivity.
Qed.

(** X26. In the chart of an account every bar has the class that was
    assigned as the type of its driver, which is protective, controllable
    or structural and never residual, and a bar is protective exactly when
    its rounded contribution is negative. *)
Theorem account_waterfall_classes {R : Rounding}
    (account : Account) (rd : RiskDrivers)
    (chart : Chart) :
  risk_drivers_json account = Some rd ->
  renderWaterfallForAccount account = Some chart ->
  map (fun s => Some (cls s)) (steps chart)
  = map (fun d => type (buildDriver d)) (rd_drivers rd ?? [])
  /\ forall s : Step, In s (steps chart) ->
       (cls s = "protective"%string \/ cls s = "controllable"%string
        \/ cls s = "structural"%string)
       /\ (cls s = "protective"%string
           <-> exists p : Q, shown_pp s = Some p /\ p < 0).
Proof.
  intros Hrd. unfold renderWaterfallForAccount.
  destruct (truthy (rd_baseline rd)) eqn:Hb.
  - destruct (buildWaterfallFromAccount_some account rd Hrd Hb)
      as [cfg [-> [Hds [Hcap Hrec]]]].
    cbn [option_map]. intros Hchart. injection Hchart as <-.
    assert (Hno : reconcile cfg <> Some true)
      by (rewrite Hrec; discriminate).
    destruct (chart_without_reconcile cfg Hno) as [Esteps _].
    pose proof (cap_range cfg (or_num (baseline_pp cfg) 0)) as Hbase.
    destruct (drivers_loop cfg (drivers cfg ?? [])
                (cap cfg (or_num (baseline_pp cfg) 0)) [] Hbase)
      as [_ [drawn [E [_ [Ep Ec]]]]].
    rewrite <- Esteps in E. cbn [app] in E. rewrite E.
    rewrite Hds in Ep, Ec. cbn [nullish] in Ep, Ec.
    rewrite map_map in Ep, Ec.
    split.
    + rewrite <- (map_map cls Some), Ec, map_map.
      apply map_ext. intros d.
      symmetry. apply (proj1 (buildDriver_class d)).
    + intros s Hs.
      pose proof (map_pair cls shown_pp _ _ _ _ Ec Ep) as Hpair.
      apply (in_map (fun x => (cls x, shown_pp x))) in Hs.
      rewrite Hpair in Hs. apply in_map_iff in Hs.
      destruct Hs as [d [Hd _]]. injection Hd as Hc Hp.
      rewrite <- Hc, <- Hp.
      exact (proj2 (buildDriver_class d)).
  - unfold buildWaterfallFromAccount. rewrite Hrd, Hb.
    cbn [negb option_map]. discriminate.
Qed.

Lemma account_waterfall_classes_witness :
  map (fun s => Some (cls s))
    (steps
       (renderChurnWaterfall
          (mkConfig (Some 42.3) (Some 11)
             (Some (map buildDriver
                      [mkRiskDriver (Some "Zero Leads (30d)"%string)
                         (Some 7.4) None]))
             (Some 100) None)))
  = map (fun d => type (buildDriver d))
      [mkRiskDriver (Some "Zero Leads (30d)"%string) (Some 7.4) None].
Proof.
  refine (proj1
    (account_waterfall_classes
       (mkAccount (Some 0.423)
          (Some (mkRiskDrivers (Some 11)
                   (Some [mkRiskDriver (Some "Zero Leads (30d)"%string)
                            (Some 7.4) None]))))
       (mkRiskDrivers (Some 11)
          (Some [mkRiskDriver (Some "Zero Leads (30d)"%string) (Some 7.4)
                   None]))
       _ _ _)).
  - reflexivity.
  - vm_compute. reflexivity.
Defined.

Lemma own_in {A : Type} (table : list (string * A)) (key : string)
    (v : A) :
  own table key = Some v -> In v (map snd table).
Proof.
  induction table as [| [k w] rest IH]; cbn [own map snd].
  - discriminate.
  - destruct (k =? key)%string.
    + intros H. injection H as <-. left. reflexivity.
    + intros H. right. apply IH. exact H.
Qed.

(** What [lookup] finds is an entry of the table or a member of
    [Object.prototype] that the table does not hide. *)
Lemma lookup_cases {A : Type} (table : list (string * A)) (key : string) :
  (forall v : A, lookup table key = Some (entry v) <-> own table key = Some v)
  /\ (forall k : string,
        lookup table key = Some (prototype_member k) ->
        k = key /\ own table key = None /\ In key objectPrototype).
Proof.
  unfold lookup. destruct (own table key) as [w |].
  - split.
    + intros v. split; intros H; injection H as <-; reflexivity.
    + intros k H. discriminate H.
  - destruct (existsb (String.eqb key) objectPrototype) eqn:Hp.
    + split.
      * intros v. split; intros H; discriminate H.
      * intros k H. injection H as <-.
        repeat split. apply existsb_exists in Hp.
        destruct Hp as [x [Hin Hx]]. apply String.eqb_eq in Hx.
        subst x. exact Hin.
    + split.
      * intros v. split; intros H; discriminate H.
      * intros k H. discriminate H.
Qed.

(** Every base lift of the table lies between 0.69 and 4.11. *)
Lemma baseLifts_range {R : Rounding} (driverName : string) (b : Q) :
  Binary64 R ->
  own baseLifts driverName = Some b -> 0.69 <= b <= 4.11.
Proof.
  intros HR H. apply own_in in H. revert b H. apply Forall_forall.
  unfold baseLifts. cbn [map snd].
  repeat (apply Forall_cons;
          [ first
              [ lra
              | match goal with
                | |- _ <= fl ?c <= _ =>
                    let H1 := fresh in
                    let H2 := fresh in
                    destruct (fl_near_pos c HR ltac:(lra)) as [H1 H2];
                    unfold rel_error, abs_error in H1, H2; lra
                end ]
          | ]);
    apply Forall_nil.
Qed.

(** X27. A name that is neither in the table of base lifts nor
    inherited from [Object.prototype] has no lift ratio.  An inherited
    name gives NaN, or the inherited member itself for a contribution of
    0.  A name of the table gives its base lift for a contribution of 0,
    and otherwise, for a rounding with the laws of [Binary64], a number
    of tenths [k] divided by 10, where [k] is within 0.51 of the range
    from 5 to 20 times the base lift, hence between 3 and 82. *)
Theorem estimateLiftRatio_bounds {R : Rounding} (driverName : string)
    (impactPp : Q) :
  (lookup baseLifts driverName = None ->
   estimateLiftRatio driverName impactPp = None)
  /\
  (forall key : string,
     lookup baseLifts driverName = Some (prototype_member key) ->
     (impactPp == 0 ->
      estimateLiftRatio driverName impactPp = Some (lift_member key))
     /\ (~ impactPp == 0 ->
         estimateLiftRatio driverName impactPp = Some lift_NaN))
  /\
  (forall b : Q,
     lookup baseLifts driverName = Some (entry b) ->
     Binary64 R ->
     (impactPp == 0 ->
      estimateLiftRatio driverName impactPp = Some (lift_number b))
     /\ (~ impactPp == 0 ->
         exists k : Z,
           estimateLiftRatio driverName impactPp
           = Some (lift_number (fl (inject_Z k / 10)))
           /\ 5 * b - 0.51 <= inject_Z k <= 20 * b + 0.51
           /\ (3 <= k <= 82)%Z)).
Proof.
  unfold estimateLiftRatio. cbv zeta. split; [ | split ].
  - intros ->. reflexivity.
  - intros key ->. split; intros H0.
    + apply Qeq_bool_iff in H0. rewrite H0. reflexivity.
    + apply Qeq_bool_false in H0. rewrite H0. reflexivity.
  - intros b Hb HR. rewrite Hb.
    apply (proj1 (lookup_cases _ _)) in Hb.
    pose proof (baseLifts_range _ _ HR Hb) as Hrange.
    assert (Hnz : Qeq_bool b 0 = false) by (apply Qeq_bool_false; lra).
    rewrite Hnz. cbn [negb andb]. split.
    + intros H0. apply Qeq_bool_iff in H0. rewrite H0. reflexivity.
    + intros H0. apply Qeq_bool_false in H0. rewrite H0. cbn [negb].
      eexists. split; [ reflexivity | ].
      set (s := Qmin 2.0 (Qmax 0.5 (fl (Qabs impactPp / 20.0)))).
      assert (Hs : 0.5 <= s <= 2) by (unfold s; split_minmax; lra).
      assert (Hlow : 0.5 * b <= b * s).
      { assert (E : b * s - 0.5 * b == b * (s - 0.5)) by ring.
        assert (0 <= b * (s - 0.5)) by (apply Qmult_le_0_compat; lra).
        lra. }
      assert (Hhigh : b * s <= 2 * b).
      { assert (E : 2 * b - b * s == b * (2 - s)) by ring.
        assert (0 <= b * (2 - s)) by (apply Qmult_le_0_compat; lra).
        lra. }
      destruct (fl_near_pos (b * s) HR ltac:(lra)) as [Hy1 Hy2].
      pose proof (fl_nonneg (b * s) HR ltac:(lra)) as Hy0.
      set (y1 := fl (b * s)) in *.
      destruct (fl_near_pos (y1 * 10) HR ltac:(lra)) as [Hz1 Hz2].
      set (y2 := fl (y1 * 10)) in *.
      pose proof (Math_round_near y2) as Hr.
      set (k := Math_round y2) in *.
      assert (Hk : 5 * b - 0.51 <= inject_Z k <= 20 * b + 0.51).
      { clearbody k y2 y1 s. unfold rel_error, abs_error in *. lra. }
      split; [ exact Hk | ].
      assert (H3 : inject_Z 2 < inject_Z k)
        by (change (inject_Z 2) with 2; lra).
      assert (H82 : inject_Z k < inject_Z 83)
        by (change (inject_Z 83) with 83; lra).
      rewrite <- Zlt_Qlt in H3, H82. lia.
Qed.

Lemma estimateLiftRatio_bounds_witness :
  exists k : Z,
    estimateLiftRatio (R := binary64) "Good volume / CPL (protective)" (-30)
    = Some (lift_number (binary64 (inject_Z k / 10)))
    /\ 5 * binary64 0.70 - 0.51 <= inject_Z k <= 20 * binary64 0.70 + 0.51
    /\ (3 <= k <= 82)%Z.
Proof.
  refine (proj2 (proj2 (proj2
    (estimateLiftRatio_bounds (R := binary64)
       "Good volume / CPL (protective)" (-30)))
    (binary64 0.70) _ binary64_Binary64) _).
  - vm_compute. reflexivity.
  - vm_compute. discriminate.
Defined.

(** ** Score page: escaping *)

Lemma in_string_app (c : ascii) (a b : string) :
  In c (list_ascii_of_string (a ++ b))
  <-> In c (list_ascii_of_string a) \/ In c (list_ascii_of_string b).
Proof.
  induction a as [| x a IH]; cbn [append list_ascii_of_string In].
  - tauto.
  - rewrite IH. tauto.
Qed.

(** X28. The escaped text contains no angle bracket and no quote of
    either kind, it is never shorter than the text, and a text is left
    as it is exactly when it contains none of the five characters. *)
Theorem escapeHTML_safe (s : string) :
  (forall c : ascii,
     In c (list_ascii_of_string (escapeHTML s)) ->
     c <> lt_char /\ c <> gt_char /\ c <> dquote_char /\ c <> squote_char)
  /\ (String.length s <= String.length (escapeHTML s))%nat
  /\ (escapeHTML s = s
      <-> forall c : ascii,
            In c (list_ascii_of_string s) -> special c = false).
Proof.
  assert (Hchar :
    forall x c : ascii,
      In c (list_ascii_of_string (escapeChar x)) ->
      c <> lt_char /\ c <> gt_char /\ c <> dquote_char /\ c <> squote_char).
  { intros x c. unfold escapeChar.
    destruct (Ascii.eqb x amp_char) eqn:E1;
      [ | destruct (Ascii.eqb x lt_char) eqn:E2;
          [ | destruct (Ascii.eqb x gt_char) eqn:E3;
              [ | destruct (Ascii.eqb x dquote_char) eqn:E4;
                  [ | destruct (Ascii.eqb x squote_char) eqn:E5 ] ] ] ];
      cbn [list_ascii_of_string In]; intros H;
      repeat (destruct H as [<- | H];
              [ repeat split; discriminate | ]);
      try contradiction.
    destruct H as [<- | []].
    apply Ascii.eqb_neq in E2, E3, E4, E5. repeat split; assumption. }
  assert (Hlen :
    forall x : ascii, (1 <= String.length (escapeChar x))%nat).
  { intros x. unfold escapeChar.
    repeat (destruct (Ascii.eqb x _); [ cbn; lia | ]). cbn. lia. }
  assert (Happ :
    forall a b : string,
      String.length (a ++ b) = (String.length a + String.length b)%nat).
  { induction a as [| x a IH]; intros b; cbn [append String.length];
      [ reflexivity | rewrite IH; reflexivity ]. }
  induction s as [| x rest IH].
  - cbn. repeat split; intros; try contradiction; auto.
  - destruct IH as [IH1 [IH2 IH3]].
    cbn [escapeHTML]. split; [ | split ].
    + intros c Hc. apply in_string_app in Hc.
      destruct Hc as [Hc | Hc]; [ exact (Hchar x c Hc) | exact (IH1 c Hc) ].
    + rewrite Happ. cbn [String.length]. pose proof (Hlen x). lia.
    + cbn [list_ascii_of_string In]. split.
      * intros Heq.
        assert (Hx : special x = false).
        { destruct (special x) eqn:Hs; [ exfalso | reflexivity ].
          assert (Hl : (2 <= String.length (escapeChar x))%nat).
          { revert Hs. unfold special, escapeChar.
            destruct (Ascii.eqb x amp_char); [ cbn; lia | ].
            destruct (Ascii.eqb x lt_char); [ cbn; lia | ].
            destruct (Ascii.eqb x gt_char); [ cbn; lia | ].
            destruct (Ascii.eqb x dquote_char); [ cbn; lia | ].
            destruct (Ascii.eqb x squote_char); [ cbn; lia | ].
            discriminate. }
          apply (f_equal String.length) in Heq.
          rewrite Happ in Heq. cbn [String.length] in Heq. lia. }
        assert (Ex : escapeChar x = String x EmptyString).
        { revert Hx. unfold special, escapeChar.
          repeat (destruct (Ascii.eqb x _); [ discriminate | ]).
          reflexivity. }
        rewrite Ex in Heq. cbn [append] in Heq. injection Heq as Heq.
        intros c [<- | Hc]; [ exact Hx | ].
        apply (proj1 IH3 Heq). exact Hc.
      * intros Hall.
        assert (Hx : special x = false) by (apply Hall; left; reflexivity).
        assert (Ex : escapeChar x = String x EmptyString).
        { revert Hx. unfold special, escapeChar.
          repeat (destruct (Ascii.eqb x _); [ discriminate | ]).
          reflexivity. }
        rewrite Ex. cbn [append]. f_equal.
        apply (proj2 IH3). intros c Hc. apply Hall. right. exact Hc.
Qed.

Lemma escapeHTML_safe_witness :
  escapeHTML "Tom and Ann" = "Tom and Ann"%string.
Proof.
  apply (proj2 (proj2 (proj2 (escapeHTML_safe "Tom and Ann")))).
  intros c Hc. cbn in Hc.
  repeat (destruct Hc as [<- | Hc]; [ reflexivity | ]). contradiction.
Defined.

(** ** The rounding of doubles, on samples *)

(** With a target range up to 0.086 the product 0.086 * 1.8 is computed
    as 0.1548, a little above the exact product of the two doubles: a
    conversion rate of 0.1548 is not above it and is not suspicious, where
    exact arithmetic on the same doubles would say it is. *)
Lemma crSuspicious_sample :
  let bm :=
    mkBenchmarks None None
      (Some (mkMetricData (js_number (binary64 0.1548)) None None None
               (Some (mkRawRange (Some (binary64 0.02))
                                 (Some (binary64 0.086))))
               None None)) in
  @crSuspicious binary64 bm = false /\ @crSuspicious no_rounding bm = true.
Proof. vm_compute. split; reflexivity. Qed.

(** The band around a median of 0.03 runs from 0.0255 to
    0.034499999999999996, the double below 0.0345. *)
Lemma ensureTargetRange_sample :
  let r :=
    @ensureTargetRange binary64
      (Some (mkMetricData (js_number (binary64 0.03)) (Some (binary64 0.03))
               None None None None None)) "%" "CR" in
  low r == binary64 0.0255 /\
  high r == binary64 0.034499999999999996 /\
  high r < binary64 0.0345.
Proof. vm_compute. repeat split; reflexivity. Qed.

(** A value of 0.1265 against a range up to 0.11 is computed to be 15%
    over and is AVG, where exact arithmetic on the same doubles puts it
    over 15% and WEAK. *)
Lemma statusFromBench_sample :
  let m :=
    Some (mkMetricData (js_number (binary64 0.1265)) None None None
            (Some (mkRawRange (Some (binary64 0.05)) (Some (binary64 0.11))))
            None None) in
  @statusFromBench binary64 m "CPC" "$" lower_is_better = AVG /\
  @statusFromBench no_rounding m "CPC" "$" lower_is_better = WEAK.
Proof. vm_compute. split; reflexivity. Qed.

(** From a cost per click of 0.4 and a goal of 11 the solved conversion
    rate is 0.03636363636363637, and solving the cost per click from it
    gives 0.4000000000000001, one step above 0.4. *)
Lemma snap_sample :
  let b := ScenarioBuilder.mkBounds 0 10000 (binary64 0.2) 20
             (binary64 0.001) 1 in
  let s := ScenarioBuilder.mkState 5000 (binary64 0.4) (binary64 0.04) in
  let s1 := @ScenarioBuilder.snap_cr binary64 b (Some 11) s in
  let s2 := @ScenarioBuilder.snap_cpc binary64 b (Some 11) s1 in
  ScenarioBuilder.cr s1 == binary64 0.03636363636363637 /\
  ScenarioBuilder.cpc s2 == binary64 0.4000000000000001 /\
  ~ ScenarioBuilder.cpc s2 == ScenarioBuilder.cpc s.
Proof. vm_compute. repeat split; try reflexivity; discriminate. Qed.

(** With a goal of 11 and a conversion rate of 0.03 the solved cost per
    click is 0.32999999999999996, and the cost per lead computed from it
    is 10.999999999999998, not the goal. *)
Lemma snap_cpc_sample :
  let b := ScenarioBuilder.mkBounds 0 10000 (binary64 0.2) 20
             (binary64 0.001) 1 in
  let s := ScenarioBuilder.mkState 5000 (binary64 0.4) (binary64 0.03) in
  let s2 := @ScenarioBuilder.snap_cpc binary64 b (Some 11) s in
  ScenarioBuilder.cpc s2 == binary64 0.32999999999999996 /\
  exists c,
    ScenarioBuilder.cpl (@ScenarioBuilder.compute binary64 s2) = Some c /\
    c == binary64 10.999999999999998 /\ c < 11.
Proof.
  vm_compute. split; [ reflexivity | ].
  eexists. split; [ reflexivity | ]. split; reflexivity.
Qed.

(** A header of 65.1 over a baseline of 37.2 with drivers of 7.9 and
    -12.5 points: the drivers end at 32.6, the difference to the header
    is computed just under 32.5, the reconciling bar adds 32 and the
    chart ends at 64.6; reconciling once more would add another point. *)
Lemma renderChurnWaterfall_sample :
  let cfg :=
    Waterfall.mkConfig (Some (binary64 65.1)) (Some (binary64 37.2))
      (Some [Waterfall.mkDriver None (Some (binary64 7.9)) None None None;
             Waterfall.mkDriver None (Some (-12.5)) None None None])
      None (Some true) in
  let chart := @Waterfall.renderChurnWaterfall binary64 cfg in
  Waterfall.total chart == binary64 64.6 /\
  Math_round (binary64 (Waterfall.totalTarget cfg - Waterfall.total chart))
  = 1%Z.
Proof. vm_compute. split; reflexivity. Qed.

(** The protective driver at -30 points: 0.7 * 1.5 is computed as
    1.0499999999999998, and the ratio shown is 1, where exact arithmetic
    gives 1.1. *)
Lemma estimateLiftRatio_sample :
  (exists q,
     @estimateLiftRatio binary64 "Good volume / CPL (protective)" (-30)
     = Some (lift_number q) /\ q == 1) /\
  (exists q,
     @estimateLiftRatio no_rounding "Good volume / CPL (protective)" (-30)
     = Some (lift_number q) /\ q == 11 # 10).
Proof.
  split; eexists; (split; [ vm_compute; reflexivity | reflexivity ]).
Qed.

(** A driver named after a member of Object.prototype finds that member
    in the table of lifts: the ratio is NaN, or the member itself when
    the impact is 0. *)
Lemma estimateLiftRatio_inherited_sample :
  @estimateLiftRatio binary64 "constructor" (-30) = Some lift_NaN /\
  @estimateLiftRatio binary64 "constructor" 0
  = Some (lift_member "constructor") /\
  @estimateLiftRatio binary64 "nothing" 5 = None.
Proof. vm_compute. repeat split; reflexivity. Qed.

(** Behind the goal with a weak CPL and a CPC of 5 far above its range:
    a conversion-rate sample whose value is [null] is compared as 0, which
    is below half the low bound of the default range, and the card is
    Start with CR; with no value at all the comparison fails and the card
    is Start with CPC. *)
Lemma lever_choice_sample :
  let d (v : JsNumber) :=
    mkDiagnosis
      (mkInput (Some 5000) (Some 1000) (Some 40) (Some 80))
      (mkGoalAnalysis None None None)
      (mkBenchmarks
         (Some (mkMetricData (js_number 125) (Some 60) (Some 45) (Some 90)
                  None None None))
         (Some (mkMetricData (js_number 5) None None None
                  (Some (mkRawRange (Some 10) (Some 2))) None None))
         (Some (mkMetricData v None None None None None None)))
      None
      (Some (mkOverall (Some "behind"%string))) in
  outcome (@renderDiagnosis binary64 (d js_null)) = fix_cr_first
  /\ outcome (@renderDiagnosis binary64 (d js_undefined)) = fix_cpc_first.
Proof. vm_compute. split; reflexivity. Qed.
